(** * xv6 memory-management core: physical page allocator and buffer cache

    A shallow embedding of [kernel/kalloc.c] and [kernel/bio.c] together
    with the properties their specification states about them.

    Both files keep their state in one global structure ([kmem], [bcache]);
    here every function takes that structure as an argument and returns the
    updated one.  Memory is addressed the way the C code addresses it: the
    free list of the allocator is threaded through the free pages
    themselves, and the buckets of the buffer cache are circular doubly
    linked lists built from [prev]/[next] pointers. *)

From stdpp Require Import base list strings gmap.
From Stdlib Require Import ZArith Lia.
From Equations Require Import Equations.

Open Scope Z_scope.

(** ** Machine integers *)

(** [uint64] arithmetic wraps modulo [2^64]. *)
Definition wrap64 (z : Z) : Z := z mod 2 ^ 64.

(** [uint] arithmetic wraps modulo [2^32]. *)
Definition wrap32 (z : Z) : Z := z mod 2 ^ 32.

(** [int] arithmetic, two's complement on 32 bits. *)
Definition wrap_int (z : Z) : Z := (z + 2 ^ 31) mod 2 ^ 32 - 2 ^ 31.

Definition INT_MAX : Z := 2 ^ 31 - 1.
Definition INT_MIN : Z := - 2 ^ 31.

Definition is_int (z : Z) : Prop := INT_MIN <= z <= INT_MAX.

(** * The physical page allocator, [kernel/kalloc.c] *)

Module Kalloc.

(** What a call can end in: a normal return, [panic], or behaviour the C
    standard leaves undefined (an array index out of range, a load from
    memory nothing was ever stored to). *)
Inductive outcome (A : Type) : Type :=
| Ok (a : A)
| Panic (msg : string)
| Undefined.
Arguments Ok {A} a.
Arguments Panic {A} msg.
Arguments Undefined {A}.

(** The page size of [riscv.h]; the header of [kalloc.c] fixes it:
    "Allocates whole 4096-byte pages". *)
Definition PGSIZE : Z := 4096.

(** The content of one physical page, at the granularity [kalloc.c] writes
    it: [memset] fills a whole page with one byte, and [r->next = ...]
    stores a pointer into its first eight bytes. *)
Inductive page : Type :=
| Junk (b : Z)             (* every byte is [b] *)
| Run (next : Z) (b : Z).  (* a [struct run] on top of a page filled with [b] *)

(** [struct { lock; freelist; ref_counter[NUM_OF_PAGE]; ref_lock[...] } kmem],
    and the physical memory the free list lives in.  The spin locks carry
    no data. *)
Record kmem : Type := Kmem {
  freelist : Z;
  ref_counter : list Z;
  mem : gmap Z page
}.

Definition set_ref (s : kmem) (idx : Z) (c : Z) : kmem :=
  {| freelist := freelist s;
     ref_counter := <[Z.to_nat idx := c]> (ref_counter s);
     mem := mem s |}.

(** Eight equal bytes read as a little-endian [uint64]. *)
Definition splat64 (b : Z) : Z := b * 72340172838076673.

(** [r->next].  A page that was never written has no known content. *)
Definition load_next (m : gmap Z page) (r : Z) : option Z :=
  match m !! r with
  | Some (Run n _) => Some n
  | Some (Junk b) => Some (splat64 b)
  | None => None
  end.

(** The free list as the sequence of pages reached from [kmem.freelist]
    through the [next] fields, ending at the null pointer. *)
Inductive chain (m : gmap Z page) : Z -> list Z -> Prop :=
| chain_nil : chain m 0 []
| chain_cons p n b l :
    p <> 0 -> m !! p = Some (Run n b) -> chain m n l -> chain m p (p :: l).

Definition free_pages (s : kmem) (l : list Z) : Prop :=
  chain (mem s) (freelist s) l.

Definition in_freelist (s : kmem) (pa : Z) : Prop :=
  exists l, free_pages s l /\ pa ∈ l.

Section Layout.

(** [KERNBASE] and [PHYSTOP] come from [memlayout.h], [end] from the linker
    script; none of them is part of the sources at hand. *)
Variables KERNBASE PHYSTOP end_ : Z.

(** [#define NUM_OF_PAGE ((PHYSTOP - KERNBASE) / PGSIZE)] *)
Definition NUM_OF_PAGE : Z := (PHYSTOP - KERNBASE) / PGSIZE.

(** [#define PA2IDX(pa) (((uint64)pa - KERNBASE) / PGSIZE)] *)
Definition PA2IDX (pa : Z) : Z := wrap64 (pa - KERNBASE) / PGSIZE.

(** Modelled from the spec: the macro [PGROUNDUP] of [riscv.h] is missing;
    it rounds an address up to the next page boundary. *)
Definition PGROUNDUP (a : Z) : Z := (a + PGSIZE - 1) / PGSIZE * PGSIZE.

Definition ref_of (s : kmem) (pa : Z) : option Z :=
  ref_counter s !! Z.to_nat (PA2IDX pa).

(** [void kfree(void *pa)] *)
Definition kfree (s : kmem) (pa : Z) : outcome kmem :=
  if negb (pa mod PGSIZE =? 0) || (pa <? end_) || (pa >=? PHYSTOP)
  then Panic "kfree"
  else
    let r := pa in
    let idx := PA2IDX r in
    match ref_counter s !! Z.to_nat idx with
    | None => Undefined
    | Some c =>
        let s1 := set_ref s idx (wrap_int (c - 1)) in
        if wrap_int (c - 1) <=? 0 then
          (* memset(pa, 1, PGSIZE); r->next = kmem.freelist;
             kmem.freelist = r; kmem.ref_counter[idx] = 0; *)
          Ok {| freelist := r;
                ref_counter := <[Z.to_nat idx := 0]> (ref_counter s1);
                mem := <[r := Run (freelist s1) 1]> (mem s1) |}
        else Ok s1
    end.

(** [void *kalloc(void)]: the returned pointer (0 when there is no page)
    and the new state. *)
Definition kalloc (s : kmem) : outcome (Z * kmem) :=
  let r := freelist s in
  if r =? 0 then Ok (r, s)
  else
    match load_next (mem s) r with
    | None => Undefined
    | Some n =>
        let idx := PA2IDX r in
        match ref_counter s !! Z.to_nat idx with
        | None => Undefined
        | Some _ =>
            (* kmem.freelist = r->next; memset(r, 5, PGSIZE);
               kmem.ref_counter[idx] = 1; *)
            Ok (r, {| freelist := n;
                      ref_counter := <[Z.to_nat idx := 1]> (ref_counter s);
                      mem := <[r := Junk 5]> (mem s) |})
        end
    end.

(** [void increase_ref_counter(void *pa)] *)
Definition increase_ref_counter (s : kmem) (pa : Z) : outcome kmem :=
  let idx := PA2IDX pa in
  match ref_counter s !! Z.to_nat idx with
  | None => Undefined
  | Some c => Ok (set_ref s idx (wrap_int (c + 1)))
  end.

(** The loop of [freerange]:
    [for(; p + PGSIZE <= (char* )pa_end; p += PGSIZE) kfree(p);] *)
Equations freerange_loop (pa_end p : Z) (s : kmem) : outcome kmem
  by wf (Z.to_nat (pa_end - p)) lt :=
  freerange_loop pa_end p s with decide (p + PGSIZE <= pa_end) := {
    | left _ =>
        match kfree s p with
        | Ok s' => freerange_loop pa_end (p + PGSIZE) s'
        | Panic msg => Panic msg
        | Undefined => Undefined
        end
    | right _ => Ok s }.
Next Obligation. unfold PGSIZE in *. lia. Qed.

(** [void freerange(void *pa_start, void *pa_end)] *)
Definition freerange (pa_start pa_end : Z) (s : kmem) : outcome kmem :=
  freerange_loop pa_end (PGROUNDUP pa_start) s.

(** [kmem] as the loader leaves it: all of [.bss] is zero. *)
Definition kmem_bss : kmem :=
  {| freelist := 0;
     ref_counter := replicate (Z.to_nat NUM_OF_PAGE) 0;
     mem := ∅ |}.

(** [void kinit()]: [memset(kmem.ref_counter, 0, ...)], then
    [freerange(end, (void* )PHYSTOP)]. *)
Definition kinit : outcome kmem :=
  freerange end_ PHYSTOP
    {| freelist := freelist kmem_bss;
       ref_counter := replicate (length (ref_counter kmem_bss)) 0;
       mem := mem kmem_bss |}.

(** The addresses [kfree] accepts: page aligned, inside [end, PHYSTOP). *)
Definition managed (pa : Z) : Prop :=
  pa mod PGSIZE = 0 /\ end_ <= pa < PHYSTOP.

(** The invariant of section 3 of the specification, for one page. *)
Definition page_inv (s : kmem) : Prop :=
  forall pa c, managed pa -> ref_of s pa = Some c ->
    (c = 0 -> in_freelist s pa) /\ (0 < c -> ~ in_freelist s pa).

(** The invariant together with what makes it inductive: the free list is
    a null-terminated chain without repetition, it holds managed pages
    only, the counters are values of type [int], and every managed page
    has one. *)
Definition inv (s : kmem) : Prop :=
  exists l, free_pages s l /\ NoDup l /\ Forall managed l /\
    Forall is_int (ref_counter s) /\
    forall pa, managed pa ->
      exists c, ref_of s pa = Some c /\
        (c = 0 -> pa ∈ l) /\ (0 < c -> pa ∉ l).

(** The state of the loop of [freerange] when it is about to free [p]:
    the managed pages below [p] are on the free list, all counters are 0. *)
Definition seeded (p : Z) (s : kmem) : Prop :=
  exists l, free_pages s l /\ NoDup l /\
    (forall q, q ∈ l <-> managed q /\ q < p) /\
    ref_counter s = replicate (Z.to_nat NUM_OF_PAGE) 0.

(** [n] calls of [kalloc] in a row, with the pointers they return. *)
Fixpoint kalloc_n (n : nat) (s : kmem) : outcome (list Z * kmem) :=
  match n with
  | O => Ok ([], s)
  | S n' =>
      match kalloc s with
      | Ok (r, s1) =>
          match kalloc_n n' s1 with
          | Ok (rs, s2) => Ok (r :: rs, s2)
          | Panic msg => Panic msg
          | Undefined => Undefined
          end
      | Panic msg => Panic msg
      | Undefined => Undefined
      end
  end.

(** [n] calls of [kfree(pa)] in a row. *)
Fixpoint kfree_n (n : nat) (pa : Z) (s : kmem) : outcome kmem :=
  match n with
  | O => Ok s
  | S n' =>
      match kfree s pa with
      | Ok s1 => kfree_n n' pa s1
      | Panic msg => Panic msg
      | Undefined => Undefined
      end
  end.

(** The [n] pages from [p] on, by rising address. *)
Fixpoint pages_from (p : Z) (n : nat) : list Z :=
  match n with
  | O => []
  | S n' => p :: pages_from (p + PGSIZE) n'
  end.

(** The number of whole pages between [PGROUNDUP(end)] and [PHYSTOP]. *)
Definition initial_pages : nat :=
  Z.to_nat ((PHYSTOP - PGROUNDUP end_) / PGSIZE).

End Layout.

(** A small machine for examples: eight pages of RAM at the usual
    [KERNBASE], the kernel image ending inside the sixth page, which leaves
    two pages to manage. *)
Definition small_KERNBASE : Z := 2147483648.
Definition small_PHYSTOP : Z := small_KERNBASE + 8 * PGSIZE.
Definition small_end : Z := small_KERNBASE + 5 * PGSIZE + 16.

Definition small_page6 : Z := small_KERNBASE + 6 * PGSIZE.
Definition small_page7 : Z := small_KERNBASE + 7 * PGSIZE.

(** The state a returned outcome carries, for examples. *)
Definition state_of (o : outcome kmem) : kmem :=
  match o with
  | Ok s => s
  | _ => {| freelist := 0; ref_counter := []; mem := ∅ |}
  end.

Definition state_of_alloc (o : outcome (Z * kmem)) : kmem :=
  match o with
  | Ok (_, s) => s
  | _ => {| freelist := 0; ref_counter := []; mem := ∅ |}
  end.

(** The small machine after [kinit], and after one [kalloc]. *)
Definition small_boot : kmem :=
  state_of (kinit small_KERNBASE small_PHYSTOP small_end).

Definition small_one_allocated : kmem :=
  state_of_alloc (kalloc small_KERNBASE small_boot).

(** ... and after a second [kalloc], which takes the last page. *)
Definition small_exhausted : kmem :=
  state_of_alloc (kalloc small_KERNBASE small_one_allocated).

(** The small machine after [kinit] and a [kfree] of the page at the head
    of the free list. *)
Definition small_freed_twice : kmem :=
  state_of (kfree small_KERNBASE small_PHYSTOP small_end small_boot
              small_page7).

End Kalloc.

(** * The buffer cache, [kernel/bio.c] *)

Module Bio.

(** [#define NUM_BUCKET 13] *)
Definition NUM_BUCKET : nat := 13.

(** [uint hash_val(uint key)] *)
Definition hash_val (key : Z) : Z := key mod Z.of_nat NUM_BUCKET.

(** A [struct buf *]: the null pointer, [&bcache.head[i]] or
    [&bcache.buf[j]]. *)
Inductive ptr : Type :=
| Null
| Head (i : nat)
| Buf (j : nat).

#[global] Instance ptr_eq_dec : EqDecision ptr.
Proof. solve_decision. Defined.

(** Modelled from the spec: [struct sleeplock] and its functions live in
    [sleeplock.c], which is missing; the spec calls it the buffer's
    exclusive lock, a blocking mutual-exclusion lock held by exactly one
    caller.  The lock records whether it is held and the process holding
    it. *)
Record sleeplock : Type := Sleeplock {
  locked : bool;
  pid : Z
}.

(** [struct buf], with the fields [bio.c] uses.  [refcnt] and
    [lru_timestamp] are [uint]. *)
Record buf : Type := Mkbuf {
  valid : Z;
  dev : Z;
  blockno : Z;
  lock : sleeplock;
  refcnt : Z;
  prev : ptr;
  next : ptr;
  lru_timestamp : Z
}.

(** A [struct buf] in [.bss]. *)
Definition zero_buf : buf :=
  {| valid := 0; dev := 0; blockno := 0;
     lock := {| locked := false; pid := 0 |};
     refcnt := 0; prev := Null; next := Null; lru_timestamp := 0 |}.

(** The spin locks of [bcache]. *)
Inductive spinlock : Type :=
| bcache_lock
| hash_lock (i : nat).

#[global] Instance spinlock_eq_dec : EqDecision spinlock.
Proof. solve_decision. Defined.

(** What a run of the code does that is visible outside [bcache]. *)
Inductive event : Type :=
| Acquire (l : spinlock)
| Release (l : spinlock)
| AcquireSleep (b : ptr)
| ReleaseSleep (b : ptr)
| DiskRead (b : ptr)
| DiskWrite (b : ptr).

#[global] Instance event_eq_dec : EqDecision event.
Proof. solve_decision. Defined.

(** [struct { lock; buf[NBUF]; head[NUM_BUCKET]; hash_lock[NUM_BUCKET] } bcache]
    and the events so far, oldest first. *)
Record bcache : Type := Bcache {
  bcache_buf : list buf;
  bcache_head : list buf;
  trace : list event
}.

(** How a call ends: it returns; it panics; the process goes to sleep in
    [acquiresleep] waiting for a buffer; it dereferences a pointer that
    points nowhere; or a list walk never comes back to its head. *)
Inductive outcome (A : Type) : Type :=
| Ret (a : A) (s : bcache)
| Panic (msg : string) (s : bcache)
| Sleeping (b : ptr) (s : bcache)
| Fault
| Diverge.
Arguments Ret {A} a s.
Arguments Panic {A} msg s.
Arguments Sleeping {A} b s.
Arguments Fault {A}.
Arguments Diverge {A}.

(** Code that reads and writes [bcache]. *)
Definition M (A : Type) : Type := bcache -> outcome A.

Definition ret {A} (a : A) : M A := fun s => Ret a s.

Definition bind {A B} (m : M A) (k : A -> M B) : M B :=
  fun s =>
    match m s with
    | Ret a s' => k a s'
    | Panic msg s' => Panic msg s'
    | Sleeping b s' => Sleeping b s'
    | Fault => Fault
    | Diverge => Diverge
    end.

Notation "x <- m ;; k" := (bind m (fun x => k))
  (at level 100, m at next level, right associativity).
Notation "m ;; k" := (bind m (fun _ => k))
  (at level 100, right associativity).

Definition panic {A} (msg : string) : M A := fun s => Panic msg s.

Definition emit (e : event) : M unit :=
  fun s => Ret tt {| bcache_buf := bcache_buf s;
                     bcache_head := bcache_head s;
                     trace := trace s ++ [e] |}.

(** ** Memory *)

Definition deref (s : bcache) (p : ptr) : option buf :=
  match p with
  | Null => None
  | Head i => bcache_head s !! i
  | Buf j => bcache_buf s !! j
  end.

Definition update (s : bcache) (p : ptr) (b : buf) : bcache :=
  match p with
  | Null => s
  | Head i => {| bcache_buf := bcache_buf s;
                 bcache_head := <[i := b]> (bcache_head s);
                 trace := trace s |}
  | Buf j => {| bcache_buf := <[j := b]> (bcache_buf s);
                bcache_head := bcache_head s;
                trace := trace s |}
  end.

(** [*p] *)
Definition load (p : ptr) : M buf :=
  fun s => match deref s p with Some b => Ret b s | None => Fault end.

(** [*p = f( *p)] *)
Definition modify (p : ptr) (f : buf -> buf) : M unit :=
  fun s => match deref s p with
           | Some b => Ret tt (update s p (f b))
           | None => Fault
           end.

Definition with_valid (v : Z) (b : buf) : buf :=
  {| valid := v; dev := dev b; blockno := blockno b; lock := lock b;
     refcnt := refcnt b; prev := prev b; next := next b;
     lru_timestamp := lru_timestamp b |}.
Definition with_dev (v : Z) (b : buf) : buf :=
  {| valid := valid b; dev := v; blockno := blockno b; lock := lock b;
     refcnt := refcnt b; prev := prev b; next := next b;
     lru_timestamp := lru_timestamp b |}.
Definition with_blockno (v : Z) (b : buf) : buf :=
  {| valid := valid b; dev := dev b; blockno := v; lock := lock b;
     refcnt := refcnt b; prev := prev b; next := next b;
     lru_timestamp := lru_timestamp b |}.
Definition with_lock (v : sleeplock) (b : buf) : buf :=
  {| valid := valid b; dev := dev b; blockno := blockno b; lock := v;
     refcnt := refcnt b; prev := prev b; next := next b;
     lru_timestamp := lru_timestamp b |}.
Definition with_refcnt (v : Z) (b : buf) : buf :=
  {| valid := valid b; dev := dev b; blockno := blockno b; lock := lock b;
     refcnt := v; prev := prev b; next := next b;
     lru_timestamp := lru_timestamp b |}.
Definition with_prev (v : ptr) (b : buf) : buf :=
  {| valid := valid b; dev := dev b; blockno := blockno b; lock := lock b;
     refcnt := refcnt b; prev := v; next := next b;
     lru_timestamp := lru_timestamp b |}.
Definition with_next (v : ptr) (b : buf) : buf :=
  {| valid := valid b; dev := dev b; blockno := blockno b; lock := lock b;
     refcnt := refcnt b; prev := prev b; next := v;
     lru_timestamp := lru_timestamp b |}.
Definition with_lru_timestamp (v : Z) (b : buf) : buf :=
  {| valid := valid b; dev := dev b; blockno := blockno b; lock := lock b;
     refcnt := refcnt b; prev := prev b; next := next b;
     lru_timestamp := v |}.

(** ** Locks and the disk *)

(** Modelled from the spec: [acquire] and [release] of [spinlock.c],
    which is missing.  The structural locks of the cache are short-held
    mutual-exclusion locks; the run of one process records when it takes
    and drops them. *)
Definition acquire (l : spinlock) : M unit := emit (Acquire l).
Definition release (l : spinlock) : M unit := emit (Release l).

(** Modelled from the spec: [initsleeplock], [acquiresleep],
    [releasesleep] and [holdingsleep] of the missing [sleeplock.c].
    [me] is the calling process.  Acquiring a lock somebody holds puts the
    caller to sleep; it is the caller that holds the lock afterwards. *)
Definition initsleeplock (p : ptr) : M unit :=
  modify p (with_lock {| locked := false; pid := 0 |}).

Definition acquiresleep (me : Z) (p : ptr) : M unit :=
  b <- load p ;;
  if locked (lock b) then (fun s => Sleeping p s)
  else modify p (with_lock {| locked := true; pid := me |}) ;;
       emit (AcquireSleep p).

Definition releasesleep (p : ptr) : M unit :=
  modify p (with_lock {| locked := false; pid := 0 |}) ;;
  emit (ReleaseSleep p).

Definition holding (me : Z) (lk : sleeplock) : bool :=
  locked lk && (pid lk =? me).

Definition holdingsleep (me : Z) (p : ptr) : M bool :=
  b <- load p ;; ret (holding me (lock b)).

(** Modelled from the spec: [virtio_disk_rw(b, write)], the block I/O
    service, synchronous and infallible.  The content of the block is not
    tracked, the transfer is. *)
Definition virtio_disk_rw (b : ptr) (write : bool) : M unit :=
  emit (if write then DiskWrite b else DiskRead b).

(** ** Walking a bucket *)

(** More steps than a walk that comes back to its head can take: such a
    walk never visits a node twice. *)
Definition walk_bound (s : bcache) : nat :=
  S (length (bcache_buf s) + length (bcache_head s)).

(** [for(b = b0; b != hd; b = b->next)
       if(b->dev == dev && b->blockno == blockno) return b;] *)
Fixpoint find_cached (fuel : nat) (hd b : ptr) (d bn : Z) : M (option ptr) :=
  match fuel with
  | O => fun _ => Diverge
  | S fuel' =>
      if decide (b = hd) then ret None
      else
        bf <- load b ;;
        if (dev bf =? d) && (blockno bf =? bn) then ret (Some b)
        else find_cached fuel' hd (next bf) d bn
  end.

(** [for(b = b0; b != hd; b = b->prev) if(b->refcnt == 0) return b;] *)
Fixpoint find_unused (fuel : nat) (hd b : ptr) : M (option ptr) :=
  match fuel with
  | O => fun _ => Diverge
  | S fuel' =>
      if decide (b = hd) then ret None
      else
        bf <- load b ;;
        if refcnt bf =? 0 then ret (Some b)
        else find_unused fuel' hd (prev bf)
  end.

(** [bcache.head[i].next], [bcache.head[i].prev] *)
Definition head_next (i : nat) : M ptr := h <- load (Head i) ;; ret (next h).
Definition head_prev (i : nat) : M ptr := h <- load (Head i) ;; ret (prev h).

Definition bound : M nat := fun s => Ret (walk_bound s) s.

(** ** [bget] *)

(** The body of a cache hit: [b->refcnt++; b->lru_timestamp = ticks;] *)
Definition hit (ticks : Z) (b : ptr) : M unit :=
  modify b (fun bf => with_refcnt (wrap32 (refcnt bf + 1)) bf) ;;
  modify b (with_lru_timestamp ticks).

(** Lines 122-123: take [b] out of its list. *)
Definition unlink (b : ptr) : M unit :=
  (* b->prev->next = b->next; *)
  bf <- load b ;; modify (prev bf) (with_next (next bf)) ;;
  (* b->next->prev = b->prev; *)
  bf <- load b ;; modify (next bf) (with_prev (prev bf)).

(** Lines 124-127, and again lines 187-190: link [b] right behind
    [head[hash_idx]], the most recently used position. *)
Definition link_mru (hash_idx : nat) (b : ptr) : M unit :=
  (* b->next = bcache.head[hash_idx].next; *)
  n <- head_next hash_idx ;; modify b (with_next n) ;;
  (* b->prev = &bcache.head[hash_idx]; *)
  modify b (with_prev (Head hash_idx)) ;;
  (* bcache.head[hash_idx].next->prev = b; *)
  n <- head_next hash_idx ;; modify n (with_prev b) ;;
  (* bcache.head[hash_idx].next = b; *)
  modify (Head hash_idx) (with_next b).

(** Lines 122-132: move [b] to the bucket [hash_idx] and give it the new
    identity. *)
Definition recycle (hash_idx : nat) (d bn : Z) (b : ptr) : M unit :=
  unlink b ;;
  link_mru hash_idx b ;;
  modify b (with_dev d) ;;
  modify b (with_blockno bn) ;;
  modify b (with_valid 0) ;;
  modify b (with_refcnt 1).

(** The loop of lines 117-142 over the buckets [bs]; [None] when it runs
    to its end. *)
Fixpoint steal (bs : list nat) (hash_idx : nat) (d bn : Z) : M (option ptr) :=
  match bs with
  | [] => ret None
  | i :: bs' =>
      if decide (i = hash_idx) then steal bs' hash_idx d bn
      else
        acquire (hash_lock i) ;;
        fuel <- bound ;;
        b0 <- head_prev i ;;
        r <- find_unused fuel (Head i) b0 ;;
        match r with
        | Some b =>
            recycle hash_idx d bn b ;;
            release (hash_lock hash_idx) ;;
            release (hash_lock i) ;;
            release bcache_lock ;;
            ret (Some b)
        | None =>
            release (hash_lock i) ;;
            steal bs' hash_idx d bn
        end
  end.

(** Lines 81-93: the look-up under the lock of the bucket alone.  [Some b]
    is a hit, on the way to [acquiresleep(&b->lock)]. *)
Definition bget_cached (ticks d bn : Z) : M (option ptr) :=
  let hash_idx := Z.to_nat (hash_val bn) in
  acquire (hash_lock hash_idx) ;;
  fuel <- bound ;;
  b0 <- head_next hash_idx ;;
  r <- find_cached fuel (Head hash_idx) b0 d bn ;;
  match r with
  | Some b =>
      hit ticks b ;;
      release (hash_lock hash_idx) ;;
      ret (Some b)
  | None =>
      release (hash_lock hash_idx) ;;
      ret None
  end.

(** Lines 97-144: the second look-up and the eviction, under
    [bcache.lock]. *)
Definition bget_recycle (ticks d bn : Z) : M ptr :=
  let hash_idx := Z.to_nat (hash_val bn) in
  acquire bcache_lock ;;
  acquire (hash_lock hash_idx) ;;
  fuel <- bound ;;
  b0 <- head_next hash_idx ;;
  r <- find_cached fuel (Head hash_idx) b0 d bn ;;
  match r with
  | Some b =>
      hit ticks b ;;
      release (hash_lock hash_idx) ;;
      release bcache_lock ;;
      ret b
  | None =>
      r <- steal (seq 0 NUM_BUCKET) hash_idx d bn ;;
      match r with
      | Some b => ret b
      | None => panic "bget: no buffers"
      end
  end.

(** [static struct buf* bget(uint dev, uint blockno)].  Every path that
    returns ends in [acquiresleep(&b->lock); return b;]. *)
Definition bget (me ticks d bn : Z) : M ptr :=
  r <- bget_cached ticks d bn ;;
  b <- match r with
       | Some b => ret b
       | None => bget_recycle ticks d bn
       end ;;
  acquiresleep me b ;;
  ret b.

(** The rest of [bread] once [bget] has returned [b]. *)
Definition bread_fill (b : ptr) : M ptr :=
  bf <- load b ;;
  if valid bf =? 0 then
    virtio_disk_rw b false ;;
    modify b (with_valid 1) ;;
    ret b
  else ret b.

(** [struct buf* bread(uint dev, uint blockno)] *)
Definition bread (me ticks d bn : Z) : M ptr :=
  b <- bget me ticks d bn ;;
  bread_fill b.

(** [void bwrite(struct buf *b)] *)
Definition bwrite (me : Z) (b : ptr) : M unit :=
  h <- holdingsleep me b ;;
  if negb h then panic "bwrite"
  else virtio_disk_rw b true.

(** Lines 185-186: take [b] out of its list, the other pointer first. *)
Definition unlink_brelse (b : ptr) : M unit :=
  (* b->next->prev = b->prev; *)
  bf <- load b ;; modify (next bf) (with_prev (prev bf)) ;;
  (* b->prev->next = b->next; *)
  bf <- load b ;; modify (prev bf) (with_next (next bf)).

(** Lines 185-190: move [b] right behind [head[hash_idx]]. *)
Definition move_to_front (hash_idx : nat) (b : ptr) : M unit :=
  unlink_brelse b ;;
  link_mru hash_idx b.

(** [void brelse(struct buf *b)] *)
Definition brelse (me : Z) (b : ptr) : M unit :=
  h <- holdingsleep me b ;;
  if negb h then panic "brelse"
  else
    releasesleep b ;;
    bf <- load b ;;
    let hash_idx := Z.to_nat (hash_val (blockno bf)) in
    acquire (hash_lock hash_idx) ;;
    modify b (fun bf => with_refcnt (wrap32 (refcnt bf - 1)) bf) ;;
    bf <- load b ;;
    (if refcnt bf =? 0 then move_to_front hash_idx b else ret tt) ;;
    release (hash_lock hash_idx).

(** [void bpin(struct buf *b)] *)
Definition bpin (ticks : Z) (b : ptr) : M unit :=
  bf <- load b ;;
  let hash_idx := Z.to_nat (hash_val (blockno bf)) in
  acquire (hash_lock hash_idx) ;;
  modify b (fun bf => with_refcnt (wrap32 (refcnt bf + 1)) bf) ;;
  modify b (with_lru_timestamp ticks) ;;
  release (hash_lock hash_idx).

(** [void bunpin(struct buf *b)] *)
Definition bunpin (b : ptr) : M unit :=
  bf <- load b ;;
  let hash_idx := Z.to_nat (hash_val (blockno bf)) in
  acquire (hash_lock hash_idx) ;;
  modify b (fun bf => with_refcnt (wrap32 (refcnt bf - 1)) bf) ;;
  release (hash_lock hash_idx).

(** ** [binit] *)

(** The first loop of [binit]. *)
Fixpoint binit_heads (bs : list nat) : M unit :=
  match bs with
  | [] => ret tt
  | i :: bs' =>
      (* initlock(&bcache.hash_lock[i], ...) has no effect on the data *)
      modify (Head i) (with_prev (Head i)) ;;
      modify (Head i) (with_next (Head i)) ;;
      binit_heads bs'
  end.

(** The second loop of [binit], over the buffers [js], with the running
    bucket index [i]. *)
Fixpoint binit_bufs (js : list nat) (i : nat) (ticks : Z) : M unit :=
  match js with
  | [] => ret tt
  | j :: js' =>
      let b := Buf j in
      n <- head_next i ;; modify b (with_next n) ;;
      modify b (with_prev (Head i)) ;;
      initsleeplock b ;;
      n <- head_next i ;; modify n (with_prev b) ;;
      modify (Head i) (with_next b) ;;
      modify b (with_lru_timestamp ticks) ;;
      binit_bufs js' ((i + 1) mod NUM_BUCKET)%nat ticks
  end.

Section Params.

(** [NBUF] comes from [param.h], which is missing. *)
Variable NBUF : nat.

(** [bcache] in [.bss]. *)
Definition bcache_bss : bcache :=
  {| bcache_buf := replicate NBUF zero_buf;
     bcache_head := replicate NUM_BUCKET zero_buf;
     trace := [] |}.

(** [void binit(void)] *)
Definition binit (ticks : Z) : M unit :=
  binit_heads (seq 0 NUM_BUCKET) ;;
  binit_bufs (seq 0 NBUF) 0 ticks.

End Params.

(** ** The buckets as lists *)

Definition next_of (s : bcache) (p : ptr) : option ptr := next <$> deref s p.
Definition prev_of (s : bcache) (p : ptr) : option ptr := prev <$> deref s p.

(** A buffer without its links. *)
Definition payload (b : buf) : buf := with_prev Null (with_next Null b).
Definition payload_of (s : bcache) (p : ptr) : option buf :=
  payload <$> deref s p.

(** [chain_next nx p l q]: following [next] from [p] goes through the
    buffers [l] and then reaches [q]. *)
Fixpoint chain_next (nx : ptr -> option ptr) (p : ptr) (l : list nat)
    (q : ptr) : Prop :=
  match l with
  | [] => nx p = Some q
  | j :: l' => nx p = Some (Buf j) /\ chain_next nx (Buf j) l' q
  end.

(** [chain_prev pv p l q]: following [prev] from [q] goes through the
    buffers [l] backwards and then reaches [p]. *)
Fixpoint chain_prev (pv : ptr -> option ptr) (p : ptr) (l : list nat)
    (q : ptr) : Prop :=
  match l with
  | [] => pv q = Some p
  | j :: l' => pv (Buf j) = Some p /\ chain_prev pv (Buf j) l' q
  end.

(** Pointer maps with one entry overwritten. *)
Definition upd (f : ptr -> option ptr) (p v : ptr) : ptr -> option ptr :=
  fun x => if decide (x = p) then Some v else f x.

(** The first node of the list [l] that ends at [q], and the last node
    of the list [l] that starts at [p]. *)
Definition hdp (l : list nat) (q : ptr) : ptr :=
  match l with
  | [] => q
  | j :: _ => Buf j
  end.

Definition lastp (p : ptr) (l : list nat) : ptr :=
  match last l with
  | Some j => Buf j
  | None => p
  end.

(** The circular list of [head[i]] holds the buffers [l], most recently
    used first. *)
Definition ring (nx pv : ptr -> option ptr) (i : nat) (l : list nat) : Prop :=
  chain_next nx (Head i) l (Head i) /\ chain_prev pv (Head i) l (Head i).

Definition bucket (s : bcache) (i : nat) (l : list nat) : Prop :=
  ring (next_of s) (prev_of s) i l.

(** No buffer is twice in a bucket or in two buckets. *)
Definition disjoint_buckets (bk : list (list nat)) : Prop :=
  (forall i l, bk !! i = Some l -> NoDup l) /\
  (forall i k li lk j, bk !! i = Some li -> bk !! k = Some lk ->
     j ∈ li -> j ∈ lk -> i = k).

Definition rings (nx pv : ptr -> option ptr) (bk : list (list nat)) : Prop :=
  length bk = NUM_BUCKET /\
  forall i l, bk !! i = Some l -> ring nx pv i l.

(** [rep s bk]: the thirteen lists of [bcache] are the lists [bk]. *)
Definition rep (s : bcache) (bk : list (list nat)) : Prop :=
  rings (next_of s) (prev_of s) bk /\ disjoint_buckets bk.

(** The state with more events logged. *)
Definition log (s : bcache) (evs : list event) : bcache :=
  {| bcache_buf := bcache_buf s;
     bcache_head := bcache_head s;
     trace := trace s ++ evs |}.

(** What lines 129-132 make of a buffer, and what a hit makes of it. *)
Definition recycled (d bn : Z) (b : buf) : buf :=
  with_refcnt 1 (with_valid 0 (with_blockno bn (with_dev d b))).

Definition hit_buf (ticks : Z) (b : buf) : buf :=
  with_lru_timestamp ticks (with_refcnt (wrap32 (refcnt b + 1)) b).

(** What [brelse] makes of a buffer: the sleep lock free, one reference
    less. *)
Definition released (b : buf) : buf :=
  with_refcnt (wrap32 (refcnt b - 1))
    (with_lock {| locked := false; pid := 0 |} b).

(** What the second part of [brelse] makes of it: one reference less. *)
Definition dropped (b : buf) : buf :=
  with_refcnt (wrap32 (refcnt b - 1)) b.

(** Buffer [j] holds block [(d, bn)]. *)
Definition holds_block (s : bcache) (d bn : Z) (j : nat) : bool :=
  match bcache_buf s !! j with
  | Some b => (dev b =? d) && (blockno b =? bn)
  | None => false
  end.

(** Buffer [j] has no holder. *)
Definition unused (s : bcache) (j : nat) : bool :=
  match bcache_buf s !! j with
  | Some b => refcnt b =? 0
  | None => false
  end.

(** The buffers in the order in which the loop of lines 117-142 meets
    them: the buckets by rising index without the bucket [hash_idx], each
    from its least recently used end. *)
Definition scan_order (bk : list (list nat)) (bs : list nat) (hash_idx : nat)
    : list nat :=
  flat_map (fun i => if decide (i = hash_idx) then []
                     else rev (default [] (bk !! i))) bs.

(** The locks a scan takes and drops on buckets it finds nothing in. *)
Definition visits (bs : list nat) (hash_idx : nat) : list event :=
  flat_map (fun i => if decide (i = hash_idx) then []
                     else [Acquire (hash_lock i); Release (hash_lock i)]) bs.

(** The spin locks held, latest first, after one more event. *)
Definition held_step (acc : list spinlock) (e : event) : list spinlock :=
  match e with
  | Acquire l => l :: acc
  | Release l => filter (fun l' => l' <> l) acc
  | _ => acc
  end.

(** The spin locks held after a trace that starts with the locks [acc]
    held. *)
Definition held_from (acc : list spinlock) (tr : list event) : list spinlock :=
  fold_left held_step tr acc.

Definition held (tr : list event) : list spinlock := held_from [] tr.

(** A bucket lock other than the lock of bucket [hash_idx]. *)
Definition donor_lock (hash_idx : nat) (l : spinlock) : Prop :=
  match l with
  | bcache_lock => False
  | hash_lock i => i <> hash_idx
  end.

#[global] Instance donor_lock_dec hash_idx l : Decision (donor_lock hash_idx l).
Proof. destruct l; simpl; apply _. Defined.

Definition donors (hash_idx : nat) (acc : list spinlock) : list spinlock :=
  filter (donor_lock hash_idx) acc.

(** At no point of the trace are two donor locks held. *)
Definition one_donor_from (hash_idx : nat) (acc : list spinlock)
    (tr : list event) : Prop :=
  forall pre, pre `prefix_of` tr ->
    (length (donors hash_idx (held_from acc pre)) <= 1)%nat.

Definition one_donor_at_a_time (hash_idx : nat) (tr : list event) : Prop :=
  one_donor_from hash_idx [] tr.

(** The lists given one by one, for a cache at hand. *)
Fixpoint buckets_from (s : bcache) (i : nat) (bk : list (list nat)) : Prop :=
  match bk with
  | [] => True
  | l :: bk' => bucket s i l /\ buckets_from s (S i) bk'
  end.

(** ** Example runs *)

(** The state an outcome carries. *)
Definition state_of {A} (o : outcome A) : bcache :=
  match o with
  | Ret _ s | Panic _ s | Sleeping _ s => s
  | Fault | Diverge => bcache_bss 0
  end.

(** [b = bread(dev, blockno); brelse(b);] *)
Definition read_release (me ticks d bn : Z) : M unit :=
  b <- bread me ticks d bn ;; brelse me b.

(** A cache of thirty buffers, the number xv6 configures, after [binit]
    at tick 7: buffer [j] is in bucket [j mod 13]. *)
Definition boot : bcache := state_of (binit 30 7 (bcache_bss 30)).

Definition boot_buckets : list (list nat) :=
  ([[26; 13; 0]; [27; 14; 1]; [28; 15; 2]; [29; 16; 3]; [17; 4]; [18; 5];
   [19; 6]; [20; 7]; [21; 8]; [22; 9]; [23; 10]; [24; 11]; [25; 12]])%nat.

(** Process 1 has read block 1 of device 1 at tick 100 and holds the
    buffer. *)
Definition boot_read : bcache := state_of (bread 1 100 1 1 boot).

(** Buffer 0 in that state. *)
Definition boot_read_buf0 : buf :=
  {| valid := 1; dev := 1; blockno := 1;
     lock := {| locked := true; pid := 1 |};
     refcnt := 1; prev := Head 1; next := Buf 27; lru_timestamp := 7 |}.

Definition boot_read_buckets : list (list nat) :=
  ([[26; 13]; [0; 27; 14; 1]; [28; 15; 2]; [29; 16; 3]; [17; 4]; [18; 5];
   [19; 6]; [20; 7]; [21; 8]; [22; 9]; [23; 10]; [24; 11]; [25; 12]])%nat.

(** Process 1 reads and releases [n] blocks of device 1 that all hash to
    bucket 1: the blocks [1 + 13 k] for [k], [k + 1], ... *)
Fixpoint sweep (n : nat) (k : Z) : M unit :=
  match n with
  | O => ret tt
  | S n' => read_release 1 (100 + k) 1 (1 + 13 * k) ;; sweep n' (k + 1)
  end.

(** After twenty-seven such blocks every buffer of the cache is in
    bucket 1, and none is in use. *)
Definition crowded : bcache := state_of (sweep 27 0 boot).

Definition crowded_buckets : list (list nat) :=
  ([[]; [25; 12; 24; 11; 23; 10; 22; 9; 21; 8; 20; 7; 19; 6; 18; 5; 17; 4;
        29; 16; 3; 28; 15; 2; 26; 13; 0; 27; 14; 1];
   []; []; []; []; []; []; []; []; []; []; []])%nat.


(** ** Processes that read the same block side by side *)

(** [brelse] in its two parts: lines 175-178, which end with the sleep
    lock free, and lines 180-192, under the lock of the bucket. *)
Definition brelse_unlock (me : Z) (b : ptr) : M unit :=
  h <- holdingsleep me b ;;
  if negb h then panic "brelse" else releasesleep b.

Definition brelse_put (b : ptr) : M unit :=
  bf <- load b ;;
  let hash_idx := Z.to_nat (hash_val (blockno bf)) in
  acquire (hash_lock hash_idx) ;;
  modify b (fun bf => with_refcnt (wrap32 (refcnt bf - 1)) bf) ;;
  bf <- load b ;;
  (if refcnt bf =? 0 then move_to_front hash_idx b else ret tt) ;;
  release (hash_lock hash_idx).

(** Where a process is in [b = bread(dev, blockno); brelse(b);].  The
    points are those at which the process holds no spin lock, so that
    another process can run in between. *)
Inductive pc : Type :=
| Start              (* about to call [bread] *)
| Missed             (* line 95: the first look-up found nothing *)
| Wait (b : ptr)     (* in [bget], about to [acquiresleep(&b->lock)] *)
| Locked (b : ptr)   (* line 154: [bget] has returned [b] *)
| Holding (b : ptr)  (* [bread] has returned [b] *)
| Unlocked (b : ptr) (* line 180: [brelse] has let go of the sleep lock *)
| Done               (* [brelse] has returned *)
| Crashed.           (* panic, or a pointer that points nowhere *)

#[global] Instance pc_eq_dec : EqDecision pc.
Proof. solve_decision. Defined.

(** The cache and the processes. *)
Record system : Type := System {
  cache : bcache;
  procs : list pc
}.

(** The process in slot [t]. *)
Definition pid_of (t : nat) : Z := Z.of_nat t + 1.

Definition advance (t : nat) (p : pc) (s : bcache) (m : system) : system :=
  {| cache := s; procs := <[t := p]> (procs m) |}.

(** Process [t] runs to its next point; [ticks] is the clock while it
    does.  Each piece is one critical section of the code: the two
    look-ups of [bget] and the second part of [brelse] run under the lock
    of the bucket of the block from their first to their last access to
    the cache, [acquiresleep] and the first part of [brelse] under the
    spin lock of the sleep lock, and lines 154-157 of [bread] under the
    sleep lock, which alone lets a process touch [valid] and [data].  A
    process that finds the sleep lock taken sleeps, and tries again when
    it runs next. *)
Definition step (d bn : Z) (m : system) (e : nat * Z) : system :=
  let '(t, ticks) := e in
  match procs m !! t with
  | Some Start =>
      match bget_cached ticks d bn (cache m) with
      | Ret (Some b) s => advance t (Wait b) s m
      | Ret None s => advance t Missed s m
      | _ => advance t Crashed (cache m) m
      end
  | Some Missed =>
      match bget_recycle ticks d bn (cache m) with
      | Ret b s => advance t (Wait b) s m
      | _ => advance t Crashed (cache m) m
      end
  | Some (Wait b) =>
      match acquiresleep (pid_of t) b (cache m) with
      | Ret _ s => advance t (Locked b) s m
      | Sleeping _ _ => m
      | _ => advance t Crashed (cache m) m
      end
  | Some (Locked b) =>
      match bread_fill b (cache m) with
      | Ret _ s => advance t (Holding b) s m
      | _ => advance t Crashed (cache m) m
      end
  | Some (Holding b) =>
      match brelse_unlock (pid_of t) b (cache m) with
      | Ret _ s => advance t (Unlocked b) s m
      | _ => advance t Crashed (cache m) m
      end
  | Some (Unlocked b) =>
      match brelse_put b (cache m) with
      | Ret _ s => advance t Done s m
      | _ => advance t Crashed (cache m) m
      end
  | Some Done | Some Crashed | None => m
  end.

(** A schedule says which process runs next, and at what time. *)
Definition run (d bn : Z) (sched : list (nat * Z)) (m : system) : system :=
  fold_left (step d bn) sched m.

(** The number of disk reads in a trace. *)
Fixpoint disk_reads (tr : list event) : nat :=
  match tr with
  | [] => 0
  | DiskRead _ :: tr' => S (disk_reads tr')
  | _ :: tr' => disk_reads tr'
  end.

(** The number of processes at a point of the kind [f]. *)
Fixpoint count (f : pc -> bool) (l : list pc) : nat :=
  match l with
  | [] => 0
  | p :: l' => (if f p then 1 else 0) + count f l'
  end.

Definition in_bget (p : pc) : bool :=
  match p with Start | Missed => true | _ => false end.

(** The process is counted in [refcnt]. *)
Definition refs (p : pc) : bool :=
  match p with
  | Wait _ | Locked _ | Holding _ | Unlocked _ => true
  | _ => false
  end.

(** The process holds the sleep lock. *)
Definition owns (p : pc) : bool :=
  match p with Locked _ | Holding _ => true | _ => false end.

(** [bread] has returned to the process. *)
Definition past_read (p : pc) : bool :=
  match p with Holding _ | Unlocked _ | Done => true | _ => false end.

(** The process has got no buffer other than [b]. *)
Definition on_buffer (b : ptr) (p : pc) : Prop :=
  match p with
  | Start | Missed | Done => True
  | Wait b' | Locked b' | Holding b' | Unlocked b' => b' = b
  | Crashed => False
  end.

(** Buffer 0 after [binit]. *)
Definition boot_buf0 : buf :=
  {| valid := 0; dev := 0; blockno := 0;
     lock := {| locked := false; pid := 0 |};
     refcnt := 0; prev := Buf 13; next := Head 0; lru_timestamp := 7 |}.

(** Two processes read the same block: both miss on their first look-up
    before either gets to its second, and the second process waits for
    the sleep lock while the first reads the disk. *)
Definition two_readers : list (nat * Z) :=
  map (fun e : Z * Z => (Z.to_nat e.1, e.2))
    [(0, 100); (1, 101); (1, 102); (0, 103); (0, 104); (1, 105); (1, 106);
     (0, 107); (0, 108); (1, 109); (0, 110); (1, 111); (1, 112); (1, 113);
     (1, 114)].

(** How far a process has got. *)
Definition rank (p : pc) : nat :=
  match p with
  | Start => 0
  | Missed => 1
  | Wait _ => 2
  | Locked _ => 3
  | Holding _ => 4
  | Unlocked _ => 5
  | Done | Crashed => 6
  end.

(** The schedule that runs the processes one after the other, each from
    its call of [bread] to its return from [brelse]. *)
Definition one_by_one (n : nat) (ticks : Z) : list (nat * Z) :=
  flat_map (fun t => replicate 6 (t, ticks)) (seq 0 n).

(** The system once the block is in the cache, in buffer [j]. *)
Record settled (s0 s : bcache) (d bn : Z) (j : nat) (ps : list pc)
    (bk : list (list nat)) (lh : list nat) (pb : buf) : Prop := {
  st_rep : rep s bk;
  st_bucket : bk !! Z.to_nat (hash_val bn) = Some lh;
  st_found : find (holds_block s d bn) lh = Some j;
  st_buf : payload_of s (Buf j) = Some pb;
  st_procs : Forall (on_buffer (Buf j)) ps;
  st_refcnt : refcnt pb = Z.of_nat (count refs ps);
  st_lock :
    (count owns ps = 0%nat /\ locked (lock pb) = false) \/
    (exists t p, ps !! t = Some p /\ owns p = true /\
       count owns ps = 1%nat /\
       lock pb = {| locked := true; pid := pid_of t |});
  st_reads :
    disk_reads (trace s) =
      (disk_reads (trace s0) + (if Z.eqb (valid pb) 0 then 0 else 1))%nat;
  st_valid : valid pb = 0 -> count past_read ps = 0%nat
}.

(** What holds of the system at every point of every schedule: either
    nobody has got past the second look-up and the cache is as it was,
    or the block is in the cache. *)
Definition in_step (s0 : bcache) (d bn : Z) (j n : nat) (m : system) : Prop :=
  length (procs m) = n /\
  ((exists evs, cache m = log s0 evs /\ disk_reads evs = 0%nat /\
      Forall (fun p => in_bget p = true) (procs m)) \/
   (exists bk lh pb, settled s0 (cache m) d bn j (procs m) bk lh pb)).

(** ** The cache as its callers see it *)

(** What [acquiresleep] makes of a buffer, and lines 154-157 of
    [bread]. *)
Definition locked_by (me : Z) (b : buf) : buf :=
  with_lock {| locked := true; pid := me |} b.

Definition filled (b : buf) : buf :=
  if valid b =? 0 then with_valid 1 b else b.

(** From [s] to [s'] the buffer at [p] has changed by [f], links
    aside, and no other buffer has changed. *)
Definition changed_at (s s' : bcache) (p : ptr) (f : buf -> buf) : Prop :=
  forall x, payload_of s' x =
    if decide (x = p) then f <$> payload_of s x else payload_of s x.

(** The buffer [bget] settles on: the first buffer of the bucket of the
    block that holds the block, or else the first buffer without holder
    that the scan of the other buckets meets. *)
Definition bget_choice (s : bcache) (bk : list (list nat)) (d bn : Z)
    : option nat :=
  match find (holds_block s d bn)
          (default [] (bk !! Z.to_nat (hash_val bn))) with
  | Some j => Some j
  | None =>
      find (unused s)
        (scan_order bk (seq 0 NUM_BUCKET) (Z.to_nat (hash_val bn)))
  end.

(** A buffer somebody counts on: it has a holder, or valid data, or its
    sleep lock is taken. *)
Definition live (b : buf) : bool :=
  negb (refcnt b =? 0) || negb (valid b =? 0) || locked (lock b).

(** Every live buffer of the lists [bk] is in the bucket of its block,
    and it is the buffer a look-up of its block finds there. *)
Definition coherent (s : bcache) (bk : list (list nat)) : Prop :=
  forall i l j b,
    bk !! i = Some l -> j ∈ l -> payload_of s (Buf j) = Some b ->
    live b = true ->
    i = Z.to_nat (hash_val (blockno b)) /\
    find (holds_block s (dev b) (blockno b)) l = Some j.

(** The cache is well formed: the thirteen lists are [bk], every buffer
    is in one of them, and the live buffers are where a look-up finds
    them. *)
Record well_formed (s : bcache) (bk : list (list nat)) : Prop := {
  wf_rep : rep s bk;
  wf_all : forall j, is_Some (deref s (Buf j)) ->
             exists i l, bk !! i = Some l /\ j ∈ l;
  wf_coherent : coherent s bk
}.

(** ** The cache after [binit] *)

(** Buffer [j] goes to bucket [j mod NUM_BUCKET], and a later buffer in
    front of an earlier one. *)
Definition binit_buckets (nbuf : nat) : list (list nat) :=
  (fun i => rev (filter (fun j => (j mod NUM_BUCKET)%nat = i) (seq 0 nbuf)))
    <$> seq 0 NUM_BUCKET.

(** A buffer as [binit] leaves it, without its links. *)
Definition fresh_buf (ticks : Z) : buf :=
  payload (with_lru_timestamp ticks zero_buf).

End Bio.

(** * Facts about machine integers *)

Lemma wrap_int_id z : INT_MIN <= z <= INT_MAX -> wrap_int z = z.
Proof.
  unfold wrap_int, INT_MIN, INT_MAX. intros H.
  rewrite Z.mod_small; lia.
Qed.

Lemma wrap_int_range z : INT_MIN <= wrap_int z <= INT_MAX.
Proof.
  unfold wrap_int, INT_MIN, INT_MAX.
  pose proof (Z.mod_pos_bound (z + 2 ^ 31) (2 ^ 32)). lia.
Qed.

Lemma wrap32_range z : 0 <= wrap32 z < 2 ^ 32.
Proof. unfold wrap32. apply Z.mod_pos_bound. lia. Qed.

Lemma wrap32_id z : 0 <= z < 2 ^ 32 -> wrap32 z = z.
Proof. unfold wrap32. intros H. apply Z.mod_small. lia. Qed.

(** * The page allocator: invariant and properties *)

Module KallocFacts.
Import Kalloc.

Lemma chain_det m p l1 : chain m p l1 -> forall l2, chain m p l2 -> l1 = l2.
Proof.
  induction 1 as [|p n b l Hp Hm Hc IH]; intros l2 H2; inversion H2; subst;
    try congruence.
  assert (n0 = n) by congruence. subst. f_equal. auto.
Qed.

(** Writing a page that is not on the list leaves the list alone. *)
Lemma chain_insert_fresh m p l q c :
  chain m p l -> q ∉ l -> chain (<[q := c]> m) p l.
Proof.
  induction 1 as [|p n b l Hp Hm Hc IH]; intros Hq.
  - constructor.
  - apply not_elem_of_cons in Hq as [Hne Hq].
    apply chain_cons with n b; [done | | by apply IH].
    by rewrite lookup_insert_ne.
Qed.

(** A page whose [next] is the page itself starts no list. *)
Lemma chain_self_loop m p b l :
  p <> 0 -> m !! p = Some (Run p b) -> ~ chain m p l.
Proof.
  intros Hnz Hp. induction l as [|q l IH]; intros Hc.
  - inversion Hc; subst. congruence.
  - inversion Hc as [|? n b' ? Hne Hq Hl]; subst.
    rewrite Hp in Hq. injection Hq as <- <-. by apply IH.
Qed.

Lemma chain_head_nonzero m p l x : chain m p l -> x ∈ l -> p <> 0.
Proof. destruct 1; [by intros ?%elem_of_nil | auto]. Qed.

Section Layout.

Variables KERNBASE PHYSTOP end_ : Z.

Local Abbreviation PA2IDX := (Kalloc.PA2IDX KERNBASE).
Local Abbreviation ref_of := (ref_of KERNBASE).
Local Abbreviation kfree := (kfree KERNBASE PHYSTOP end_).
Local Abbreviation kalloc := (kalloc KERNBASE).
Local Abbreviation increase_ref_counter := (increase_ref_counter KERNBASE).
Local Abbreviation managed := (managed PHYSTOP end_).
Local Abbreviation inv := (inv KERNBASE PHYSTOP end_).
Local Abbreviation page_inv := (page_inv KERNBASE PHYSTOP end_).
Local Abbreviation seeded := (seeded KERNBASE PHYSTOP end_).

Lemma inv_page_inv s : inv s -> page_inv s.
Proof.
  intros (l & Hl & _ & _ & _ & H) pa c Hm Hc.
  destruct (H pa Hm) as (c' & Hc' & H0 & H1).
  assert (c' = c) by congruence. subst c'. split.
  - intros ->. exists l. auto.
  - intros Hpos (l' & Hl' & Hin).
    rewrite (chain_det _ _ _ Hl' _ Hl) in Hin. by apply H1.
Qed.

(** Assumptions on the memory layout: the kernel image lies above
    [KERNBASE], which is not the null page, and addresses fit [uint64]. *)
Hypothesis KERNBASE_pos : 0 < KERNBASE.
Hypothesis end_above : KERNBASE <= end_.
Hypothesis PHYSTOP_fits : PHYSTOP <= 2 ^ 64.

Lemma PA2IDX_managed pa :
  managed pa -> PA2IDX pa = (pa - KERNBASE) / PGSIZE /\ 0 <= PA2IDX pa.
Proof.
  intros [_ Hr]. unfold Kalloc.PA2IDX, wrap64.
  rewrite Z.mod_small by lia. split; [done|].
  apply Z.div_pos; unfold PGSIZE; lia.
Qed.

Lemma PA2IDX_inj p q :
  managed p -> managed q -> Z.to_nat (PA2IDX p) = Z.to_nat (PA2IDX q) -> p = q.
Proof.
  intros Hp Hq Heq.
  destruct (PA2IDX_managed p Hp) as [Ep Pp].
  destruct (PA2IDX_managed q Hq) as [Eq Pq].
  assert (E : (p - KERNBASE) / PGSIZE = (q - KERNBASE) / PGSIZE) by lia.
  destruct Hp as [Ap _], Hq as [Aq _]. unfold PGSIZE in *.
  pose proof (Z.div_mod p 4096). pose proof (Z.div_mod q 4096).
  pose proof (Z.div_mod (p - KERNBASE) 4096).
  pose proof (Z.div_mod (q - KERNBASE) 4096).
  pose proof (Z.mod_pos_bound (p - KERNBASE) 4096).
  pose proof (Z.mod_pos_bound (q - KERNBASE) 4096).
  lia.
Qed.

Lemma managed_nonzero pa : managed pa -> pa <> 0.
Proof. intros [_ H]. lia. Qed.

Lemma ref_of_set_ref_eq s pa c c0 :
  ref_of s pa = Some c0 -> ref_of (set_ref s (PA2IDX pa) c) pa = Some c.
Proof.
  unfold Kalloc.ref_of, set_ref. simpl. intros H.
  apply list_lookup_insert_eq. by eapply lookup_lt_Some.
Qed.

Lemma ref_of_set_ref_ne s pa q c :
  managed pa -> managed q -> pa <> q ->
  ref_of (set_ref s (PA2IDX pa) c) q = ref_of s q.
Proof.
  unfold Kalloc.ref_of, set_ref. simpl. intros Hp Hq Hne.
  apply list_lookup_insert_ne. intros E. by apply Hne, PA2IDX_inj.
Qed.

Lemma kfree_checks pa :
  managed pa ->
  negb (pa mod PGSIZE =? 0) || (pa <? end_) || (pa >=? PHYSTOP) = false.
Proof.
  intros [Ha Hr]. rewrite Ha. simpl.
  destruct (Z.ltb_spec pa end_); [lia|].
  destruct (Z.geb_spec pa PHYSTOP); [lia|]. done.
Qed.

Lemma classic_managed pa : managed pa \/ ~ managed pa.
Proof.
  unfold Kalloc.managed.
  destruct (decide (pa mod PGSIZE = 0)); [|tauto].
  destruct (decide (end_ <= pa)); [|right; lia].
  destruct (decide (pa < PHYSTOP)); [left; lia | right; lia].
Qed.

Lemma kfree_panics pa s :
  ~ managed pa -> kfree s pa = Panic "kfree".
Proof.
  intros Hn. unfold Kalloc.kfree.
  destruct (Z.eqb_spec (pa mod PGSIZE) 0); [|done].
  destruct (Z.ltb_spec pa end_); [done|].
  destruct (Z.geb_spec pa PHYSTOP); [done|].
  exfalso. apply Hn. split; [done | lia].
Qed.

(** The branch of [kfree] that only decrements. *)
Lemma kfree_dec s pa c :
  managed pa -> ref_of s pa = Some c -> 0 < wrap_int (c - 1) ->
  kfree s pa = Ok (set_ref s (PA2IDX pa) (wrap_int (c - 1))).
Proof.
  intros Hm Hc Hpos. unfold Kalloc.kfree. rewrite kfree_checks by done.
  unfold Kalloc.ref_of in Hc. rewrite Hc. cbv zeta.
  destruct (Z.leb_spec (wrap_int (c - 1)) 0); [lia | done].
Qed.

(** The branch of [kfree] that fills the page with junk and links it in
    front of the free list. *)
Lemma kfree_push s pa c :
  managed pa -> ref_of s pa = Some c -> wrap_int (c - 1) <= 0 ->
  kfree s pa =
    Ok {| freelist := pa;
          ref_counter := <[Z.to_nat (PA2IDX pa) := 0]> (ref_counter s);
          mem := <[pa := Run (freelist s) 1]> (mem s) |}.
Proof.
  intros Hm Hc Hle. unfold Kalloc.kfree. rewrite kfree_checks by done.
  unfold Kalloc.ref_of in Hc. rewrite Hc. cbv zeta.
  destruct (Z.leb_spec (wrap_int (c - 1)) 0); [|lia].
  simpl. by rewrite list_insert_insert_eq.
Qed.

Lemma kfree_push_pages s pa c l :
  managed pa -> ref_of s pa = Some c -> wrap_int (c - 1) <= 0 ->
  free_pages s l -> pa ∉ l ->
  exists s', kfree s pa = Ok s' /\ free_pages s' (pa :: l) /\
    ref_of s' pa = Some 0 /\
    forall q, managed q -> q <> pa -> ref_of s' q = ref_of s q.
Proof.
  intros Hm Hc Hle Hl Hnin. eexists. split; [by eapply kfree_push|].
  unfold free_pages, Kalloc.ref_of in *. simpl. split; [|split].
  - apply chain_cons with (freelist s) 1.
    + by apply managed_nonzero.
    + by rewrite lookup_insert_eq.
    + by apply chain_insert_fresh.
  - apply list_lookup_insert_eq. by eapply lookup_lt_Some.
  - intros q Hq Hne. apply list_lookup_insert_ne.
    intros E. apply Hne. symmetry. by apply PA2IDX_inj.
Qed.

Lemma kalloc_empty s : freelist s = 0 -> kalloc s = Ok (0, s).
Proof. unfold Kalloc.kalloc. intros ->. done. Qed.

Lemma kalloc_pop s r n b c :
  freelist s = r -> r <> 0 -> mem s !! r = Some (Run n b) ->
  ref_of s r = Some c ->
  kalloc s =
    Ok (r, {| freelist := n;
              ref_counter := <[Z.to_nat (PA2IDX r) := 1]> (ref_counter s);
              mem := <[r := Junk 5]> (mem s) |}).
Proof.
  intros Hf Hr Hm Hc. unfold Kalloc.kalloc, load_next. rewrite Hf.
  destruct (Z.eqb_spec r 0); [done|]. rewrite Hm.
  unfold Kalloc.ref_of in Hc. by rewrite Hc.
Qed.

Lemma inv_freelist_nil s : inv s -> freelist s = 0 -> free_pages s [].
Proof.
  intros (l & Hl & _) H0. unfold free_pages in *. rewrite H0. constructor.
Qed.

(** [kalloc] keeps the invariant: it unlinks the head of the free list
    and gives it the count 1. *)
Lemma kalloc_inv s :
  inv s ->
  exists r s', kalloc s = Ok (r, s') /\ inv s' /\
    (r = 0 <-> freelist s = 0) /\
    (r <> 0 ->
       managed r /\
       (exists l, free_pages s (r :: l) /\ free_pages s' l /\ r ∉ l) /\
       ref_of s' r = Some 1 /\
       forall q, managed q -> q <> r -> ref_of s' q = ref_of s q).
Proof.
  intros Hinv. pose proof Hinv as (l & Hl & Hnd & Hall & Hint & Href).
  unfold free_pages in Hl.
  inversion Hl as [E1 E2 | p n b l' Hp Hm Hc E1 E2]; subst.
  - exists 0, s. rewrite kalloc_empty by done. repeat split; try done.
  - apply NoDup_cons in Hnd as [Hnin Hnd].
    apply Forall_cons in Hall as [Hmp Hall].
    destruct (Href _ Hmp) as (c & Hc0 & _).
    eexists _, _. split; [by eapply kalloc_pop|].
    assert (Hl' : chain (<[freelist s := Junk 5]> (mem s)) n l')
      by by apply chain_insert_fresh.
    assert (Hoth : forall q, managed q -> q <> freelist s ->
      Kalloc.ref_of KERNBASE
        {| freelist := n;
           ref_counter := <[Z.to_nat (PA2IDX (freelist s)) := 1]> (ref_counter s);
           mem := <[freelist s := Junk 5]> (mem s) |} q = ref_of s q).
    { intros q Hq Hne. unfold Kalloc.ref_of. simpl.
      apply list_lookup_insert_ne. intros E. apply Hne. symmetry.
      by apply PA2IDX_inj. }
    assert (Hone : Kalloc.ref_of KERNBASE
        {| freelist := n;
           ref_counter := <[Z.to_nat (PA2IDX (freelist s)) := 1]> (ref_counter s);
           mem := <[freelist s := Junk 5]> (mem s) |} (freelist s) = Some 1).
    { unfold Kalloc.ref_of. simpl. apply list_lookup_insert_eq.
      by eapply lookup_lt_Some. }
    split; [|split; [split; [done | intros E; by rewrite E in Hp] |]].
    + exists l'. split; [done|]. split; [done|]. split; [done|].
      split; [apply Forall_insert; [done | by vm_compute] |].
      intros pa Hpa. destruct (decide (pa = freelist s)) as [->|Hne].
      * exists 1. split; [done|]. split; [lia | done].
      * rewrite Hoth by done. destruct (Href _ Hpa) as (c' & Hc' & H0 & H1).
        exists c'. split; [done|]. split.
        -- intros Hz. specialize (H0 Hz). apply elem_of_cons in H0.
           by destruct H0.
        -- intros Hpos Hin. apply (H1 Hpos). by apply elem_of_cons; right.
    + intros _. split; [done|]. split; [|done].
      exists l'. split; [|done]. unfold free_pages.
      by apply chain_cons with n b.
Qed.

Lemma ref_of_is_int s pa c :
  Forall is_int (ref_counter s) -> ref_of s pa = Some c -> is_int c.
Proof.
  intros Hall Hc. rewrite Forall_lookup in Hall. by eapply Hall.
Qed.

(** [kfree] of an allocated page keeps the invariant. *)
Lemma kfree_inv s pa c :
  inv s -> managed pa -> ref_of s pa = Some c -> 0 < c ->
  exists s', kfree s pa = Ok s' /\ inv s' /\
    ref_of s' pa = Some (c - 1) /\
    (forall q, managed q -> q <> pa -> ref_of s' q = ref_of s q) /\
    (c = 1 -> freelist s' = pa /\
              mem s' = <[pa := Run (freelist s) 1]> (mem s) /\
              forall l, free_pages s l -> free_pages s' (pa :: l)) /\
    (1 < c -> freelist s' = freelist s /\ mem s' = mem s).
Proof.
  intros (l & Hl & Hnd & Hall & Hint & Href) Hm Hc Hpos.
  pose proof (ref_of_is_int _ _ _ Hint Hc) as Hrange.
  assert (Hw : wrap_int (c - 1) = c - 1).
  { apply wrap_int_id. unfold is_int, INT_MIN, INT_MAX in *. lia. }
  destruct (Href _ Hm) as (c' & Hc' & _ & Hnin).
  assert (c' = c) by congruence. subst c'. specialize (Hnin Hpos).
  destruct (decide (c = 1)) as [->|Hne].
  - destruct (kfree_push_pages s pa 1 l) as (s' & Hk & Hl' & Hr' & Hoth);
      try done.
    exists s'. split; [done|]. split; [|split; [done|split; [done|split]]].
    + exists (pa :: l). split; [done|]. split; [by apply NoDup_cons|].
      split; [by apply Forall_cons|]. split.
      * rewrite kfree_push with (c := 1) in Hk by done.
        injection Hk as <-. simpl. apply Forall_insert; [done | by vm_compute].
      * intros q Hq. destruct (decide (q = pa)) as [->|Hqne].
        -- exists 0. split; [done|]. split; [intros _; apply elem_of_cons; by left | lia].
        -- rewrite Hoth by done. destruct (Href _ Hq) as (cq & Hcq & H0 & H1).
           exists cq. split; [done|]. split.
           ++ intros Hz. apply elem_of_cons. right. auto.
           ++ intros Hp Hin. apply elem_of_cons in Hin as [?|Hin]; [done|].
              by apply (H1 Hp).
    + intros _. rewrite kfree_push with (c := 1) in Hk by done.
      injection Hk as <-. simpl. split; [done|]. split; [done|].
      intros l2 Hl2. by rewrite (chain_det _ _ _ Hl2 _ Hl).
    + lia.
  - rewrite (kfree_dec s pa c) by (try done; lia).
    eexists. split; [done|]. rewrite Hw.
    split; [|split; [by eapply ref_of_set_ref_eq|split; [|split; [lia|done]]]].
    + exists l. split; [done|]. split; [done|]. split; [done|]. split.
      * simpl. apply Forall_insert; [done|].
        unfold is_int, INT_MIN, INT_MAX in *. lia.
      * intros q Hq. destruct (decide (q = pa)) as [->|Hqne].
        -- exists (c - 1). split; [by eapply ref_of_set_ref_eq|].
           split; [lia | done].
        -- rewrite ref_of_set_ref_ne by done. by apply Href.
    + intros q Hq Hqne. by apply ref_of_set_ref_ne.
Qed.

(** [increase_ref_counter] on an allocated page keeps the invariant and
    does not touch the free list. *)
Lemma increase_inv s pa c :
  inv s -> managed pa -> ref_of s pa = Some c -> 0 < c ->
  exists s', increase_ref_counter s pa = Ok s' /\ inv s' /\
    ref_of s' pa = Some (wrap_int (c + 1)) /\
    (forall q, managed q -> q <> pa -> ref_of s' q = ref_of s q) /\
    freelist s' = freelist s /\ mem s' = mem s.
Proof.
  intros (l & Hl & Hnd & Hall & Hint & Href) Hm Hc Hpos.
  unfold Kalloc.increase_ref_counter. pose proof Hc as Hc2.
  unfold Kalloc.ref_of in Hc2. rewrite Hc2.
  eexists. split; [done|].
  split; [|split; [by eapply ref_of_set_ref_eq|split; [|done]]].
  - exists l. split; [done|]. split; [done|]. split; [done|]. split.
    + simpl. apply Forall_insert; [done | apply wrap_int_range].
    + destruct (Href _ Hm) as (c' & Hc' & _ & Hnin).
      assert (c' = c) by congruence. subst c'. specialize (Hnin Hpos).
      intros q Hq. destruct (decide (q = pa)) as [->|Hqne].
      * exists (wrap_int (c + 1)). split; [by eapply ref_of_set_ref_eq|].
        split; [|done]. intros Hz. exfalso.
        pose proof (ref_of_is_int _ _ _ Hint Hc) as Hrange.
        unfold wrap_int, is_int, INT_MIN, INT_MAX in *.
        destruct (decide (c = 2 ^ 31 - 1)) as [->|Hmax].
        -- vm_compute in Hz. done.
        -- rewrite Z.mod_small in Hz by lia. lia.
      * rewrite ref_of_set_ref_ne by done. by apply Href.
  - intros q Hq Hqne. by apply ref_of_set_ref_ne.
Qed.

(** ** Seeding the free list *)

Lemma freerange_loop_unfold pa_end p s :
  freerange_loop KERNBASE PHYSTOP end_ pa_end p s =
    if decide (p + PGSIZE <= pa_end) then
      match kfree s p with
      | Ok s' => freerange_loop KERNBASE PHYSTOP end_ pa_end (p + PGSIZE) s'
      | Panic msg => Panic msg
      | Undefined => Undefined
      end
    else Ok s.
Proof.
  rewrite freerange_loop_equation_1.
  destruct (decide (p + PGSIZE <= pa_end)); reflexivity.
Qed.

Hypothesis PHYSTOP_aligned : PHYSTOP mod PGSIZE = 0.

Lemma managed_next_page pa q :
  pa mod PGSIZE = 0 -> q mod PGSIZE = 0 -> q < pa + PGSIZE -> q <= pa.
Proof.
  unfold PGSIZE. intros Ha Hq Hlt.
  pose proof (Z.div_mod pa 4096). pose proof (Z.div_mod q 4096). lia.
Qed.

Lemma managed_idx_lt pa :
  managed pa -> (Z.to_nat (PA2IDX pa) < Z.to_nat (NUM_OF_PAGE KERNBASE PHYSTOP))%nat.
Proof.
  intros Hm. destruct (PA2IDX_managed pa Hm) as [E Hpos].
  rewrite E in *. unfold NUM_OF_PAGE. destruct Hm as [Ha Hr].
  assert (pa + PGSIZE <= PHYSTOP).
  { pose proof (managed_next_page PHYSTOP pa PHYSTOP_aligned Ha).
    unfold PGSIZE in *.
    pose proof (Z.div_mod pa 4096). pose proof (Z.div_mod PHYSTOP 4096). lia. }
  assert ((pa - KERNBASE) / PGSIZE + 1 <= (PHYSTOP - KERNBASE) / PGSIZE).
  { rewrite <- (Z.div_add (pa - KERNBASE) 1 PGSIZE) by done.
    apply Z.div_le_mono; unfold PGSIZE in *; lia. }
  lia.
Qed.

Lemma seeded_ref s p pa : seeded p s -> managed pa -> ref_of s pa = Some 0.
Proof.
  intros (l & _ & _ & _ & Hrc) Hm. unfold Kalloc.ref_of. rewrite Hrc.
  apply lookup_replicate_2. by apply managed_idx_lt.
Qed.

Lemma seeded_step s p :
  seeded p s -> managed p ->
  exists s', kfree s p = Ok s' /\ seeded (p + PGSIZE) s'.
Proof.
  intros Hs Hm. pose proof (seeded_ref _ _ _ Hs Hm) as Hc.
  destruct Hs as (l & Hl & Hnd & Hmem & Hrc).
  assert (Hnin : p ∉ l) by (rewrite Hmem; lia).
  rewrite (kfree_push s p 0) by (try done; by vm_compute).
  eexists. split; [done|]. exists (p :: l). split; [|split; [|split]].
  - unfold free_pages. simpl. apply chain_cons with (freelist s) 1.
    + by apply managed_nonzero.
    + by rewrite lookup_insert_eq.
    + by apply chain_insert_fresh.
  - by apply NoDup_cons.
  - intros q. rewrite elem_of_cons, Hmem. split.
    + intros [->|[Hq Hlt]]; (split; [done|]); unfold PGSIZE; lia.
    + intros [Hq Hlt]. destruct (decide (q = p)); [by left | right].
      split; [done|].
      pose proof (managed_next_page p q (proj1 Hm) (proj1 Hq) Hlt). lia.
  - simpl. by rewrite list_insert_id.
Qed.

Lemma freerange_loop_seeded (n : nat) : forall p s,
  p mod PGSIZE = 0 -> end_ <= p -> PHYSTOP - p <= Z.of_nat n * PGSIZE ->
  seeded p s ->
  exists s', freerange_loop KERNBASE PHYSTOP end_ PHYSTOP p s = Ok s' /\
    seeded PHYSTOP s'.
Proof.
  assert (Hstop : forall p s, p mod PGSIZE = 0 -> ~ p + PGSIZE <= PHYSTOP ->
    seeded p s -> seeded PHYSTOP s).
  { intros p s Ha Hn (l & Hl & Hnd & Hmem & Hrc). exists l.
    split; [done|]. split; [done|]. split; [|done].
    intros q. rewrite Hmem. split; intros [Hq Hlt]; (split; [done|]).
    - by destruct Hq as [_ [_ ?]].
    - destruct Hq as [Hqa [_ Hqr]].
      pose proof (managed_next_page PHYSTOP q PHYSTOP_aligned Hqa).
      unfold PGSIZE in *.
      pose proof (Z.div_mod p 4096). pose proof (Z.div_mod q 4096).
      pose proof (Z.div_mod PHYSTOP 4096). lia. }
  induction n as [|n IH]; intros p s Ha Hlo Hn Hs;
    rewrite freerange_loop_unfold;
    destruct (decide (p + PGSIZE <= PHYSTOP)) as [Hle|Hgt];
    try (exists s; split; [done | by eapply Hstop]).
  - unfold PGSIZE in *. lia.
  - assert (Hm : managed p) by (split; [done | unfold PGSIZE in *; lia]).
    destruct (seeded_step s p Hs Hm) as (s1 & Hk & Hs1). rewrite Hk.
    apply IH; try done.
    + unfold PGSIZE in *. rewrite <- Z.add_mod_idemp_l, Ha by done. done.
    + unfold PGSIZE. lia.
    + unfold PGSIZE in *. lia.
Qed.

Lemma PGROUNDUP_spec a :
  PGROUNDUP a mod PGSIZE = 0 /\ a <= PGROUNDUP a < a + PGSIZE.
Proof.
  unfold PGROUNDUP, PGSIZE. split; [apply Z.mod_mul; lia|].
  pose proof (Z.div_mod (a + 4096 - 1) 4096).
  pose proof (Z.mod_pos_bound (a + 4096 - 1) 4096). lia.
Qed.

(** [kinit] returns, and leaves every managed page on the free list with
    the count 0. *)
Lemma kinit_spec :
  exists s, kinit KERNBASE PHYSTOP end_ = Ok s /\ inv s /\
    forall pa, managed pa -> ref_of s pa = Some 0 /\ in_freelist s pa.
Proof.
  destruct (PGROUNDUP_spec end_) as [Ha [Hlo Hhi]].
  destruct (freerange_loop_seeded
              (Z.to_nat (PHYSTOP - PGROUNDUP end_)) (PGROUNDUP end_)
              {| freelist := 0;
                 ref_counter := replicate (Z.to_nat (NUM_OF_PAGE KERNBASE PHYSTOP)) 0;
                 mem := ∅ |}) as (s & Hrun & Hs); try done.
  - unfold PGSIZE. lia.
  - exists []. split; [constructor|]. split; [constructor|]. split; [|done].
    intros q. split; [by intros ?%elem_of_nil|]. intros [[Hqa [Hq _]] Hlt].
    exfalso. unfold PGSIZE in *.
    pose proof (Z.div_mod q 4096).
    pose proof (Z.div_mod (PGROUNDUP end_) 4096). lia.
  - exists s. split.
    + unfold kinit, freerange, kmem_bss. simpl.
      rewrite length_replicate. exact Hrun.
    + pose proof Hs as (l & Hl & Hnd & Hmem & Hrc).
      assert (Hall : forall pa, managed pa -> pa ∈ l).
      { intros pa Hm. apply Hmem. split; [done | by destruct Hm as [_ [_ ?]]]. }
      split.
      * exists l. split; [done|]. split; [done|]. split; [|split].
        -- apply Forall_forall. intros q Hq. by apply Hmem in Hq as [? _].
        -- rewrite Hrc. apply Forall_replicate. by vm_compute.
        -- intros pa Hm. exists 0. split; [by eapply seeded_ref|].
           split; [auto | lia].
      * intros pa Hm. split; [by eapply seeded_ref|]. exists l. auto.
Qed.

(** ** The claims about the allocator *)

(** C4, as the code has it.  [kalloc], [kfree] of an allocated page and
    [increase_ref_counter] on an allocated page preserve the invariant
    that a managed page with count 0 is on the free list and a page with
    a positive count is not.  [kalloc] takes the page it returns off the
    free list and sets its count to 1; [kfree] of an allocated page links
    the page in front of the free list exactly when its count reaches
    zero, and otherwise leaves the list alone; [increase_ref_counter] on
    an allocated page does not touch the free list.  Each of the calls
    returns. *)
Theorem allocator_ops_preserve_invariant (s : kmem) :
  inv s ->
  page_inv s /\
  (exists r s', kalloc s = Ok (r, s') /\ inv s' /\ page_inv s' /\
     (r <> 0 ->
        in_freelist s r /\ ~ in_freelist s' r /\ ref_of s' r = Some 1)) /\
  (forall pa c, managed pa -> ref_of s pa = Some c -> 0 < c ->
     exists s', kfree s pa = Ok s' /\ inv s' /\ page_inv s' /\
       ref_of s' pa = Some (c - 1) /\
       (c - 1 = 0 ->
          in_freelist s' pa /\
          forall l, free_pages s l -> free_pages s' (pa :: l)) /\
       (c - 1 <> 0 ->
          ~ in_freelist s' pa /\
          forall l, free_pages s l -> free_pages s' l)) /\
  (forall pa c, managed pa -> ref_of s pa = Some c -> 0 < c ->
     exists s', increase_ref_counter s pa = Ok s' /\ inv s' /\ page_inv s' /\
       freelist s' = freelist s /\ mem s' = mem s).
Proof.
  intros Hinv. split; [by apply inv_page_inv|]. split; [|split].
  - destruct (kalloc_inv s Hinv) as (r & s' & Hk & Hinv' & _ & Hr).
    exists r, s'. split; [done|]. split; [done|].
    split; [by apply inv_page_inv|]. intros Hne.
    destruct (Hr Hne) as (Hm & (l & Hl & Hl' & Hnin) & Hone & _).
    split; [|split; [|done]].
    + exists (r :: l). split; [done|]. apply elem_of_cons. by left.
    + intros (l2 & Hl2 & Hin). by rewrite (chain_det _ _ _ Hl2 _ Hl') in Hin.
  - intros pa c Hm Hc Hpos.
    destruct (kfree_inv s pa c Hinv Hm Hc Hpos)
      as (s' & Hk & Hinv' & Hc' & _ & Hone & Hmore).
    exists s'. split; [done|]. split; [done|].
    pose proof (inv_page_inv _ Hinv') as Hp'.
    split; [done|]. split; [done|]. split.
    + intros Hz. split; [apply (Hp' pa (c - 1) Hm Hc'); done|].
      apply Hone. lia.
    + intros Hnz. split; [apply (Hp' pa (c - 1) Hm Hc'); lia|].
      destruct Hmore as [Hf Hmem]; [lia|]. unfold free_pages.
      by rewrite Hf, Hmem.
  - intros pa c Hm Hc Hpos.
    destruct (increase_inv s pa c Hinv Hm Hc Hpos)
      as (s' & Hk & Hinv' & _ & _ & Hf & Hmem).
    exists s'. split; [done|]. split; [done|].
    split; [by apply inv_page_inv | done].
Qed.

(** C5.  Reference-count round trip.  A page returned by [kalloc] and
    freed at once is back on the free list, exactly once: the free list is
    again the sequence of pages it was before the allocation.  After
    [kalloc], [increase_ref_counter] and a first [kfree] the page has the
    count 1 and is not on the free list; after a second [kfree] it has
    the count 0 and is on the free list. *)
Theorem refcount_round_trip (s s1 : kmem) (r : Z) :
  inv s -> kalloc s = Ok (r, s1) -> r <> 0 ->
  (exists s2 l, kfree s1 r = Ok s2 /\ ref_of s2 r = Some 0 /\
     free_pages s l /\ free_pages s2 l /\ NoDup l /\ r ∈ l) /\
  (exists s2 s3 s4,
     increase_ref_counter s1 r = Ok s2 /\
     kfree s2 r = Ok s3 /\ ref_of s3 r = Some 1 /\ ~ in_freelist s3 r /\
     kfree s3 r = Ok s4 /\ ref_of s4 r = Some 0 /\ in_freelist s4 r).
Proof.
  intros Hinv Hk Hne.
  destruct (kalloc_inv s Hinv) as (r' & s' & Hk' & Hinv1 & _ & Hr).
  rewrite Hk in Hk'. injection Hk' as <- <-.
  destruct (Hr Hne) as (Hm & (l & Hl & Hl1 & Hnin) & Hone & _). split.
  - destruct (kfree_inv s1 r 1 Hinv1 Hm Hone) as
      (s2 & Hf & Hinv2 & Hc2 & _ & Hpush & _); [lia|].
    exists s2, (r :: l). split; [done|]. split; [done|]. split; [done|].
    destruct Hpush as (_ & _ & Hpush); [done|]. split; [by apply Hpush|].
    destruct Hinv as (l0 & Hl0 & Hnd & _).
    rewrite (chain_det _ _ _ Hl0 _ Hl) in Hnd. split; [done|].
    apply elem_of_cons. by left.
  - destruct (increase_inv s1 r 1 Hinv1 Hm Hone) as
      (s2 & Hi & Hinv2 & Hc2 & _); [lia|].
    change (wrap_int (1 + 1)) with 2 in Hc2.
    destruct (kfree_inv s2 r 2 Hinv2 Hm Hc2) as
      (s3 & Hf3 & Hinv3 & Hc3 & _); [lia|].
    change (2 - 1) with 1 in Hc3.
    destruct (kfree_inv s3 r 1 Hinv3 Hm Hc3) as
      (s4 & Hf4 & Hinv4 & Hc4 & _); [lia|].
    change (1 - 1) with 0 in Hc4.
    exists s2, s3, s4. repeat (split; [done|]).
    split; [apply (inv_page_inv _ Hinv3 r 1 Hm Hc3); lia|].
    repeat (split; [done|]).
    by apply (inv_page_inv _ Hinv4 r 0 Hm Hc4).
Qed.

(** C7.  [kalloc] returns the null pointer exactly when the free list is
    empty, and never panics.  When it returns a page, that page was the
    head of the free list, the list now starts at the page's successor,
    the page is filled with the byte 5 and its count is 1.  After a
    [kfree] that puts a page on an empty free list, the next [kalloc]
    returns that page. *)
Theorem kalloc_exhaustion :
  (forall s, (exists s', kalloc s = Ok (0, s')) <-> freelist s = 0) /\
  (forall s msg, kalloc s <> Panic msg) /\
  (forall s r s', kalloc s = Ok (r, s') -> r <> 0 ->
     r = freelist s /\ load_next (mem s) r = Some (freelist s') /\
     mem s' !! r = Some (Junk 5) /\ ref_of s' r = Some 1) /\
  (forall s pa s', freelist s = 0 -> kfree s pa = Ok s' -> freelist s' = pa ->
     exists s'', kalloc s' = Ok (pa, s'') /\ freelist s'' = 0).
Proof.
  split; [|split; [|split]].
  - intros s. unfold Kalloc.kalloc. split.
    + intros [s' H]. destruct (Z.eqb_spec (freelist s) 0); [done|].
      destruct (load_next _ _); [|done].
      destruct (_ !! _); [|done]. injection H as H _. done.
    + intros ->. by exists s.
  - intros s msg. unfold Kalloc.kalloc.
    destruct (_ =? _); [done|]. destruct (load_next _ _); [|done].
    by destruct (_ !! _).
  - intros s r s'. unfold Kalloc.kalloc.
    destruct (Z.eqb_spec (freelist s) 0) as [E|E].
    + intros H. injection H as <- _. done.
    + destruct (load_next _ _) as [n|] eqn:Hn; [|done].
      destruct (_ !! _) as [c|] eqn:Hc; [|done].
      intros H _. injection H as <- <-. simpl.
      split; [done|]. split; [done|].
      split; [by rewrite lookup_insert_eq|].
      unfold Kalloc.ref_of. simpl. apply list_lookup_insert_eq.
      by eapply lookup_lt_Some.
  - intros s pa s' H0 Hk Hpa.
    destruct (classic_managed pa) as [Hm|Hm];
      [|by rewrite kfree_panics in Hk].
    pose proof (managed_nonzero _ Hm) as Hnz.
    unfold Kalloc.kfree in Hk. rewrite kfree_checks in Hk by done.
    destruct (_ !! _) as [c|] eqn:Hc; [|done]. cbv zeta in Hk.
    destruct (_ <=? _).
    + injection Hk as <-. eexists. split.
      * eapply kalloc_pop; simpl; try done.
        -- by rewrite lookup_insert_eq.
        -- unfold Kalloc.ref_of. simpl. apply list_lookup_insert_eq.
           rewrite length_insert. by eapply lookup_lt_Some.
      * done.
    + injection Hk as <-. simpl in Hpa. congruence.
Qed.

(** C10.  [kfree] of an aligned page inside the managed range whose
    count is already 0 takes the branch that fills the page with junk and
    links it in front of the free list, and leaves the count at exactly 0.
    Whatever the count was, the count [kfree] leaves is never negative.
    This is what the seeding done by [kinit] relies on: it returns with
    every managed page on the free list and every count 0. *)
Theorem kfree_zero_count_pushes :
  (forall s pa, managed pa -> ref_of s pa = Some 0 ->
     exists s', kfree s pa = Ok s' /\ freelist s' = pa /\
       mem s' !! pa = Some (Run (freelist s) 1) /\
       ref_of s' pa = Some 0) /\
  (forall s pa s', kfree s pa = Ok s' ->
     exists c, ref_of s' pa = Some c /\ 0 <= c) /\
  (exists s, kinit KERNBASE PHYSTOP end_ = Ok s /\
     forall pa, managed pa -> ref_of s pa = Some 0 /\ in_freelist s pa).
Proof.
  split; [|split].
  - intros s pa Hm Hc. rewrite (kfree_push s pa 0) by (try done; by vm_compute).
    eexists. split; [done|]. simpl. split; [done|].
    split; [by rewrite lookup_insert_eq|].
    unfold Kalloc.ref_of in *. simpl. apply list_lookup_insert_eq.
    by eapply lookup_lt_Some.
  - intros s pa s' Hk.
    destruct (classic_managed pa) as [Hm|Hm];
      [|by rewrite kfree_panics in Hk].
    unfold Kalloc.kfree in Hk. rewrite kfree_checks in Hk by done.
    destruct (_ !! _) as [c|] eqn:Hc; [|done]. cbv zeta in Hk.
    apply lookup_lt_Some in Hc.
    destruct (Z.leb_spec (wrap_int (c - 1)) 0); injection Hk as <-.
    + exists 0. split; [|done]. unfold Kalloc.ref_of. simpl.
      apply list_lookup_insert_eq. by rewrite length_insert.
    + exists (wrap_int (c - 1)). split; [|lia]. unfold Kalloc.ref_of. simpl.
      by apply list_lookup_insert_eq.
  - destruct kinit_spec as (s & Hk & _ & H). by exists s.
Qed.

End Layout.

(** ** The claims on the small machine *)

Lemma small_KERNBASE_pos : 0 < small_KERNBASE.
Proof. by vm_compute. Qed.

Lemma small_end_above : small_KERNBASE <= small_end.
Proof. by vm_compute. Qed.

Lemma small_PHYSTOP_fits : small_PHYSTOP <= 2 ^ 64.
Proof. by vm_compute. Qed.

Lemma small_PHYSTOP_aligned : small_PHYSTOP mod PGSIZE = 0.
Proof. by vm_compute. Qed.

Lemma small_page7_managed : managed small_PHYSTOP small_end small_page7.
Proof. split; [|split]; by vm_compute. Qed.

Lemma small_boot_inv : inv small_KERNBASE small_PHYSTOP small_end small_boot.
Proof.
  destruct (kinit_spec small_KERNBASE small_PHYSTOP small_end
              small_KERNBASE_pos small_end_above small_PHYSTOP_fits
              small_PHYSTOP_aligned) as (s & Hk & Hinv & _).
  unfold small_boot. by rewrite Hk.
Qed.

Lemma small_boot_kalloc :
  exists s1, kalloc small_KERNBASE small_boot = Ok (small_page7, s1) /\
    s1 = small_one_allocated.
Proof. eexists. split; [by vm_compute | by vm_compute]. Qed.

Lemma small_one_allocated_inv :
  inv small_KERNBASE small_PHYSTOP small_end small_one_allocated.
Proof.
  destruct (kalloc_inv small_KERNBASE small_PHYSTOP small_end
              small_KERNBASE_pos small_end_above small_PHYSTOP_fits
              small_boot small_boot_inv) as (r & s' & Hk & Hinv & _).
  unfold small_one_allocated. by rewrite Hk.
Qed.

Lemma allocator_ops_preserve_invariant_witness :
  inv small_KERNBASE small_PHYSTOP small_end small_one_allocated /\
  managed small_PHYSTOP small_end small_page7 /\
  ref_of small_KERNBASE small_one_allocated small_page7 = Some 1 /\
  page_inv small_KERNBASE small_PHYSTOP small_end small_one_allocated /\
  (exists s', kfree small_KERNBASE small_PHYSTOP small_end
                small_one_allocated small_page7 = Ok s' /\
     inv small_KERNBASE small_PHYSTOP small_end s' /\
     ref_of small_KERNBASE s' small_page7 = Some 0 /\
     in_freelist s' small_page7) /\
  (exists s', increase_ref_counter small_KERNBASE
                small_one_allocated small_page7 = Ok s' /\
     inv small_KERNBASE small_PHYSTOP small_end s' /\
     freelist s' = freelist small_one_allocated).
Proof.
  pose proof (allocator_ops_preserve_invariant
                small_KERNBASE small_PHYSTOP small_end
                small_KERNBASE_pos small_end_above small_PHYSTOP_fits
                small_one_allocated small_one_allocated_inv)
    as (Hp & _ & Hfree & Hinc).
  assert (Hc : ref_of small_KERNBASE small_one_allocated small_page7 = Some 1)
    by (vm_compute; reflexivity).
  assert (Hpos : 0 < 1) by lia.
  split; [exact small_one_allocated_inv|].
  split; [exact small_page7_managed|].
  split; [exact Hc|]. split; [exact Hp|]. split.
  - destruct (Hfree small_page7 1 small_page7_managed Hc Hpos)
      as (s' & Hk & Hinv & _ & Hc' & Hz & _).
    exists s'. split; [exact Hk|]. split; [exact Hinv|].
    split; [exact Hc'|]. apply Hz. reflexivity.
  - destruct (Hinc small_page7 1 small_page7_managed Hc Hpos)
      as (s' & Hk & Hinv & _ & Hf & _).
    exists s'. split; [exact Hk|]. split; [exact Hinv | exact Hf].
Defined.

(** C4 fails as stated for [kfree]: after [kinit] page 7 is free, with
    the count 0 and at the head of the free list, and the invariant
    holds.  [kfree] of page 7 returns and leaves the page linked to
    itself: no list starts at [kmem.freelist] any more, page 7 has the
    count 0 and is not on the free list, and the invariant is lost. *)
Lemma kfree_of_free_page_breaks_invariant :
  inv small_KERNBASE small_PHYSTOP small_end small_boot /\
  managed small_PHYSTOP small_end small_page7 /\
  ref_of small_KERNBASE small_boot small_page7 = Some 0 /\
  in_freelist small_boot small_page7 /\
  kfree small_KERNBASE small_PHYSTOP small_end small_boot small_page7
    = Ok small_freed_twice /\
  ref_of small_KERNBASE small_freed_twice small_page7 = Some 0 /\
  freelist small_freed_twice = small_page7 /\
  mem small_freed_twice !! small_page7 = Some (Run small_page7 1) /\
  (forall l, ~ free_pages small_freed_twice l) /\
  ~ in_freelist small_freed_twice small_page7 /\
  ~ page_inv small_KERNBASE small_PHYSTOP small_end small_freed_twice /\
  ~ inv small_KERNBASE small_PHYSTOP small_end small_freed_twice.
Proof.
  assert (Hc : ref_of small_KERNBASE small_boot small_page7 = Some 0)
    by (vm_compute; reflexivity).
  assert (Hc' : ref_of small_KERNBASE small_freed_twice small_page7 = Some 0)
    by (vm_compute; reflexivity).
  assert (Hf : freelist small_freed_twice = small_page7)
    by (vm_compute; reflexivity).
  assert (Hm : mem small_freed_twice !! small_page7
               = Some (Run small_page7 1)) by (vm_compute; reflexivity).
  assert (Hno : forall l, ~ free_pages small_freed_twice l).
  { intros l. unfold free_pages. rewrite Hf.
    apply chain_self_loop with 1; [by vm_compute | exact Hm]. }
  assert (Hout : ~ in_freelist small_freed_twice small_page7).
  { intros (l & Hl & _). by apply (Hno l). }
  assert (Hbad : ~ page_inv small_KERNBASE small_PHYSTOP small_end
                   small_freed_twice).
  { intros Hpi.
    destruct (Hpi small_page7 0 small_page7_managed Hc') as [Hin _].
    by apply Hout, Hin. }
  split; [exact small_boot_inv|]. split; [exact small_page7_managed|].
  split; [exact Hc|]. split.
  { apply (inv_page_inv small_KERNBASE small_PHYSTOP small_end
             small_boot small_boot_inv small_page7 0 small_page7_managed Hc).
    reflexivity. }
  split; [vm_compute; reflexivity|]. split; [exact Hc'|].
  split; [exact Hf|]. split; [exact Hm|]. split; [exact Hno|].
  split; [exact Hout|]. split; [exact Hbad|].
  intros Hinv. apply Hbad.
  by apply (inv_page_inv small_KERNBASE small_PHYSTOP small_end).
Qed.

Lemma refcount_round_trip_witness :
  inv small_KERNBASE small_PHYSTOP small_end small_boot /\
  kalloc small_KERNBASE small_boot = Ok (small_page7, small_one_allocated) /\
  small_page7 <> 0 /\
  (exists s2 l,
     kfree small_KERNBASE small_PHYSTOP small_end
       small_one_allocated small_page7 = Ok s2 /\
     ref_of small_KERNBASE s2 small_page7 = Some 0 /\
     free_pages small_boot l /\ free_pages s2 l /\ NoDup l /\
     small_page7 ∈ l) /\
  (exists s2 s3 s4,
     increase_ref_counter small_KERNBASE small_one_allocated small_page7
       = Ok s2 /\
     kfree small_KERNBASE small_PHYSTOP small_end s2 small_page7 = Ok s3 /\
     ref_of small_KERNBASE s3 small_page7 = Some 1 /\
     ~ in_freelist s3 small_page7 /\
     kfree small_KERNBASE small_PHYSTOP small_end s3 small_page7 = Ok s4 /\
     ref_of small_KERNBASE s4 small_page7 = Some 0 /\
     in_freelist s4 small_page7).
Proof.
  assert (Hk : kalloc small_KERNBASE small_boot
               = Ok (small_page7, small_one_allocated))
    by (vm_compute; reflexivity).
  assert (Hne : small_page7 <> 0) by (vm_compute; discriminate).
  split; [exact small_boot_inv|]. split; [exact Hk|]. split; [exact Hne|].
  exact (refcount_round_trip small_KERNBASE small_PHYSTOP small_end
           small_KERNBASE_pos small_end_above small_PHYSTOP_fits
           small_boot small_one_allocated small_page7
           small_boot_inv Hk Hne).
Defined.

Lemma kalloc_exhaustion_witness :
  0 < small_KERNBASE /\ small_KERNBASE <= small_end /\
  freelist small_exhausted = 0 /\
  kalloc small_KERNBASE small_exhausted = Ok (0, small_exhausted) /\
  (exists s' s'',
     kfree small_KERNBASE small_PHYSTOP small_end
       small_exhausted small_page7 = Ok s' /\
     freelist s' = small_page7 /\
     kalloc small_KERNBASE s' = Ok (small_page7, s'') /\
     freelist s'' = 0 /\
     small_page7 = freelist s' /\
     mem s'' !! small_page7 = Some (Junk 5) /\
     ref_of small_KERNBASE s'' small_page7 = Some 1).
Proof.
  pose proof (kalloc_exhaustion small_KERNBASE small_PHYSTOP small_end
                small_KERNBASE_pos small_end_above)
    as (Hnull & _ & Hpop & Hagain).
  assert (Hnil0 : freelist small_exhausted = 0) by (vm_compute; reflexivity).
  split; [exact small_KERNBASE_pos|]. split; [exact small_end_above|].
  split; [exact Hnil0|].
  split; [unfold kalloc; rewrite Hnil0; reflexivity|].
  assert (Hf : exists s',
    kfree small_KERNBASE small_PHYSTOP small_end
      small_exhausted small_page7 = Ok s' /\
    freelist s' = small_page7).
  { eexists. split; [vm_compute; reflexivity | reflexivity]. }
  destruct Hf as (s' & Hk & Hhead).
  destruct (Hagain small_exhausted small_page7 s' Hnil0 Hk Hhead)
    as (s'' & Hk2 & Hnil).
  assert (Hne : small_page7 <> 0) by (vm_compute; discriminate).
  destruct (Hpop s' small_page7 s'' Hk2 Hne) as (Hr & _ & Hjunk & Hone).
  exists s', s''. split; [exact Hk|]. split; [exact Hhead|].
  split; [exact Hk2|]. split; [exact Hnil|]. split; [exact Hr|].
  split; [exact Hjunk | exact Hone].
Defined.

Lemma kfree_zero_count_pushes_witness :
  0 < small_KERNBASE /\ small_KERNBASE <= small_end /\
  small_PHYSTOP <= 2 ^ 64 /\ small_PHYSTOP mod PGSIZE = 0 /\
  managed small_PHYSTOP small_end small_page7 /\
  ref_of small_KERNBASE small_boot small_page7 = Some 0 /\
  in_freelist small_boot small_page7 /\
  (exists s', kfree small_KERNBASE small_PHYSTOP small_end
                small_boot small_page7 = Ok s' /\
     freelist s' = small_page7 /\
     mem s' !! small_page7 = Some (Run (freelist small_boot) 1) /\
     ref_of small_KERNBASE s' small_page7 = Some 0).
Proof.
  pose proof (kfree_zero_count_pushes small_KERNBASE small_PHYSTOP small_end
                small_KERNBASE_pos small_end_above small_PHYSTOP_fits
                small_PHYSTOP_aligned) as (Hpush & _ & s & Hk & Hall).
  assert (Hs : s = small_boot) by (unfold small_boot; rewrite Hk; reflexivity).
  rewrite Hs in Hall.
  destruct (Hall small_page7 small_page7_managed) as [Hc Hin].
  split; [exact small_KERNBASE_pos|]. split; [exact small_end_above|].
  split; [exact small_PHYSTOP_fits|]. split; [exact small_PHYSTOP_aligned|].
  split; [exact small_page7_managed|]. split; [exact Hc|].
  split; [exact Hin|].
  exact (Hpush small_boot small_page7 small_page7_managed Hc).
Defined.

End KallocFacts.
(** * The buffer cache: lists behind the pointers *)

Module BioFacts.
Import Bio.

(** ** Chains of pointers *)

Lemma lastp_cons p a l : lastp p (a :: l) = lastp (Buf a) l.
Proof.
  unfold lastp. destruct l as [|c l]; [done|].
  change (last (a :: c :: l)) with (last (c :: l)).
  by destruct (last (c :: l)) eqn:E; [|apply last_None in E].
Qed.

Lemma lastp_in p l : lastp p l = p \/ exists j, j ∈ l /\ lastp p l = Buf j.
Proof.
  unfold lastp. destruct (last l) as [j|] eqn:E; [right | by left].
  exists j. split; [|done]. apply last_Some in E as [l' ->].
  apply elem_of_app. right. by apply list_elem_of_singleton.
Qed.

Lemma chain_next_agree nx nx' p l q :
  nx' p = nx p -> (forall j, j ∈ l -> nx' (Buf j) = nx (Buf j)) ->
  chain_next nx p l q -> chain_next nx' p l q.
Proof.
  revert p. induction l as [|a l IH]; simpl; intros p Hp Hl.
  - by rewrite Hp.
  - intros [H1 H2]. rewrite Hp. split; [done|].
    apply IH; [apply Hl; by left | | done].
    intros j Hj. apply Hl. by right.
Qed.

Lemma chain_prev_agree pv pv' p l q :
  pv' q = pv q -> (forall j, j ∈ l -> pv' (Buf j) = pv (Buf j)) ->
  chain_prev pv p l q -> chain_prev pv' p l q.
Proof.
  revert p. induction l as [|a l IH]; simpl; intros p Hq Hl.
  - by rewrite Hq.
  - intros [H1 H2]. rewrite Hl by by left. split; [done|].
    apply IH; [done | | done]. intros j Hj. apply Hl. by right.
Qed.

(** Every node of a chain but the end can be dereferenced. *)
Lemma chain_next_valid nx p l q j :
  chain_next nx p l q -> j ∈ l -> is_Some (nx (Buf j)).
Proof.
  revert p. induction l as [|a l IH]; simpl; intros p H Hj.
  - by apply elem_of_nil in Hj.
  - destruct H as [_ H]. apply elem_of_cons in Hj as [->|Hj]; [|eauto].
    destruct l; simpl in H; [eauto | destruct H; eauto].
Qed.

Lemma chain_next_start nx p l q : chain_next nx p l q -> nx p = Some (hdp l q).
Proof. destruct l; simpl; [done | by intros [? _]]. Qed.

Lemma chain_prev_end pv p l q :
  chain_prev pv p l q -> pv q = Some (lastp p l).
Proof.
  revert p. induction l as [|a l IH]; simpl; intros p; [done|].
  intros [_ H]. rewrite lastp_cons. by apply IH.
Qed.

(** Taking [b] out of a chain: its predecessor now points to its
    successor. *)
Lemma chain_next_unlink nx p l1 b l2 q :
  NoDup (l1 ++ b :: l2) -> (forall j, j ∈ l1 ++ b :: l2 -> p <> Buf j) ->
  chain_next nx p (l1 ++ b :: l2) q ->
  chain_next (upd nx (lastp p l1) (hdp l2 q)) p (l1 ++ l2) q /\
  nx (Buf b) = Some (hdp l2 q) /\ nx (lastp p l1) = Some (Buf b).
Proof.
  revert p. induction l1 as [|a l1 IH]; intros p Hnd Hp.
  - simpl. intros [Hpb Hb]. unfold lastp. simpl.
    split; [|split; [by apply chain_next_start | done]].
    apply NoDup_cons in Hnd as [Hb2 Hnd].
    destruct l2 as [|j l2]; simpl in *.
    + unfold upd. by rewrite decide_True.
    + destruct Hb as [Hbj Hj]. split; [unfold upd; by rewrite decide_True|].
      eapply chain_next_agree; [| |exact Hj].
      * unfold upd. rewrite decide_False; [done|].
        intros E. eapply Hp; [|symmetry; exact E]. right. by left.
      * intros k Hk. unfold upd. rewrite decide_False; [done|].
        intros E. eapply Hp; [|symmetry; exact E]. right. by right.
  - simpl. intros [Hpa Ha]. rewrite lastp_cons.
    apply NoDup_cons in Hnd as [Ha2 Hnd].
    destruct (IH (Buf a) Hnd) as (H1 & H2 & H3); [|done|].
    { intros j Hj E. injection E as ->. done. }
    split; [|done]. split; [|done].
    unfold upd at 1. rewrite decide_False; [done|].
    destruct (lastp_in (Buf a) l1) as [E|(j & Hj & E)]; rewrite E.
    + intros E2. eapply Hp; [|exact E2]. by left.
    + intros E2. eapply Hp; [|exact E2]. right. apply elem_of_app. by left.
Qed.

Lemma chain_prev_unlink pv p l1 b l2 q :
  NoDup (l1 ++ b :: l2) -> (forall j, j ∈ l1 ++ b :: l2 -> q <> Buf j) ->
  chain_prev pv p (l1 ++ b :: l2) q ->
  chain_prev (upd pv (hdp l2 q) (lastp p l1)) p (l1 ++ l2) q /\
  pv (Buf b) = Some (lastp p l1) /\ pv (hdp l2 q) = Some (Buf b).
Proof.
  revert p. induction l1 as [|a l1 IH]; intros p Hnd Hq.
  - simpl. intros [Hbp Hb]. unfold lastp at 1 2. simpl.
    apply NoDup_cons in Hnd as [Hb2 Hnd].
    destruct l2 as [|j l2]; simpl in *.
    + split; [|done]. unfold upd. by rewrite decide_True.
    + destruct Hb as [Hjb Hj]. split; [|done].
      split; [unfold upd; by rewrite decide_True|].
      apply NoDup_cons in Hnd as [Hj2 Hnd].
      eapply chain_prev_agree; [| |exact Hj].
      * unfold upd. rewrite decide_False; [done|].
        eapply Hq. right. by left.
      * intros k Hk. unfold upd. rewrite decide_False; [done|].
        intros E. injection E as ->. done.
  - simpl. intros [Hap Ha]. rewrite lastp_cons.
    apply NoDup_cons in Hnd as [Ha2 Hnd].
    destruct (IH (Buf a) Hnd) as (H1 & H2 & H3); [|done|].
    { intros j Hj. apply Hq. by right. }
    split; [|done]. split; [|done].
    unfold upd at 1. rewrite decide_False; [done|].
    destruct l2 as [|j l2]; simpl.
    + intros E. eapply Hq; [|symmetry; exact E]. by left.
    + intros E. injection E as <-. apply Ha2.
      apply elem_of_app. right. right. by left.
Qed.

(** Putting [b] in front of a circular chain. *)
Lemma chain_next_push nx h b l :
  b ∉ l ->
  chain_next nx (Head h) l (Head h) ->
  chain_next (upd (upd nx (Buf b) (hdp l (Head h))) (Head h) (Buf b))
    (Head h) (b :: l) (Head h).
Proof.
  intros Hb H. simpl. split; [unfold upd; by rewrite decide_True|].
  destruct l as [|j l]; simpl in *.
  - unfold upd. rewrite decide_False by done. by rewrite decide_True.
  - destruct H as [_ H].
    split; [unfold upd; rewrite decide_False by done; by rewrite decide_True|].
    eapply chain_next_agree; [| |exact H].
    + unfold upd. rewrite !decide_False; [done | | done].
      intros E. injection E as ->. apply Hb. by left.
    + intros k Hk. unfold upd. rewrite !decide_False; [done | | done].
      intros E. injection E as ->. apply Hb. by right.
Qed.

Lemma chain_prev_push pv h b l :
  b ∉ l -> NoDup l ->
  chain_prev pv (Head h) l (Head h) ->
  chain_prev (upd (upd pv (Buf b) (Head h)) (hdp l (Head h)) (Buf b))
    (Head h) (b :: l) (Head h).
Proof.
  intros Hb Hnd H. simpl. destruct l as [|j l]; simpl in *.
  - split; unfold upd.
    + rewrite decide_False by done. by rewrite decide_True.
    + by rewrite decide_True.
  - destruct H as [_ H]. apply NoDup_cons in Hnd as [Hj Hnd].
    assert (b <> j) by (intros ->; apply Hb; by left).
    split; [|split]; unfold upd.
    + rewrite decide_False by congruence. by rewrite decide_True.
    + by rewrite decide_True.
    + eapply chain_prev_agree; [| |exact H].
      * by rewrite !decide_False.
      * intros k Hk. rewrite !decide_False; [done | |].
        -- intros E. injection E as ->. apply Hb. by right.
        -- intros E. injection E as ->. done.
Qed.

(** ** Buckets *)

Lemma upd_eq f p v : upd f p v p = Some v.
Proof. unfold upd. by rewrite decide_True. Qed.

Lemma upd_ne f p v x : x <> p -> upd f p v x = f x.
Proof. unfold upd. intros H. by rewrite decide_False. Qed.

Lemma lastp_head_ne i l k : k <> i -> lastp (Head i) l <> Head k.
Proof.
  intros Hne. destruct (lastp_in (Head i) l) as [->|(j & _ & ->)]; congruence.
Qed.

Lemma hdp_in q l : hdp l q = q \/ exists j, j ∈ l /\ hdp l q = Buf j.
Proof. destruct l as [|j l]; [by left | right]. exists j. split; [by left | done]. Qed.

Lemma ring_agree nx pv nx' pv' i l :
  nx' (Head i) = nx (Head i) -> pv' (Head i) = pv (Head i) ->
  (forall j, j ∈ l -> nx' (Buf j) = nx (Buf j) /\ pv' (Buf j) = pv (Buf j)) ->
  ring nx pv i l -> ring nx' pv' i l.
Proof.
  intros Hn Hp Hl [H1 H2]. split.
  - eapply chain_next_agree; [done | | done]. intros j Hj. by apply Hl.
  - eapply chain_prev_agree; [done | | done]. intros j Hj. by apply Hl.
Qed.

Lemma rings_ext nx pv nx' pv' bk :
  (forall x, nx' x = nx x) -> (forall x, pv' x = pv x) ->
  rings nx pv bk -> rings nx' pv' bk.
Proof.
  intros Hn Hp [Hlen H]. split; [done|]. intros i l Hl.
  eapply ring_agree; [| | |by apply H]; auto.
Qed.

Lemma disjoint_unlink bk i l1 b l2 :
  disjoint_buckets bk -> bk !! i = Some (l1 ++ b :: l2) ->
  disjoint_buckets (<[i := l1 ++ l2]> bk) /\
  forall k l, <[i := l1 ++ l2]> bk !! k = Some l -> b ∉ l.
Proof.
  intros [Hnd Hdj] Hi.
  assert (Hlt : (i < length bk)%nat) by by eapply lookup_lt_Some.
  pose proof (Hnd _ _ Hi) as Hndi.
  apply NoDup_app in Hndi as (Hnd1 & Hd12 & Hnd2).
  apply NoDup_cons in Hnd2 as [Hb2 Hnd2].
  assert (Hsub : forall j, j ∈ l1 ++ l2 -> j ∈ l1 ++ b :: l2).
  { intros j [?|?]%elem_of_app; apply elem_of_app; [by left | right; by right]. }
  assert (Hlk : forall k l, <[i := l1 ++ l2]> bk !! k = Some l ->
    (k = i /\ l = l1 ++ l2) \/ (k <> i /\ bk !! k = Some l)).
  { intros k l Hk. destruct (decide (k = i)) as [->|Hne].
    - rewrite list_lookup_insert_eq in Hk by done. left. split; congruence.
    - rewrite list_lookup_insert_ne in Hk by done. by right. }
  split; [split|].
  - intros k l Hk. destruct (Hlk _ _ Hk) as [[-> ->]|[Hne Hk']]; [|eauto].
    apply NoDup_app. split; [done|]. split; [|done].
    intros j Hj1 Hj2. eapply Hd12; [done|]. by right.
  - intros k1 k2 la lb j Ha Hb Hja Hjb.
    destruct (Hlk _ _ Ha) as [[-> ->]|[Hne1 Ha']];
      destruct (Hlk _ _ Hb) as [[-> ->]|[Hne2 Hb']]; try done.
    + eapply Hdj; [exact Hi | exact Hb' | by apply Hsub | done].
    + eapply Hdj; [exact Ha' | exact Hi | done | by apply Hsub].
    + eapply Hdj; eauto.
  - intros k l Hk Hin. destruct (Hlk _ _ Hk) as [[-> ->]|[Hne Hk']].
    + apply elem_of_app in Hin as [Hin|Hin]; [|done].
      eapply Hd12; [done|]. by left.
    + apply Hne. eapply Hdj; [exact Hk' | exact Hi | done |].
      apply elem_of_app. right. by left.
Qed.

Lemma disjoint_push bk h b l :
  disjoint_buckets bk -> (forall k lk, bk !! k = Some lk -> b ∉ lk) ->
  bk !! h = Some l ->
  disjoint_buckets (<[h := b :: l]> bk).
Proof.
  intros [Hnd Hdj] Hb Hh.
  assert (Hlt : (h < length bk)%nat) by by eapply lookup_lt_Some.
  assert (Hlk : forall k lk, <[h := b :: l]> bk !! k = Some lk ->
    (k = h /\ lk = b :: l) \/ (k <> h /\ bk !! k = Some lk)).
  { intros k lk Hk. destruct (decide (k = h)) as [->|Hne].
    - rewrite list_lookup_insert_eq in Hk by done. left. split; congruence.
    - rewrite list_lookup_insert_ne in Hk by done. by right. }
  split.
  - intros k lk Hk. destruct (Hlk _ _ Hk) as [[-> ->]|[Hne Hk']]; [|eauto].
    apply NoDup_cons. split; [by eapply Hb | by eapply Hnd].
  - intros k1 k2 la lb j Ha Hbb Hja Hjb.
    destruct (Hlk _ _ Ha) as [[-> ->]|[Hne1 Ha']];
      destruct (Hlk _ _ Hbb) as [[-> ->]|[Hne2 Hb']]; try done.
    + apply elem_of_cons in Hja as [->|Hja]; [by eapply Hb in Hjb|].
      eapply Hdj; eauto.
    + apply elem_of_cons in Hjb as [->|Hjb]; [by eapply Hb in Hja|].
      eapply Hdj; eauto.
    + eapply Hdj; eauto.
Qed.

(** Unlinking [b] from bucket [i] changes two pointers and leaves every
    other bucket as it is. *)
Lemma rings_unlink nx pv bk i l1 b l2 :
  rings nx pv bk -> disjoint_buckets bk ->
  bk !! i = Some (l1 ++ b :: l2) ->
  rings (upd nx (lastp (Head i) l1) (hdp l2 (Head i)))
        (upd pv (hdp l2 (Head i)) (lastp (Head i) l1))
        (<[i := l1 ++ l2]> bk) /\
  nx (Buf b) = Some (hdp l2 (Head i)) /\
  pv (Buf b) = Some (lastp (Head i) l1) /\
  nx (lastp (Head i) l1) = Some (Buf b) /\
  pv (hdp l2 (Head i)) = Some (Buf b).
Proof.
  intros [Hlen Hr] [Hnd Hdj] Hi.
  assert (Hlt : (i < length bk)%nat) by by eapply lookup_lt_Some.
  destruct (Hr _ _ Hi) as [Hcn Hcp]. pose proof (Hnd _ _ Hi) as Hndi.
  assert (Hhead : forall j, j ∈ l1 ++ b :: l2 -> Head i <> Buf j) by done.
  destruct (chain_next_unlink _ _ _ _ _ _ Hndi Hhead Hcn)
    as (Hn1 & Hn2 & Hn3).
  destruct (chain_prev_unlink _ _ _ _ _ _ Hndi Hhead Hcp)
    as (Hp1 & Hp2 & Hp3).
  split; [|done]. split; [by rewrite length_insert|].
  intros k l Hk. destruct (decide (k = i)) as [->|Hne].
  - rewrite list_lookup_insert_eq in Hk by done. injection Hk as <-. done.
  - rewrite list_lookup_insert_ne in Hk by done.
    assert (HP : forall x, (x = Head k \/ exists j, j ∈ l /\ x = Buf j) ->
      x <> lastp (Head i) l1).
    { intros x Hx E.
      destruct (lastp_in (Head i) l1) as [E2|(a & Ha & E2)];
        rewrite E2 in E; destruct Hx as [->|(j & Hj & ->)]; try congruence.
      injection E as ->. apply Hne. eapply Hdj; [exact Hk | exact Hi | done |].
      apply elem_of_app. by left. }
    assert (HN : forall x, (x = Head k \/ exists j, j ∈ l /\ x = Buf j) ->
      x <> hdp l2 (Head i)).
    { intros x Hx E.
      destruct (hdp_in (Head i) l2) as [E2|(a & Ha & E2)];
        rewrite E2 in E; destruct Hx as [->|(j & Hj & ->)]; try congruence.
      injection E as ->. apply Hne. eapply Hdj; [exact Hk | exact Hi | done |].
      apply elem_of_app. right. by right. }
    eapply ring_agree; [| | |by apply Hr].
    + apply upd_ne, HP. by left.
    + apply upd_ne, HN. by left.
    + intros j Hj. split; apply upd_ne; [apply HP | apply HN]; right; eauto.
Qed.

(** Linking a buffer that is in no bucket behind [head[h]]. *)
Lemma rings_push nx pv bk h b l :
  rings nx pv bk -> disjoint_buckets bk ->
  (forall k lk, bk !! k = Some lk -> b ∉ lk) ->
  bk !! h = Some l ->
  rings (upd (upd nx (Buf b) (hdp l (Head h))) (Head h) (Buf b))
        (upd (upd pv (Buf b) (Head h)) (hdp l (Head h)) (Buf b))
        (<[h := b :: l]> bk) /\
  nx (Head h) = Some (hdp l (Head h)).
Proof.
  intros [Hlen Hr] [Hnd Hdj] Hb Hh.
  assert (Hlt : (h < length bk)%nat) by by eapply lookup_lt_Some.
  destruct (Hr _ _ Hh) as [Hcn Hcp].
  split; [|by apply chain_next_start]. split; [by rewrite length_insert|].
  intros k lk Hk. destruct (decide (k = h)) as [->|Hne].
  - rewrite list_lookup_insert_eq in Hk by done. injection Hk as <-. split.
    + apply chain_next_push; [by eapply Hb | done].
    + apply chain_prev_push; [by eapply Hb | by eapply Hnd | done].
  - rewrite list_lookup_insert_ne in Hk by done.
    assert (HF : forall x, (x = Head k \/ exists j, j ∈ lk /\ x = Buf j) ->
      x <> hdp l (Head h)).
    { intros x Hx E.
      destruct (hdp_in (Head h) l) as [E2|(a & Ha & E2)];
        rewrite E2 in E; destruct Hx as [->|(j & Hj & ->)]; try congruence.
      injection E as ->. apply Hne. eapply Hdj; eauto. }
    assert (HB : forall x, (x = Head k \/ exists j, j ∈ lk /\ x = Buf j) ->
      x <> Buf b).
    { intros x [->|(j & Hj & ->)] E; [done|]. injection E as ->.
      by eapply Hb in Hj. }
    assert (HH : forall x, (x = Head k \/ exists j, j ∈ lk /\ x = Buf j) ->
      x <> Head h).
    { intros x [->|(j & Hj & ->)] E; congruence. }
    eapply ring_agree; [| | |by apply Hr].
    + rewrite !upd_ne; [done | apply HB | apply HH]; by left.
    + rewrite !upd_ne; [done | apply HB | apply HF]; by left.
    + intros j Hj. split; rewrite !upd_ne; try done;
        first [apply HB | apply HH | apply HF]; right; eauto.
Qed.

(** ** Loads and stores *)

Lemma bind_Ret {A B} (m : M A) (k : A -> M B) s a s' :
  m s = Ret a s' -> (x <- m ;; k x) s = k a s'.
Proof. unfold bind. by intros ->. Qed.

Lemma load_Ret s p b : deref s p = Some b -> load p s = Ret b s.
Proof. unfold load. by intros ->. Qed.

Lemma modify_Ret s p f b :
  deref s p = Some b -> modify p f s = Ret tt (update s p (f b)).
Proof. unfold modify. by intros ->. Qed.

Lemma deref_update s p b x :
  is_Some (deref s p) ->
  deref (update s p b) x = if decide (x = p) then Some b else deref s x.
Proof.
  intros Hp. destruct p as [|i|j]; simpl in *.
  - by destruct Hp.
  - destruct x as [|i'|j']; simpl; try done; try by rewrite decide_False.
    destruct (decide (i' = i)) as [->|Hne].
    + rewrite decide_True by done. apply list_lookup_insert_eq.
      by apply lookup_lt_is_Some.
    + rewrite decide_False by congruence. by apply list_lookup_insert_ne.
  - destruct x as [|i'|j']; simpl; try done; try by rewrite decide_False.
    destruct (decide (j' = j)) as [->|Hne].
    + rewrite decide_True by done. apply list_lookup_insert_eq.
      by apply lookup_lt_is_Some.
    + rewrite decide_False by congruence. by apply list_lookup_insert_ne.
Qed.

Lemma trace_update s p b : trace (update s p b) = trace s.
Proof. by destruct p. Qed.

Lemma walk_bound_update s p b : walk_bound (update s p b) = walk_bound s.
Proof.
  unfold walk_bound. destruct p; simpl; by rewrite ?length_insert.
Qed.

Lemma bcache_buf_update_head s i b :
  bcache_buf (update s (Head i) b) = bcache_buf s.
Proof. done. Qed.

(** What one store does to the three views of the memory. *)
Record stored (s s' : bcache) : Prop := {
  stored_trace : trace s' = trace s;
  stored_bound : walk_bound s' = walk_bound s;
  stored_valid : forall x, is_Some (deref s' x) <-> is_Some (deref s x)
}.

Lemma stored_refl s : stored s s.
Proof. by split. Qed.

Lemma stored_trans s1 s2 s3 : stored s1 s2 -> stored s2 s3 -> stored s1 s3.
Proof.
  intros [T1 B1 V1] [T2 B2 V2]. split; [congruence | congruence |].
  intros x. by rewrite V2.
Qed.

Lemma stored_update s p b : is_Some (deref s p) -> stored s (update s p b).
Proof.
  intros Hp. split; [apply trace_update | apply walk_bound_update |].
  intros x. rewrite deref_update by done. case_decide; [subst|done].
  split; eauto.
Qed.

Lemma set_next_spec s p v :
  is_Some (deref s p) ->
  exists s', modify p (with_next v) s = Ret tt s' /\ stored s s' /\
    (forall x, next_of s' x = upd (next_of s) p v x) /\
    (forall x, prev_of s' x = prev_of s x) /\
    (forall x, payload_of s' x = payload_of s x).
Proof.
  intros [b Hb]. eexists. split; [by apply modify_Ret|].
  split; [by apply stored_update|].
  unfold next_of, prev_of, payload_of, upd.
  split; [|split]; intros x; rewrite deref_update by done;
    case_decide; subst; rewrite ?Hb; done.
Qed.

Lemma set_prev_spec s p v :
  is_Some (deref s p) ->
  exists s', modify p (with_prev v) s = Ret tt s' /\ stored s s' /\
    (forall x, next_of s' x = next_of s x) /\
    (forall x, prev_of s' x = upd (prev_of s) p v x) /\
    (forall x, payload_of s' x = payload_of s x).
Proof.
  intros [b Hb]. eexists. split; [by apply modify_Ret|].
  split; [by apply stored_update|].
  unfold next_of, prev_of, payload_of, upd.
  split; [|split]; intros x; rewrite deref_update by done;
    case_decide; subst; rewrite ?Hb; done.
Qed.

(** A store that leaves the links of the buffer alone. *)
Lemma set_payload_spec s p f :
  (forall b, next (f b) = next b /\ prev (f b) = prev b) ->
  is_Some (deref s p) ->
  exists s', modify p f s = Ret tt s' /\ stored s s' /\
    (forall x, next_of s' x = next_of s x) /\
    (forall x, prev_of s' x = prev_of s x) /\
    (forall x, deref s' x = if decide (x = p) then f <$> deref s p
                            else deref s x).
Proof.
  intros Hf [b Hb]. eexists. split; [by apply modify_Ret|].
  split; [by apply stored_update|].
  unfold next_of, prev_of.
  split; [|split]; intros x; rewrite deref_update by done;
    case_decide; subst; rewrite ?Hb; simpl; try done;
    f_equal; apply Hf.
Qed.

Lemma next_of_is_Some s p n : next_of s p = Some n -> is_Some (deref s p).
Proof. unfold next_of. destruct (deref s p); [eauto | done]. Qed.

Lemma prev_of_is_Some s p n : prev_of s p = Some n -> is_Some (deref s p).
Proof. unfold prev_of. destruct (deref s p); [eauto | done]. Qed.

Lemma load_links s p n q :
  next_of s p = Some n -> prev_of s p = Some q ->
  exists bf, load p s = Ret bf s /\ next bf = n /\ prev bf = q.
Proof.
  unfold next_of, prev_of, load. destruct (deref s p) as [bf|]; [|done].
  simpl. intros [= <-] [= <-]. eauto.
Qed.

Lemma head_next_Ret s i n :
  next_of s (Head i) = Some n -> head_next i s = Ret n s.
Proof.
  unfold next_of, head_next, bind, load.
  destruct (deref s (Head i)); [|done]. simpl. by intros [= <-].
Qed.

Lemma head_prev_Ret s i n :
  prev_of s (Head i) = Some n -> head_prev i s = Ret n s.
Proof.
  unfold prev_of, head_prev, bind, load.
  destruct (deref s (Head i)); [|done]. simpl. by intros [= <-].
Qed.

(** ** Unlinking and linking *)

(** Lines 122-123 change the [next] of the predecessor and the [prev] of
    the successor. *)
Lemma unlink_spec s b P N :
  next_of s b = Some N -> prev_of s b = Some P -> P <> b ->
  is_Some (deref s P) -> is_Some (deref s N) ->
  exists s', unlink b s = Ret tt s' /\ stored s s' /\
    (forall x, next_of s' x = upd (next_of s) P N x) /\
    (forall x, prev_of s' x = upd (prev_of s) N P x) /\
    (forall x, payload_of s' x = payload_of s x).
Proof.
  intros Hn Hp Hne HP HN. unfold unlink.
  destruct (load_links s b N P Hn Hp) as (bf & Hl & <- & <-).
  rewrite (bind_Ret _ _ _ _ _ Hl).
  destruct (set_next_spec s (prev bf) (next bf) HP)
    as (s1 & H1 & St1 & Hn1 & Hp1 & Hd1).
  rewrite (bind_Ret _ _ _ _ _ H1).
  assert (Hn' : next_of s1 b = Some (next bf))
    by (by rewrite Hn1, upd_ne).
  assert (Hp' : prev_of s1 b = Some (prev bf)) by by rewrite Hp1.
  destruct (load_links s1 b _ _ Hn' Hp') as (bf' & Hl' & En & Ep).
  rewrite (bind_Ret _ _ _ _ _ Hl'), En, Ep.
  assert (HN1 : is_Some (deref s1 (next bf)))
    by by apply (stored_valid _ _ St1).
  destruct (set_prev_spec s1 (next bf) (prev bf) HN1)
    as (s2 & H2 & St2 & Hn2 & Hp2 & Hd2).
  exists s2. split; [done|]. split; [by eapply stored_trans|].
  split; [|split].
  - intros x. by rewrite Hn2, Hn1.
  - intros x. rewrite Hp2. unfold upd. by rewrite Hp1.
  - intros x. by rewrite Hd2, Hd1.
Qed.

(** Lines 185-186 do the same with the two stores swapped. *)
Lemma unlink_brelse_spec s b P N :
  next_of s b = Some N -> prev_of s b = Some P -> N <> b ->
  is_Some (deref s P) -> is_Some (deref s N) ->
  exists s', unlink_brelse b s = Ret tt s' /\ stored s s' /\
    (forall x, next_of s' x = upd (next_of s) P N x) /\
    (forall x, prev_of s' x = upd (prev_of s) N P x) /\
    (forall x, payload_of s' x = payload_of s x).
Proof.
  intros Hn Hp Hne HP HN. unfold unlink_brelse.
  destruct (load_links s b N P Hn Hp) as (bf & Hl & <- & <-).
  rewrite (bind_Ret _ _ _ _ _ Hl).
  destruct (set_prev_spec s (next bf) (prev bf) HN)
    as (s1 & H1 & St1 & Hn1 & Hp1 & Hd1).
  rewrite (bind_Ret _ _ _ _ _ H1).
  assert (Hn' : next_of s1 b = Some (next bf)) by by rewrite Hn1.
  assert (Hp' : prev_of s1 b = Some (prev bf))
    by (by rewrite Hp1, upd_ne).
  destruct (load_links s1 b _ _ Hn' Hp') as (bf' & Hl' & En & Ep).
  rewrite (bind_Ret _ _ _ _ _ Hl'), En, Ep.
  assert (HP1 : is_Some (deref s1 (prev bf)))
    by by apply (stored_valid _ _ St1).
  destruct (set_next_spec s1 (prev bf) (next bf) HP1)
    as (s2 & H2 & St2 & Hn2 & Hp2 & Hd2).
  exists s2. split; [done|]. split; [by eapply stored_trans|].
  split; [|split].
  - intros x. rewrite Hn2. unfold upd. by rewrite Hn1.
  - intros x. by rewrite Hp2, Hp1.
  - intros x. by rewrite Hd2, Hd1.
Qed.

(** Lines 124-127. *)
Lemma link_mru_spec s h b F :
  next_of s (Head h) = Some F -> b <> Head h -> F <> b ->
  is_Some (deref s b) -> is_Some (deref s F) ->
  exists s', link_mru h b s = Ret tt s' /\ stored s s' /\
    (forall x, next_of s' x = upd (upd (next_of s) b F) (Head h) b x) /\
    (forall x, prev_of s' x = upd (upd (prev_of s) b (Head h)) F b x) /\
    (forall x, payload_of s' x = payload_of s x).
Proof.
  intros HF Hbh HFb Hb HFv. unfold link_mru.
  rewrite (bind_Ret _ _ _ _ _ (head_next_Ret _ _ _ HF)).
  destruct (set_next_spec s b F Hb) as (s1 & H1 & St1 & Hn1 & Hp1 & Hd1).
  rewrite (bind_Ret _ _ _ _ _ H1).
  destruct (set_prev_spec s1 b (Head h)) as (s2 & H2 & St2 & Hn2 & Hp2 & Hd2);
    [by apply (stored_valid _ _ St1)|].
  rewrite (bind_Ret _ _ _ _ _ H2).
  assert (HF2 : next_of s2 (Head h) = Some F).
  { rewrite Hn2, Hn1. by rewrite upd_ne. }
  rewrite (bind_Ret _ _ _ _ _ (head_next_Ret _ _ _ HF2)).
  destruct (set_prev_spec s2 F b) as (s3 & H3 & St3 & Hn3 & Hp3 & Hd3);
    [by apply (stored_valid _ _ St2), (stored_valid _ _ St1)|].
  rewrite (bind_Ret _ _ _ _ _ H3).
  destruct (set_next_spec s3 (Head h) b) as (s4 & H4 & St4 & Hn4 & Hp4 & Hd4).
  { apply (stored_valid _ _ St3), (stored_valid _ _ St2), (stored_valid _ _ St1).
    by eapply next_of_is_Some. }
  exists s4. split; [done|].
  split; [eauto using stored_trans|]. split; [|split].
  - intros x. rewrite Hn4. destruct (decide (x = Head h)) as [->|Hx].
    + by rewrite !upd_eq.
    + rewrite !(upd_ne _ (Head h)) by done. by rewrite Hn3, Hn2, Hn1.
  - intros x. rewrite Hp4, Hp3. destruct (decide (x = F)) as [->|Hx].
    + by rewrite !upd_eq.
    + rewrite !(upd_ne _ F) by done. rewrite Hp2. unfold upd.
      by rewrite Hp1.
  - intros x. by rewrite Hd4, Hd3, Hd2, Hd1.
Qed.

(** ** The two scans *)

Lemma holds_block_deref s d bn j bf :
  deref s (Buf j) = Some bf ->
  holds_block s d bn j = (dev bf =? d) && (blockno bf =? bn).
Proof. unfold holds_block. simpl. by intros ->. Qed.

Lemma unused_deref s j bf :
  deref s (Buf j) = Some bf -> unused s j = (refcnt bf =? 0).
Proof. unfold unused. simpl. by intros ->. Qed.

Lemma find_cached_S fuel hd b d bn :
  find_cached (S fuel) hd b d bn =
    if decide (b = hd) then ret None
    else bf <- load b ;;
         if (dev bf =? d) && (blockno bf =? bn) then ret (Some b)
         else find_cached fuel hd (next bf) d bn.
Proof. reflexivity. Qed.

Lemma find_unused_S fuel hd b :
  find_unused (S fuel) hd b =
    if decide (b = hd) then ret None
    else bf <- load b ;;
         if refcnt bf =? 0 then ret (Some b)
         else find_unused fuel hd (prev bf).
Proof. reflexivity. Qed.

(** The loop of lines 84-92 (and 105-114) returns the first buffer of the
    bucket that holds the block. *)
Lemma find_cached_spec s i d bn : forall l p fuel,
  chain_next (next_of s) p l (Head i) -> (length l < fuel)%nat ->
  find_cached fuel (Head i) (hdp l (Head i)) d bn s
    = Ret (Buf <$> find (holds_block s d bn) l) s.
Proof.
  induction l as [|j l IH]; intros p fuel Hc Hf.
  - destruct fuel; [simpl in Hf; lia|].
    rewrite find_cached_S. simpl hdp. by rewrite decide_True.
  - destruct fuel; [simpl in Hf; lia|].
    rewrite find_cached_S. simpl hdp. simpl find. simpl in Hc, Hf.
    destruct Hc as [_ Hc]. rewrite decide_False by done.
    pose proof (chain_next_start _ _ _ _ Hc) as Hn.
    unfold next_of in Hn. destruct (deref s (Buf j)) as [bf|] eqn:Hbf; [|done].
    simpl in Hn. injection Hn as Hn.
    rewrite (bind_Ret _ _ _ _ _ (load_Ret _ _ _ Hbf)).
    rewrite (holds_block_deref _ _ _ _ _ Hbf).
    destruct ((dev bf =? d) && (blockno bf =? bn)); [done|].
    rewrite Hn. apply (IH (Buf j)); [done | lia].
Qed.

Lemma chain_prev_snoc pv j q : forall l p,
  chain_prev pv p (l ++ [j]) q ->
  chain_prev pv p l (Buf j) /\ pv q = Some (Buf j).
Proof.
  induction l as [|a l IH]; simpl; intros p.
  - by intros [? ?].
  - intros [Ha H]. destruct (IH _ H). done.
Qed.

Lemma lastp_snoc p l j : lastp p (l ++ [j]) = Buf j.
Proof. unfold lastp. by rewrite last_snoc. Qed.

(** The loop of line 120 returns the buffer without holder that is
    nearest to the least recently used end. *)
Lemma find_unused_spec s i : forall l q fuel,
  chain_prev (prev_of s) (Head i) l q -> (length l < fuel)%nat ->
  find_unused fuel (Head i) (lastp (Head i) l) s
    = Ret (Buf <$> find (unused s) (rev l)) s.
Proof.
  induction l as [|j l IH] using rev_ind; intros q fuel Hc Hf.
  - destruct fuel; [simpl in Hf; lia|].
    rewrite find_unused_S. unfold lastp. simpl last. by rewrite decide_True.
  - destruct fuel; [rewrite length_app in Hf; simpl in Hf; lia|].
    rewrite find_unused_S, lastp_snoc, rev_unit. simpl find.
    apply chain_prev_snoc in Hc as [Hc _].
    rewrite decide_False by done.
    pose proof (chain_prev_end _ _ _ _ Hc) as Hp.
    unfold prev_of in Hp. destruct (deref s (Buf j)) as [bf|] eqn:Hbf; [|done].
    simpl in Hp. injection Hp as Hp.
    rewrite (bind_Ret _ _ _ _ _ (load_Ret _ _ _ Hbf)).
    rewrite (unused_deref _ _ _ Hbf).
    destruct (refcnt bf =? 0); [done|].
    rewrite Hp. apply (IH (Buf j)); [done|].
    rewrite length_app in Hf. simpl in Hf. lia.
Qed.

(** ** Moving a buffer between buckets *)

Lemma rep_valid_buf s bk i l j :
  rep s bk -> bk !! i = Some l -> j ∈ l -> is_Some (deref s (Buf j)).
Proof.
  intros [[_ Hr] _] Hi Hj. destruct (Hr _ _ Hi) as [Hc _].
  destruct (chain_next_valid _ _ _ _ _ Hc Hj) as [n Hn].
  by eapply next_of_is_Some.
Qed.

Lemma rep_valid_head s bk i l :
  rep s bk -> bk !! i = Some l -> is_Some (deref s (Head i)).
Proof.
  intros [[_ Hr] _] Hi. destruct (Hr _ _ Hi) as [Hc _].
  eapply next_of_is_Some. by apply chain_next_start in Hc.
Qed.

Lemma rep_ext s s' bk :
  (forall x, next_of s' x = next_of s x) ->
  (forall x, prev_of s' x = prev_of s x) ->
  rep s bk -> rep s' bk.
Proof. intros Hn Hp [Hr Hd]. split; [by eapply rings_ext | done]. Qed.

(** Lines 122-123 on a buffer of bucket [i]. *)
Lemma unlink_rep (order : bool) s bk i l1 j l2 :
  rep s bk -> bk !! i = Some (l1 ++ j :: l2) ->
  exists s', (if order then unlink (Buf j) else unlink_brelse (Buf j)) s
               = Ret tt s' /\
    stored s s' /\
    rings (next_of s') (prev_of s') (<[i := l1 ++ l2]> bk) /\
    disjoint_buckets (<[i := l1 ++ l2]> bk) /\
    (forall k l, <[i := l1 ++ l2]> bk !! k = Some l -> j ∉ l) /\
    (forall x, payload_of s' x = payload_of s x).
Proof.
  intros [Hr Hd] Hi.
  destruct (rings_unlink _ _ _ _ _ _ _ Hr Hd Hi) as (Hr' & Hn & Hp & HP & HN).
  destruct (disjoint_unlink _ _ _ _ _ Hd Hi) as [Hd' Hfresh].
  pose proof (proj1 Hd _ _ Hi) as Hnd.
  apply NoDup_app in Hnd as (_ & H12 & Hnd2).
  apply NoDup_cons in Hnd2 as [Hj2 _].
  assert (HPj : lastp (Head i) l1 <> Buf j).
  { destruct (lastp_in (Head i) l1) as [->|(a & Ha & ->)]; [done|].
    intros [= ->]. eapply H12; [done|]. by left. }
  assert (HNj : hdp l2 (Head i) <> Buf j).
  { destruct (hdp_in (Head i) l2) as [->|(a & Ha & ->)]; [done|].
    by intros [= ->]. }
  assert (Hspec : exists s',
    (if order then unlink (Buf j) else unlink_brelse (Buf j)) s = Ret tt s' /\
    stored s s' /\
    (forall x, next_of s' x =
       upd (next_of s) (lastp (Head i) l1) (hdp l2 (Head i)) x) /\
    (forall x, prev_of s' x =
       upd (prev_of s) (hdp l2 (Head i)) (lastp (Head i) l1) x) /\
    (forall x, payload_of s' x = payload_of s x)).
  { destruct order;
      [apply unlink_spec | apply unlink_brelse_spec]; try done;
      first [by eapply next_of_is_Some | by eapply prev_of_is_Some]. }
  destruct Hspec as (s' & Hrun & St & Hn' & Hp' & Hd3).
  exists s'. split; [done|]. split; [done|].
  split; [by eapply rings_ext|]. done.
Qed.

(** Lines 124-127 on a buffer that is in no bucket. *)
Lemma link_mru_rep s bk h l j :
  rings (next_of s) (prev_of s) bk -> disjoint_buckets bk ->
  (forall k lk, bk !! k = Some lk -> j ∉ lk) ->
  bk !! h = Some l -> is_Some (deref s (Buf j)) ->
  exists s', link_mru h (Buf j) s = Ret tt s' /\ stored s s' /\
    rep s' (<[h := j :: l]> bk) /\
    (forall x, payload_of s' x = payload_of s x).
Proof.
  intros Hr Hd Hfresh Hh Hj.
  destruct (rings_push _ _ _ _ _ _ Hr Hd Hfresh Hh) as [Hr' HF].
  assert (HFj : hdp l (Head h) <> Buf j).
  { destruct (hdp_in (Head h) l) as [->|(a & Ha & ->)]; [done|].
    intros [= ->]. by eapply Hfresh. }
  assert (HFv : is_Some (deref s (hdp l (Head h)))).
  { destruct (hdp_in (Head h) l) as [->|(a & Ha & ->)].
    - by eapply next_of_is_Some.
    - destruct Hr as [_ Hr]. destruct (Hr _ _ Hh) as [Hc _].
      destruct (chain_next_valid _ _ _ _ _ Hc Ha) as [n Hn].
      by eapply next_of_is_Some. }
  destruct (link_mru_spec s h (Buf j) _ HF) as (s' & Hrun & St & Hn & Hp & Hpl);
    try done.
  exists s'. split; [done|]. split; [done|]. split; [|done].
  split; [by eapply rings_ext | by eapply disjoint_push].
Qed.

(** A store into the payload of one buffer. *)
Lemma set_payload_of s p f g :
  (forall b, next (f b) = next b /\ prev (f b) = prev b /\
             payload (f b) = g (payload b)) ->
  is_Some (deref s p) ->
  exists s', modify p f s = Ret tt s' /\ stored s s' /\
    (forall x, next_of s' x = next_of s x) /\
    (forall x, prev_of s' x = prev_of s x) /\
    (forall x, payload_of s' x =
       if decide (x = p) then g <$> payload_of s x else payload_of s x).
Proof.
  intros Hf [b Hb]. eexists. split; [by apply modify_Ret|].
  split; [by apply stored_update|].
  unfold next_of, prev_of, payload_of.
  split; [|split]; intros x; rewrite deref_update by done;
    case_decide; subst; rewrite ?Hb; simpl; try done;
    f_equal; apply Hf.
Qed.

Lemma recycle_spec s bk i h j l1 l2 lh d bn :
  rep s bk -> i <> h ->
  bk !! i = Some (l1 ++ j :: l2) -> bk !! h = Some lh ->
  exists s', recycle h d bn (Buf j) s = Ret tt s' /\ stored s s' /\
    rep s' (<[h := j :: lh]> (<[i := l1 ++ l2]> bk)) /\
    (forall x, payload_of s' x =
       if decide (x = Buf j) then recycled d bn <$> payload_of s x
       else payload_of s x).
Proof.
  intros Hrep Hne Hi Hh. unfold recycle.
  assert (Hj : is_Some (deref s (Buf j))).
  { eapply rep_valid_buf; [exact Hrep | exact Hi |].
    apply elem_of_app. right. by left. }
  destruct (unlink_rep true s bk i l1 j l2 Hrep Hi)
    as (s1 & Hrun1 & St1 & Hr1 & Hd1 & Hfresh & Hpl1).
  rewrite (bind_Ret _ _ _ _ _ Hrun1).
  assert (Hh1 : <[i := l1 ++ l2]> bk !! h = Some lh)
    by by rewrite list_lookup_insert_ne.
  destruct (link_mru_rep s1 _ h lh j Hr1 Hd1 Hfresh Hh1)
    as (s2 & Hrun2 & St2 & Hrep2 & Hpl2);
    [by apply (stored_valid _ _ St1)|].
  rewrite (bind_Ret _ _ _ _ _ Hrun2).
  assert (Hj2 : is_Some (deref s2 (Buf j)))
    by by apply (stored_valid _ _ St2), (stored_valid _ _ St1).
  destruct (set_payload_of s2 (Buf j) (with_dev d) (with_dev d))
    as (s3 & Hrun3 & St3 & Hn3 & Hp3 & Hpl3); [by intros [] | done |].
  rewrite (bind_Ret _ _ _ _ _ Hrun3).
  destruct (set_payload_of s3 (Buf j) (with_blockno bn) (with_blockno bn))
    as (s4 & Hrun4 & St4 & Hn4 & Hp4 & Hpl4);
    [by intros [] | by apply (stored_valid _ _ St3) |].
  rewrite (bind_Ret _ _ _ _ _ Hrun4).
  destruct (set_payload_of s4 (Buf j) (with_valid 0) (with_valid 0))
    as (s5 & Hrun5 & St5 & Hn5 & Hp5 & Hpl5);
    [by intros [] | by apply (stored_valid _ _ St4), (stored_valid _ _ St3) |].
  rewrite (bind_Ret _ _ _ _ _ Hrun5).
  destruct (set_payload_of s5 (Buf j) (with_refcnt 1) (with_refcnt 1))
    as (s6 & Hrun6 & St6 & Hn6 & Hp6 & Hpl6);
    [by intros [] |
     by apply (stored_valid _ _ St5), (stored_valid _ _ St4),
              (stored_valid _ _ St3) |].
  exists s6. split; [done|].
  split; [eauto 10 using stored_trans|]. split.
  - eapply rep_ext; [| |exact Hrep2].
    + intros x. by rewrite Hn6, Hn5, Hn4, Hn3.
    + intros x. by rewrite Hp6, Hp5, Hp4, Hp3.
  - intros x. rewrite Hpl6, Hpl5, Hpl4, Hpl3, Hpl2, Hpl1.
    case_decide; [|done]. unfold recycled.
    by destruct (payload_of s x).
Qed.

Lemma move_to_front_spec s bk h l1 j l2 :
  rep s bk -> bk !! h = Some (l1 ++ j :: l2) ->
  exists s', move_to_front h (Buf j) s = Ret tt s' /\ stored s s' /\
    rep s' (<[h := j :: l1 ++ l2]> bk) /\
    (forall x, payload_of s' x = payload_of s x).
Proof.
  intros Hrep Hh. unfold move_to_front.
  assert (Hlt : (h < length bk)%nat) by by eapply lookup_lt_Some.
  assert (Hj : is_Some (deref s (Buf j))).
  { eapply rep_valid_buf; [done | done |]. apply elem_of_app. right. by left. }
  destruct (unlink_rep false s bk h l1 j l2 Hrep Hh)
    as (s1 & Hrun1 & St1 & Hr1 & Hd1 & Hfresh & Hpl1).
  rewrite (bind_Ret _ _ _ _ _ Hrun1).
  assert (Hh1 : <[h := l1 ++ l2]> bk !! h = Some (l1 ++ l2))
    by by rewrite list_lookup_insert_eq.
  destruct (link_mru_rep s1 _ h (l1 ++ l2) j Hr1 Hd1 Hfresh Hh1)
    as (s2 & Hrun2 & St2 & Hrep2 & Hpl2);
    [by apply (stored_valid _ _ St1)|].
  exists s2. split; [done|]. split; [by eapply stored_trans|].
  rewrite list_insert_insert_eq in Hrep2. split; [done|].
  intros x. by rewrite Hpl2, Hpl1.
Qed.

(** ** Logging *)

Lemma emit_Ret e s : emit e s = Ret tt (log s [e]).
Proof. done. Qed.

Lemma deref_log s evs x : deref (log s evs) x = deref s x.
Proof. by destruct x. Qed.

Lemma log_log s e1 e2 : log (log s e1) e2 = log s (e1 ++ e2).
Proof. unfold log. simpl. by rewrite app_assoc. Qed.

Lemma log_nil s : log s [] = s.
Proof. destruct s. unfold log. simpl. by rewrite app_nil_r. Qed.

Lemma next_of_log s evs x : next_of (log s evs) x = next_of s x.
Proof. unfold next_of. by rewrite deref_log. Qed.

Lemma prev_of_log s evs x : prev_of (log s evs) x = prev_of s x.
Proof. unfold prev_of. by rewrite deref_log. Qed.

Lemma payload_of_log s evs x : payload_of (log s evs) x = payload_of s x.
Proof. unfold payload_of. by rewrite deref_log. Qed.

Lemma rep_log s evs bk : rep (log s evs) bk <-> rep s bk.
Proof.
  split; apply rep_ext; intros x;
    by rewrite ?next_of_log, ?prev_of_log.
Qed.

Lemma walk_bound_log s evs : walk_bound (log s evs) = walk_bound s.
Proof. done. Qed.


Lemma holds_block_log s evs d bn j :
  holds_block (log s evs) d bn j = holds_block s d bn j.
Proof. done. Qed.

Lemma stored_log_trace s s' evs :
  stored (log s evs) s' -> trace s' = trace s ++ evs.
Proof. by intros [-> _ _]. Qed.

(** ** Lists *)

Lemma find_app {A} (P : A -> bool) l1 l2 :
  find P (l1 ++ l2) =
    match find P l1 with Some x => Some x | None => find P l2 end.
Proof. induction l1 as [|a l1 IH]; simpl; [done|]. by destruct (P a). Qed.

Lemma find_split {A} (P : A -> bool) l x :
  find P l = Some x ->
  exists a b, l = a ++ x :: b /\ P x = true /\ find P a = None.
Proof.
  induction l as [|y l IH]; simpl; [done|].
  destruct (P y) eqn:Hy.
  - intros [= ->]. by exists [], l.
  - intros H. destruct (IH H) as (a & b & -> & Hx & Ha).
    exists (y :: a), b. simpl. by rewrite Hy.
Qed.

Lemma find_rev_split {A} (P : A -> bool) l x :
  find P (rev l) = Some x ->
  exists l1 l2, l = l1 ++ x :: l2 /\ P x = true /\ find P (rev l2) = None.
Proof.
  intros H. destruct (find_split _ _ _ H) as (a & b & E & Hx & Ha).
  exists (rev b), (rev a). rewrite rev_involutive. split; [|done].
  rewrite <- (rev_involutive l), E, rev_app_distr. simpl.
  by rewrite <- app_assoc.
Qed.

Lemma find_None_iff {A} (P : A -> bool) l :
  find P l = None <-> forall x, x ∈ l -> P x = false.
Proof.
  induction l as [|y l IH]; simpl.
  - split; [intros _ x Hx; by apply elem_of_nil in Hx | done].
  - destruct (P y) eqn:Hy.
    + split; [done|]. intros H. rewrite H in Hy; [done | by left].
    + rewrite IH. split.
      * intros H x [->|Hx]%elem_of_cons; auto.
      * intros H x Hx. apply H. by right.
Qed.

Lemma NoDup_bounded_length (l : list nat) n :
  NoDup l -> (forall j, j ∈ l -> (j < n)%nat) -> (length l <= n)%nat.
Proof.
  intros Hnd Hb.
  assert (H : (length l <= length (seq 0 n))%nat);
    [|by rewrite length_seq in H].
  apply submseteq_length, NoDup_submseteq; [done|].
  intros j Hj. apply elem_of_seq. specialize (Hb j Hj). lia.
Qed.

(** A bucket is shorter than the bound on a walk. *)
Lemma bucket_length s bk i l :
  rep s bk -> bk !! i = Some l -> (length l < walk_bound s)%nat.
Proof.
  intros Hrep Hi. unfold walk_bound.
  assert ((length l <= length (bcache_buf s))%nat); [|lia].
  apply NoDup_bounded_length; [by eapply (proj1 (proj2 Hrep))|].
  intros j Hj. destruct (rep_valid_buf _ _ _ _ _ Hrep Hi Hj) as [b Hb].
  simpl in Hb. by eapply lookup_lt_Some.
Qed.

(** ** The pieces of [bget] *)

Lemma hit_spec s ticks b :
  is_Some (deref s b) ->
  exists s', hit ticks b s = Ret tt s' /\ stored s s' /\
    (forall x, next_of s' x = next_of s x) /\
    (forall x, prev_of s' x = prev_of s x) /\
    (forall x, payload_of s' x =
       if decide (x = b) then hit_buf ticks <$> payload_of s x
       else payload_of s x).
Proof.
  intros Hb. unfold hit.
  destruct (set_payload_of s b
              (fun bf => with_refcnt (wrap32 (refcnt bf + 1)) bf)
              (fun bf => with_refcnt (wrap32 (refcnt bf + 1)) bf))
    as (s1 & Hrun1 & St1 & Hn1 & Hp1 & Hpl1); [by intros [] | done |].
  rewrite (bind_Ret _ _ _ _ _ Hrun1).
  destruct (set_payload_of s1 b (with_lru_timestamp ticks)
              (with_lru_timestamp ticks))
    as (s2 & Hrun2 & St2 & Hn2 & Hp2 & Hpl2);
    [by intros [] | by apply (stored_valid _ _ St1) |].
  exists s2. split; [done|]. split; [by eapply stored_trans|].
  split; [|split].
  - intros x. by rewrite Hn2, Hn1.
  - intros x. by rewrite Hp2, Hp1.
  - intros x. rewrite Hpl2, Hpl1. case_decide; [|done].
    by destruct (payload_of s x).
Qed.

(** The look-up of lines 84-92 and 105-114 on a bucket with the list
    [lh]. *)
Lemma lookup_spec {A} s bk h lh d bn evs (K : option ptr -> M A) :
  rep s bk -> bk !! h = Some lh ->
  (fuel <- bound ;; b0 <- head_next h ;;
   r <- find_cached fuel (Head h) b0 d bn ;; K r) (log s evs)
  = K (Buf <$> find (holds_block s d bn) lh) (log s evs).
Proof.
  intros Hrep Hh.
  apply (rep_log s evs) in Hrep.
  destruct (proj2 (proj1 Hrep) _ _ Hh) as [Hcn _].
  unfold bound at 1.
  rewrite (bind_Ret _ _ (log s evs) (walk_bound (log s evs)) (log s evs))
    by done.
  rewrite (bind_Ret _ _ _ _ _ (head_next_Ret _ _ _ (chain_next_start _ _ _ _ Hcn))).
  rewrite (bind_Ret _ _ _ _ _ (find_cached_spec _ _ _ _ _ _ _ Hcn
             (bucket_length _ _ _ _ Hrep Hh))).
  done.
Qed.

Lemma steal_cons i bs h d bn :
  steal (i :: bs) h d bn =
    if decide (i = h) then steal bs h d bn
    else
      acquire (hash_lock i) ;;
      fuel <- bound ;;
      b0 <- head_prev i ;;
      r <- find_unused fuel (Head i) b0 ;;
      match r with
      | Some b =>
          recycle h d bn b ;;
          release (hash_lock h) ;;
          release (hash_lock i) ;;
          release bcache_lock ;;
          ret (Some b)
      | None =>
          release (hash_lock i) ;;
          steal bs h d bn
      end.
Proof. reflexivity. Qed.

(** The scan of one donor bucket, lines 119-120. *)
Lemma donor_scan_spec {A} s bk i l evs (K : option ptr -> M A) :
  rep s bk -> bk !! i = Some l ->
  (fuel <- bound ;; b0 <- head_prev i ;;
   r <- find_unused fuel (Head i) b0 ;; K r) (log s evs)
  = K (Buf <$> find (unused s) (rev l)) (log s evs).
Proof.
  intros Hrep Hi. apply (rep_log s evs) in Hrep.
  destruct (proj2 (proj1 Hrep) _ _ Hi) as [_ Hcp].
  unfold bound at 1.
  rewrite (bind_Ret _ _ (log s evs) (walk_bound (log s evs)) (log s evs))
    by done.
  rewrite (bind_Ret _ _ _ _ _ (head_prev_Ret _ _ _ (chain_prev_end _ _ _ _ Hcp))).
  rewrite (bind_Ret _ _ _ _ _ (find_unused_spec _ _ _ _ _ Hcp
             (bucket_length _ _ _ _ Hrep Hi))).
  done.
Qed.

Lemma bind_assoc {A B C} (m : M A) (k : A -> M B) (k' : B -> M C) s :
  (y <- (x <- m ;; k x) ;; k' y) s = (x <- m ;; y <- k x ;; k' y) s.
Proof. unfold bind. by destruct (m s). Qed.

(** A scan that finds nothing takes and drops the lock of every bucket
    it visits and changes nothing else. *)
Lemma steal_None s bk h d bn : forall bs evs,
  rep s bk -> (forall i, i ∈ bs -> is_Some (bk !! i)) ->
  find (unused s) (scan_order bk bs h) = None ->
  steal bs h d bn (log s evs) = Ret None (log s (evs ++ visits bs h)).
Proof.
  induction bs as [|i bs IH]; intros evs Hrep Hbs Hfind.
  - simpl. by rewrite app_nil_r.
  - rewrite steal_cons. unfold scan_order, visits in *. simpl in *.
    destruct (decide (i = h)) as [->|Hne].
    + simpl in *. apply IH; [done | | done]. intros k Hk. apply Hbs. by right.
    + destruct (Hbs i) as [l Hl]; [by left|]. rewrite Hl in Hfind.
      simpl in Hfind. rewrite find_app in Hfind.
      destruct (find (unused s) (rev l)) eqn:Hl2; [done|].
      unfold acquire. rewrite (bind_Ret _ _ _ _ _ (emit_Ret _ _)), log_log.
      rewrite (donor_scan_spec _ _ _ _ _ _ Hrep Hl), Hl2. simpl.
      unfold release. rewrite (bind_Ret _ _ _ _ _ (emit_Ret _ _)), log_log.
      rewrite IH; [|done| |done].
      * by rewrite <- !app_assoc.
      * intros k Hk. apply Hbs. by right.
Qed.

Lemma scan_order_cons bk i bs h :
  scan_order bk (i :: bs) h =
    (if decide (i = h) then [] else rev (default [] (bk !! i)))
    ++ scan_order bk bs h.
Proof. reflexivity. Qed.

Lemma visits_cons i bs h :
  visits (i :: bs) h =
    (if decide (i = h) then []
     else [Acquire (hash_lock i); Release (hash_lock i)]) ++ visits bs h.
Proof. reflexivity. Qed.

(** A scan that finds a buffer without holder moves the first one it
    meets to the bucket [h]. *)
Lemma steal_Some s bk h lh d bn j : forall bs evs,
  rep s bk -> bk !! h = Some lh ->
  (forall i, i ∈ bs -> is_Some (bk !! i)) ->
  find (unused s) (scan_order bk bs h) = Some j ->
  exists bs1 i bs2 l1 l2 s',
    bs = bs1 ++ i :: bs2 /\ i <> h /\ bk !! i = Some (l1 ++ j :: l2) /\
    find (unused s) (scan_order bk bs1 h) = None /\
    find (unused s) (rev l2) = None /\ unused s j = true /\
    steal bs h d bn (log s evs) = Ret (Some (Buf j)) s' /\
    rep s' (<[h := j :: lh]> (<[i := l1 ++ l2]> bk)) /\
    trace s' = trace s ++ evs ++ visits bs1 h ++
      [Acquire (hash_lock i); Release (hash_lock h);
       Release (hash_lock i); Release bcache_lock] /\
    walk_bound s' = walk_bound s /\
    (forall x, payload_of s' x =
       if decide (x = Buf j) then recycled d bn <$> payload_of s x
       else payload_of s x).
Proof.
  induction bs as [|i bs IH]; intros evs Hrep Hh Hbs Hfind; [done|].
  rewrite steal_cons. rewrite scan_order_cons in Hfind.
  destruct (decide (i = h)) as [->|Hne].
  - simpl in Hfind.
    destruct (IH evs Hrep Hh) as
      (bs1 & i & bs2 & l1 & l2 & s' & -> & Hi & Hl & Hn1 & Hn2 & Hu & Hrun & H);
      [intros k Hk; apply Hbs; by right | done |].
    exists (h :: bs1), i, bs2, l1, l2, s'.
    rewrite scan_order_cons, visits_cons, !decide_True by done. done.
  - destruct (Hbs i) as [l Hl]; [by left|]. rewrite Hl in Hfind.
    simpl in Hfind. rewrite find_app in Hfind.
    unfold acquire. rewrite (bind_Ret _ _ _ _ _ (emit_Ret _ _)), log_log.
    rewrite (donor_scan_spec _ _ _ _ _ _ Hrep Hl).
    destruct (find (unused s) (rev l)) as [j'|] eqn:Hl2.
    + injection Hfind as ->.
      destruct (find_rev_split _ _ _ Hl2) as (l1 & l2 & -> & Hu & Hn2).
      exists [], i, bs, l1, l2. cbn [fmap option_fmap option_map].
      destruct (recycle_spec (log s (evs ++ [Acquire (hash_lock i)]))
                  bk i h j l1 l2 lh d bn) as (s1 & Hrun & St & Hrep1 & Hpl);
        [by apply rep_log | done | done | done |].
      rewrite (bind_Ret _ _ _ _ _ Hrun). unfold release.
      rewrite !(bind_Ret _ _ _ _ _ (emit_Ret _ _)), !log_log.
      eexists. split; [done|]. split; [done|]. split; [done|].
      split; [done|]. split; [done|]. split; [done|]. split; [done|].
      split; [by apply rep_log|]. split; [|split].
      * simpl. rewrite (stored_trace _ _ St). simpl.
        by rewrite <- !app_assoc.
      * rewrite walk_bound_log. by rewrite (stored_bound _ _ St).
      * intros x. rewrite payload_of_log, Hpl. by rewrite payload_of_log.
    + cbn [fmap option_fmap option_map]. unfold release at 1.
      rewrite (bind_Ret _ _ _ _ _ (emit_Ret _ _)), log_log.
      destruct (IH ((evs ++ [Acquire (hash_lock i)]) ++ [Release (hash_lock i)])
                  Hrep Hh) as
        (bs1 & i' & bs2 & l1 & l2 & s' & -> & Hi & Hl' & Hn1 & Hn2 & Hu
         & Hrun & Hrep' & Htr & Hwb & Hpl);
        [intros k Hk; apply Hbs; by right | done |].
      exists (i :: bs1), i', bs2, l1, l2, s'.
      rewrite scan_order_cons, visits_cons, !decide_False by done.
      rewrite Hl. simpl default. rewrite find_app, Hl2.
      split; [done|]. split; [done|]. split; [done|]. split; [done|].
      split; [done|]. split; [done|]. split; [done|]. split; [done|].
      split; [|done]. rewrite Htr. by rewrite <- !app_assoc.
Qed.

Lemma rep_lookup_is_Some s bk i :
  rep s bk -> (i < NUM_BUCKET)%nat -> is_Some (bk !! i).
Proof. intros [[Hlen _] _] Hi. apply lookup_lt_is_Some. by rewrite Hlen. Qed.

Lemma hash_val_bucket bn : (Z.to_nat (hash_val bn) < NUM_BUCKET)%nat.
Proof.
  unfold hash_val, NUM_BUCKET.
  pose proof (Z.mod_pos_bound bn 13). simpl Z.of_nat. lia.
Qed.

Lemma seq_buckets_is_Some s bk i :
  rep s bk -> i ∈ seq 0 NUM_BUCKET -> is_Some (bk !! i).
Proof.
  intros Hrep Hi. apply (rep_lookup_is_Some s); [done|].
  apply elem_of_seq in Hi. lia.
Qed.

(** The first look-up, lines 81-93. *)
Lemma bget_cached_hit s bk lh ticks d bn j :
  rep s bk -> bk !! Z.to_nat (hash_val bn) = Some lh ->
  find (holds_block s d bn) lh = Some j ->
  exists s', bget_cached ticks d bn s = Ret (Some (Buf j)) s' /\
    rep s' bk /\ walk_bound s' = walk_bound s /\
    trace s' = trace s ++ [Acquire (hash_lock (Z.to_nat (hash_val bn)));
                           Release (hash_lock (Z.to_nat (hash_val bn)))] /\
    (forall x, payload_of s' x =
       if decide (x = Buf j) then hit_buf ticks <$> payload_of s x
       else payload_of s x).
Proof.
  intros Hrep Hh Hfind. unfold bget_cached. cbv zeta.
  unfold acquire. rewrite (bind_Ret _ _ _ _ _ (emit_Ret _ _)).
  rewrite (lookup_spec _ _ _ _ _ _ _ _ Hrep Hh), Hfind. cbn [fmap option_fmap option_map].
  assert (Hj : is_Some (deref (log s [Acquire (hash_lock (Z.to_nat (hash_val bn)))]) (Buf j))).
  { rewrite deref_log. eapply rep_valid_buf; [done | done |].
    destruct (find_split _ _ _ Hfind) as (a & b & -> & _).
    apply elem_of_app. right. by left. }
  destruct (hit_spec _ ticks _ Hj) as (s1 & Hrun & St & Hn & Hp & Hpl).
  rewrite (bind_Ret _ _ _ _ _ Hrun). unfold release.
  rewrite (bind_Ret _ _ _ _ _ (emit_Ret _ _)).
  eexists. split; [done|]. split; [|split; [|split]].
  - apply rep_log. eapply rep_ext; [exact Hn | exact Hp |]. by apply rep_log.
  - rewrite walk_bound_log. by rewrite (stored_bound _ _ St).
  - simpl. rewrite (stored_trace _ _ St). simpl. by rewrite <- app_assoc.
  - intros x. rewrite payload_of_log, Hpl. by rewrite payload_of_log.
Qed.

Lemma bget_cached_miss s bk lh ticks d bn :
  rep s bk -> bk !! Z.to_nat (hash_val bn) = Some lh ->
  find (holds_block s d bn) lh = None ->
  bget_cached ticks d bn s =
    Ret None (log s [Acquire (hash_lock (Z.to_nat (hash_val bn)));
                     Release (hash_lock (Z.to_nat (hash_val bn)))]).
Proof.
  intros Hrep Hh Hfind. unfold bget_cached. cbv zeta.
  unfold acquire. rewrite (bind_Ret _ _ _ _ _ (emit_Ret _ _)).
  rewrite (lookup_spec _ _ _ _ _ _ _ _ Hrep Hh), Hfind. cbn [fmap option_fmap option_map].
  unfold release. rewrite (bind_Ret _ _ _ _ _ (emit_Ret _ _)).
  by rewrite log_log.
Qed.

(** The second look-up, lines 97-114. *)
Lemma bget_recycle_hit s bk lh ticks d bn j :
  rep s bk -> bk !! Z.to_nat (hash_val bn) = Some lh ->
  find (holds_block s d bn) lh = Some j ->
  exists s', bget_recycle ticks d bn s = Ret (Buf j) s' /\
    rep s' bk /\ walk_bound s' = walk_bound s /\
    trace s' = trace s ++ [Acquire bcache_lock;
                           Acquire (hash_lock (Z.to_nat (hash_val bn)));
                           Release (hash_lock (Z.to_nat (hash_val bn)));
                           Release bcache_lock] /\
    (forall x, payload_of s' x =
       if decide (x = Buf j) then hit_buf ticks <$> payload_of s x
       else payload_of s x).
Proof.
  intros Hrep Hh Hfind. unfold bget_recycle. cbv zeta.
  unfold acquire. rewrite !(bind_Ret _ _ _ _ _ (emit_Ret _ _)), log_log.
  rewrite (lookup_spec _ _ _ _ _ _ _ _ Hrep Hh), Hfind. cbn [fmap option_fmap option_map].
  match goal with |- context [hit ticks (Buf j) ;; _] => idtac end.
  assert (Hj : forall evs, is_Some (deref (log s evs) (Buf j))).
  { intros evs. rewrite deref_log. eapply rep_valid_buf; [done | done |].
    destruct (find_split _ _ _ Hfind) as (a & b & -> & _).
    apply elem_of_app. right. by left. }
  destruct (hit_spec _ ticks _ (Hj ([Acquire bcache_lock] ++
              [Acquire (hash_lock (Z.to_nat (hash_val bn)))])))
    as (s1 & Hrun & St & Hn & Hp & Hpl).
  rewrite (bind_Ret _ _ _ _ _ Hrun). unfold release.
  rewrite !(bind_Ret _ _ _ _ _ (emit_Ret _ _)), log_log.
  eexists. split; [done|]. split; [|split; [|split]].
  - apply rep_log. eapply rep_ext; [exact Hn | exact Hp |]. by apply rep_log.
  - rewrite walk_bound_log. by rewrite (stored_bound _ _ St).
  - simpl. rewrite (stored_trace _ _ St). simpl. by rewrite <- app_assoc.
  - intros x. rewrite payload_of_log, Hpl. by rewrite payload_of_log.
Qed.

(** The eviction, lines 117-142. *)
Lemma bget_recycle_steal s bk lh ticks d bn j :
  rep s bk -> bk !! Z.to_nat (hash_val bn) = Some lh ->
  find (holds_block s d bn) lh = None ->
  find (unused s) (scan_order bk (seq 0 NUM_BUCKET) (Z.to_nat (hash_val bn)))
    = Some j ->
  exists bs1 i bs2 l1 l2 s',
    seq 0 NUM_BUCKET = bs1 ++ i :: bs2 /\ i <> Z.to_nat (hash_val bn) /\
    bk !! i = Some (l1 ++ j :: l2) /\
    find (unused s) (scan_order bk bs1 (Z.to_nat (hash_val bn))) = None /\
    find (unused s) (rev l2) = None /\ unused s j = true /\
    bget_recycle ticks d bn s = Ret (Buf j) s' /\
    rep s' (<[Z.to_nat (hash_val bn) := j :: lh]> (<[i := l1 ++ l2]> bk)) /\
    trace s' = trace s ++
      [Acquire bcache_lock; Acquire (hash_lock (Z.to_nat (hash_val bn)))] ++
      visits bs1 (Z.to_nat (hash_val bn)) ++
      [Acquire (hash_lock i); Release (hash_lock (Z.to_nat (hash_val bn)));
       Release (hash_lock i); Release bcache_lock] /\
    walk_bound s' = walk_bound s /\
    (forall x, payload_of s' x =
       if decide (x = Buf j) then recycled d bn <$> payload_of s x
       else payload_of s x).
Proof.
  intros Hrep Hh Hfind Hvict. unfold bget_recycle. cbv zeta.
  unfold acquire. rewrite !(bind_Ret _ _ _ _ _ (emit_Ret _ _)), log_log.
  rewrite (lookup_spec _ _ _ _ _ _ _ _ Hrep Hh), Hfind. cbn [fmap option_fmap option_map].
  destruct (steal_Some s bk _ lh d bn j (seq 0 NUM_BUCKET)
              ([Acquire bcache_lock] ++
               [Acquire (hash_lock (Z.to_nat (hash_val bn)))]) Hrep Hh)
    as (bs1 & i & bs2 & l1 & l2 & s' & E & Hi & Hl & Hn1 & Hn2 & Hu
        & Hrun & Hrep' & Htr & Hwb & Hpl);
    [intros k Hk; by eapply seq_buckets_is_Some | done |].
  exists bs1, i, bs2, l1, l2, s'.
  rewrite (bind_Ret _ _ _ _ _ Hrun). done.
Qed.

(** No buffer to evict: [panic("bget: no buffers")]. *)
Lemma bget_recycle_panic s bk lh ticks d bn :
  rep s bk -> bk !! Z.to_nat (hash_val bn) = Some lh ->
  find (holds_block s d bn) lh = None ->
  find (unused s) (scan_order bk (seq 0 NUM_BUCKET) (Z.to_nat (hash_val bn)))
    = None ->
  bget_recycle ticks d bn s =
    Panic "bget: no buffers"
      (log s ([Acquire bcache_lock;
               Acquire (hash_lock (Z.to_nat (hash_val bn)))] ++
              visits (seq 0 NUM_BUCKET) (Z.to_nat (hash_val bn)))).
Proof.
  intros Hrep Hh Hfind Hvict. unfold bget_recycle. cbv zeta.
  unfold acquire. rewrite !(bind_Ret _ _ _ _ _ (emit_Ret _ _)), log_log.
  rewrite (lookup_spec _ _ _ _ _ _ _ _ Hrep Hh), Hfind. cbn [fmap option_fmap option_map].
  rewrite (bind_Ret _ _ _ _ _
             (steal_None s bk _ d bn (seq 0 NUM_BUCKET) _ Hrep
                (fun k Hk => seq_buckets_is_Some s bk k Hrep Hk) Hvict)).
  done.
Qed.

(** ** [bget] as a whole *)

Lemma bget_unfold me ticks d bn s :
  bget me ticks d bn s =
    match bget_cached ticks d bn s with
    | Ret (Some b) s1 => (acquiresleep me b ;; ret b) s1
    | Ret None s1 =>
        match bget_recycle ticks d bn s1 with
        | Ret b s2 => (acquiresleep me b ;; ret b) s2
        | Panic msg s2 => Panic msg s2
        | Sleeping b s2 => Sleeping b s2
        | Fault => Fault
        | Diverge => Diverge
        end
    | Panic msg s1 => Panic msg s1
    | Sleeping b s1 => Sleeping b s1
    | Fault => Fault
    | Diverge => Diverge
    end.
Proof.
  unfold bget, bind. destruct (bget_cached ticks d bn s) as [[b|] s1| | | |];
    try done.
Qed.

(** [acquiresleep] either takes the lock or puts the caller to sleep. *)
Lemma acquiresleep_spec me b s bf :
  deref s b = Some bf ->
  (acquiresleep me b ;; ret b) s =
    if locked (lock bf) then Sleeping b s
    else Ret b (log (update s b (with_lock {| locked := true; pid := me |} bf))
                    [AcquireSleep b]).
Proof.
  intros Hb. unfold acquiresleep.
  unfold bind at 1. unfold bind at 1.
  rewrite (load_Ret _ _ _ Hb). destruct (locked (lock bf)); [done|].
  unfold bind. by rewrite (modify_Ret _ _ _ _ Hb).
Qed.

Lemma acquiresleep_no_panic me b s msg s' :
  (acquiresleep me b ;; ret b) s <> Panic msg s'.
Proof.
  unfold acquiresleep, bind, load, modify.
  destruct (deref s b) as [bf|] eqn:Hb; [|done].
  destruct (locked (lock bf)); [done|]. by rewrite Hb.
Qed.

(** A hit on the first look-up. *)
Lemma bget_hit s bk lh me ticks d bn j :
  rep s bk -> bk !! Z.to_nat (hash_val bn) = Some lh ->
  find (holds_block s d bn) lh = Some j ->
  exists s', bget me ticks d bn s = (acquiresleep me (Buf j) ;; ret (Buf j)) s' /\
    rep s' bk /\ walk_bound s' = walk_bound s /\
    trace s' = trace s ++ [Acquire (hash_lock (Z.to_nat (hash_val bn)));
                           Release (hash_lock (Z.to_nat (hash_val bn)))] /\
    (forall x, payload_of s' x =
       if decide (x = Buf j) then hit_buf ticks <$> payload_of s x
       else payload_of s x).
Proof.
  intros Hrep Hh Hfind.
  destruct (bget_cached_hit s bk lh ticks d bn j Hrep Hh Hfind)
    as (s' & Hrun & H).
  exists s'. rewrite bget_unfold, Hrun. done.
Qed.

(** A miss on both look-ups with a buffer to evict. *)
Lemma bget_evict s bk lh me ticks d bn j :
  rep s bk -> bk !! Z.to_nat (hash_val bn) = Some lh ->
  find (holds_block s d bn) lh = None ->
  find (unused s) (scan_order bk (seq 0 NUM_BUCKET) (Z.to_nat (hash_val bn)))
    = Some j ->
  exists bs1 i bs2 l1 l2 s',
    seq 0 NUM_BUCKET = bs1 ++ i :: bs2 /\ i <> Z.to_nat (hash_val bn) /\
    bk !! i = Some (l1 ++ j :: l2) /\
    find (unused s) (scan_order bk bs1 (Z.to_nat (hash_val bn))) = None /\
    find (unused s) (rev l2) = None /\ unused s j = true /\
    bget me ticks d bn s = (acquiresleep me (Buf j) ;; ret (Buf j)) s' /\
    rep s' (<[Z.to_nat (hash_val bn) := j :: lh]> (<[i := l1 ++ l2]> bk)) /\
    trace s' = trace s ++
      [Acquire (hash_lock (Z.to_nat (hash_val bn)));
       Release (hash_lock (Z.to_nat (hash_val bn)));
       Acquire bcache_lock; Acquire (hash_lock (Z.to_nat (hash_val bn)))] ++
      visits bs1 (Z.to_nat (hash_val bn)) ++
      [Acquire (hash_lock i); Release (hash_lock (Z.to_nat (hash_val bn)));
       Release (hash_lock i); Release bcache_lock] /\
    walk_bound s' = walk_bound s /\
    (forall x, payload_of s' x =
       if decide (x = Buf j) then recycled d bn <$> payload_of s x
       else payload_of s x).
Proof.
  intros Hrep Hh Hfind Hvict.
  set (h := Z.to_nat (hash_val bn)) in *.
  pose proof (bget_cached_miss s bk lh ticks d bn Hrep Hh Hfind) as Hmiss.
  fold h in Hmiss.
  destruct (bget_recycle_steal
              (log s [Acquire (hash_lock h); Release (hash_lock h)])
              bk lh ticks d bn j)
    as (bs1 & i & bs2 & l1 & l2 & s' & E & Hi & Hl & Hn1 & Hn2 & Hu
        & Hrun & Hrep' & Htr & Hwb & Hpl);
    [by apply rep_log | done | done | done |].
  exists bs1, i, bs2, l1, l2, s'. fold h in Hrun, Hrep', Htr.
  rewrite bget_unfold, Hmiss, Hrun.
  split; [done|]. split; [done|]. split; [done|]. split; [done|].
  split; [done|]. split; [done|]. split; [done|]. split; [done|].
  split; [|split; [done|]].
  - rewrite Htr. simpl. by rewrite <- !app_assoc.
  - intros x. rewrite Hpl. by rewrite payload_of_log.
Qed.

(** A miss on both look-ups and nothing to evict. *)
Lemma bget_panic s bk lh me ticks d bn :
  rep s bk -> bk !! Z.to_nat (hash_val bn) = Some lh ->
  find (holds_block s d bn) lh = None ->
  find (unused s) (scan_order bk (seq 0 NUM_BUCKET) (Z.to_nat (hash_val bn)))
    = None ->
  bget me ticks d bn s =
    Panic "bget: no buffers"
      (log s ([Acquire (hash_lock (Z.to_nat (hash_val bn)));
               Release (hash_lock (Z.to_nat (hash_val bn)));
               Acquire bcache_lock;
               Acquire (hash_lock (Z.to_nat (hash_val bn)))] ++
              visits (seq 0 NUM_BUCKET) (Z.to_nat (hash_val bn)))).
Proof.
  intros Hrep Hh Hfind Hvict.
  set (h := Z.to_nat (hash_val bn)) in *.
  pose proof (bget_cached_miss s bk lh ticks d bn Hrep Hh Hfind) as Hmiss.
  fold h in Hmiss.
  pose proof (bget_recycle_panic
                (log s [Acquire (hash_lock h); Release (hash_lock h)])
                bk lh ticks d bn) as Hp.
  fold h in Hp. rewrite bget_unfold, Hmiss, Hp; try done.
  all: first [by rewrite log_log | by apply rep_log].
Qed.

(** The buffers the scan can take, bucket by bucket. *)
Lemma scan_order_None s bk bs h :
  (forall i, i ∈ bs -> is_Some (bk !! i)) ->
  find (unused s) (scan_order bk bs h) = None <->
  forall i l j, i ∈ bs -> i <> h -> bk !! i = Some l -> j ∈ l ->
    unused s j = false.
Proof.
  induction bs as [|k bs IH]; intros Hbs.
  - split; [|done]. intros _ i l j Hi. by apply elem_of_nil in Hi.
  - rewrite scan_order_cons, find_app.
    assert (Hbs' : forall i, i ∈ bs -> is_Some (bk !! i)).
    { intros i Hi. apply Hbs. by right. }
    specialize (IH Hbs'). destruct (Hbs k) as [lk Hlk]; [by left|].
    destruct (decide (k = h)) as [->|Hne].
    + simpl. rewrite IH. split.
      * intros H i l j [->|Hi]%elem_of_cons; [done | by apply H].
      * intros H i l j Hi. apply H. by right.
    + rewrite Hlk. simpl.
      destruct (find (unused s) (rev lk)) as [x|] eqn:Hf.
      * split; [done|]. intros H. exfalso.
        apply find_some in Hf as [Hin Hx].
        rewrite (H k lk x) in Hx; [done | by left | done | done |].
        apply list_elem_of_In. by apply in_rev.
      * rewrite IH. rewrite find_None_iff in Hf. split.
        -- intros H i l j [->|Hi]%elem_of_cons Hih Hl Hj; [|by eapply H].
           assert (l = lk) by congruence. subst l.
           apply Hf. apply list_elem_of_In, in_rev.
           rewrite rev_involutive. by apply list_elem_of_In.
        -- intros H i l j Hi. apply H. by right.
Qed.

(** ** Locks held along a trace *)

Lemma held_from_app acc a b :
  held_from acc (a ++ b) = held_from (held_from acc a) b.
Proof. unfold held_from. by rewrite fold_left_app. Qed.

Lemma one_donor_nil h acc :
  (length (donors h acc) <= 1)%nat -> one_donor_from h acc [].
Proof. intros H pre Hpre. apply prefix_nil_inv in Hpre as ->. done. Qed.

Lemma one_donor_cons h acc e tr :
  (length (donors h acc) <= 1)%nat ->
  one_donor_from h (held_step acc e) tr ->
  one_donor_from h acc (e :: tr).
Proof.
  intros H0 H pre Hpre. destruct pre as [|e' pre]; [done|].
  apply prefix_cons_inv_1 in Hpre as He.
  apply prefix_cons_inv_2 in Hpre. subst e'. by apply H.
Qed.

Lemma one_donor_app h acc a b :
  one_donor_from h acc a ->
  one_donor_from h (held_from acc a) b ->
  one_donor_from h acc (a ++ b).
Proof.
  revert acc. induction a as [|e a IH]; intros acc Ha Hb; [done|].
  simpl. apply one_donor_cons.
  - apply (Ha []). apply prefix_nil.
  - apply IH; [|done]. intros pre Hpre.
    apply (Ha (e :: pre)). by apply prefix_cons.
Qed.

Lemma donors_acquire h acc l :
  donors h (held_step acc (Acquire l)) =
    if decide (donor_lock h l) then l :: donors h acc else donors h acc.
Proof.
  unfold donors. simpl. case_decide.
  - by rewrite filter_cons_True.
  - by rewrite filter_cons_False.
Qed.

Lemma donors_release h acc l :
  donors h (held_step acc (Release l)) =
    filter (fun l' => l' <> l) (donors h acc).
Proof.
  unfold donors. simpl. rewrite !list_filter_filter.
  apply list_filter_iff. tauto.
Qed.

Lemma donors_release_quiet h acc l :
  donors h acc = [] -> donors h (held_step acc (Release l)) = [].
Proof. intros H. by rewrite donors_release, H. Qed.

(** Visiting buckets one after the other holds one donor lock at a time
    and none at the end. *)
Lemma one_donor_visits h : forall bs acc,
  donors h acc = [] ->
  one_donor_from h acc (visits bs h) /\
  donors h (held_from acc (visits bs h)) = [].
Proof.
  induction bs as [|i bs IH]; intros acc Hq.
  - split; [apply one_donor_nil; rewrite Hq; simpl; lia | done].
  - rewrite visits_cons. destruct (decide (i = h)) as [->|Hne]; [by apply IH|].
    simpl app.
    assert (H1 : donors h (held_step acc (Acquire (hash_lock i)))
                 = [hash_lock i]).
    { rewrite donors_acquire, decide_True by done. by rewrite Hq. }
    assert (H2 : donors h (held_step (held_step acc (Acquire (hash_lock i)))
                             (Release (hash_lock i))) = []).
    { rewrite donors_release, H1. by rewrite filter_cons_False by (intros X; by apply X). }
    destruct (IH _ H2) as [IH1 IH2]. split; [|done].
    apply one_donor_cons; [rewrite Hq; simpl; lia|].
    apply one_donor_cons; [rewrite H1; simpl; lia|]. done.
Qed.

(** The locks of an eviction: the lock of the target bucket for the first
    look-up, then the global lock, the lock of the target bucket, the
    donor buckets one at a time, and all of them dropped at the end. *)
Lemma one_donor_eviction h i bs :
  i <> h ->
  one_donor_at_a_time h
    ([Acquire (hash_lock h); Release (hash_lock h);
      Acquire bcache_lock; Acquire (hash_lock h)] ++
     visits bs h ++
     [Acquire (hash_lock i); Release (hash_lock h);
      Release (hash_lock i); Release bcache_lock]).
Proof.
  intros Hne. unfold one_donor_at_a_time.
  assert (Hh : ~ donor_lock h (hash_lock h)) by (simpl; tauto).
  assert (Hb : ~ donor_lock h bcache_lock) by (simpl; tauto).
  assert (Hi : donor_lock h (hash_lock i)) by done.
  set (a1 := held_step [] (Acquire (hash_lock h))).
  set (a2 := held_step a1 (Release (hash_lock h))).
  set (a3 := held_step a2 (Acquire bcache_lock)).
  set (a4 := held_step a3 (Acquire (hash_lock h))).
  assert (Q0 : donors h [] = []) by done.
  assert (Q1 : donors h a1 = []).
  { unfold a1. by rewrite donors_acquire, decide_False. }
  assert (Q2 : donors h a2 = []) by by apply donors_release_quiet.
  assert (Q3 : donors h a3 = []).
  { unfold a3. by rewrite donors_acquire, decide_False. }
  assert (Q4 : donors h a4 = []).
  { unfold a4. by rewrite donors_acquire, decide_False. }
  destruct (one_donor_visits h bs a4 Q4) as [Hv Q5].
  set (a5 := held_from a4 (visits bs h)) in *.
  set (a6 := held_step a5 (Acquire (hash_lock i))).
  set (a7 := held_step a6 (Release (hash_lock h))).
  set (a8 := held_step a7 (Release (hash_lock i))).
  set (a9 := held_step a8 (Release bcache_lock)).
  assert (Q6 : donors h a6 = [hash_lock i]).
  { unfold a6. rewrite donors_acquire, decide_True by done. by rewrite Q5. }
  assert (Q7 : donors h a7 = [hash_lock i]).
  { unfold a7. rewrite donors_release, Q6.
    rewrite filter_cons_True by congruence. done. }
  assert (Q8 : donors h a8 = []).
  { unfold a8. rewrite donors_release, Q7.
    by rewrite filter_cons_False by (intros X; by apply X). }
  assert (Q9 : donors h a9 = []) by by apply donors_release_quiet.
  simpl app.
  apply one_donor_cons; [rewrite Q0; simpl; lia|]. fold a1.
  apply one_donor_cons; [rewrite Q1; simpl; lia|]. fold a2.
  apply one_donor_cons; [rewrite Q2; simpl; lia|]. fold a3.
  apply one_donor_cons; [rewrite Q3; simpl; lia|]. fold a4.
  apply one_donor_app; [done|]. fold a5.
  apply one_donor_cons; [rewrite Q5; simpl; lia|]. fold a6.
  apply one_donor_cons; [rewrite Q6; simpl; lia|]. fold a7.
  apply one_donor_cons; [rewrite Q7; simpl; lia|]. fold a8.
  apply one_donor_cons; [rewrite Q8; simpl; lia|]. fold a9.
  apply one_donor_nil. rewrite Q9. simpl. lia.
Qed.

(** ** [brelse], [bwrite], [bpin] *)

Lemma set_payload_deref s p f g b :
  (forall b, next (f b) = next b /\ prev (f b) = prev b /\
             payload (f b) = g (payload b)) ->
  deref s p = Some b ->
  exists s', modify p f s = Ret tt s' /\ stored s s' /\
    (forall x, next_of s' x = next_of s x) /\
    (forall x, prev_of s' x = prev_of s x) /\
    (forall x, payload_of s' x =
       if decide (x = p) then g <$> payload_of s x else payload_of s x) /\
    deref s' p = Some (f b).
Proof.
  intros Hf Hb.
  destruct (set_payload_of s p f g Hf) as (s' & Hrun & H); [eauto|].
  exists s'. split; [done|]. repeat (split; [apply H|]).
  rewrite (modify_Ret _ _ _ _ Hb) in Hrun. injection Hrun as <-.
  rewrite deref_update by eauto. by rewrite decide_True.
Qed.

Lemma holdingsleep_Ret me p s bf :
  deref s p = Some bf -> holdingsleep me p s = Ret (holding me (lock bf)) s.
Proof.
  intros Hb. unfold holdingsleep. by rewrite (bind_Ret _ _ _ _ _ (load_Ret _ _ _ Hb)).
Qed.

Lemma bwrite_spec me p s bf :
  deref s p = Some bf ->
  bwrite me p s =
    if holding me (lock bf) then Ret tt (log s [DiskWrite p])
    else Panic "bwrite" s.
Proof.
  intros Hb. unfold bwrite.
  rewrite (bind_Ret _ _ _ _ _ (holdingsleep_Ret _ _ _ _ Hb)).
  by destruct (holding me (lock bf)).
Qed.

Lemma brelse_not_holding me p s bf :
  deref s p = Some bf -> holding me (lock bf) = false ->
  brelse me p s = Panic "brelse" s.
Proof.
  intros Hb Hh. unfold brelse.
  rewrite (bind_Ret _ _ _ _ _ (holdingsleep_Ret _ _ _ _ Hb)).
  by rewrite Hh.
Qed.

Lemma brelse_holding s bk me j bf l1 l2 :
  rep s bk -> deref s (Buf j) = Some bf ->
  bk !! Z.to_nat (hash_val (blockno bf)) = Some (l1 ++ j :: l2) ->
  holding me (lock bf) = true ->
  exists s', brelse me (Buf j) s = Ret tt s' /\
    trace s' = trace s ++
      [ReleaseSleep (Buf j);
       Acquire (hash_lock (Z.to_nat (hash_val (blockno bf))));
       Release (hash_lock (Z.to_nat (hash_val (blockno bf))))] /\
    walk_bound s' = walk_bound s /\
    (forall x, payload_of s' x =
       if decide (x = Buf j) then released <$> payload_of s x
       else payload_of s x) /\
    rep s' (if wrap32 (refcnt bf - 1) =? 0
            then <[Z.to_nat (hash_val (blockno bf)) := j :: l1 ++ l2]> bk
            else bk).
Proof.
  intros Hrep Hb Hh Hhold. unfold brelse.
  set (h := Z.to_nat (hash_val (blockno bf))) in *.
  rewrite (bind_Ret _ _ _ _ _ (holdingsleep_Ret _ _ _ _ Hb)), Hhold.
  cbn [negb]. unfold releasesleep.
  destruct (set_payload_deref s (Buf j)
              (with_lock {| locked := false; pid := 0 |})
              (with_lock {| locked := false; pid := 0 |}) bf)
    as (s1 & Hrun1 & St1 & Hn1 & Hp1 & Hpl1 & Hd1); [by intros [] | done |].
  rewrite bind_assoc, (bind_Ret _ _ _ _ _ Hrun1).
  rewrite (bind_Ret _ _ _ _ _ (emit_Ret _ _)).
  assert (Hd1' : deref (log s1 [ReleaseSleep (Buf j)]) (Buf j)
                 = Some (with_lock {| locked := false; pid := 0 |} bf))
    by by rewrite deref_log.
  rewrite (bind_Ret _ _ _ _ _ (load_Ret _ _ _ Hd1')).
  change (blockno (with_lock {| locked := false; pid := 0 |} bf))
    with (blockno bf). fold h. cbv zeta.
  unfold acquire. rewrite (bind_Ret _ _ _ _ _ (emit_Ret _ _)), log_log.
  destruct (set_payload_deref (log s1 ([ReleaseSleep (Buf j)] ++ [Acquire (hash_lock h)]))
              (Buf j)
              (fun bf => with_refcnt (wrap32 (refcnt bf - 1)) bf)
              (fun bf => with_refcnt (wrap32 (refcnt bf - 1)) bf)
              (with_lock {| locked := false; pid := 0 |} bf))
    as (s2 & Hrun2 & St2 & Hn2 & Hp2 & Hpl2 & Hd2);
    [by intros [] | by rewrite deref_log |].
  rewrite (bind_Ret _ _ _ _ _ Hrun2).
  rewrite (bind_Ret _ _ _ _ _ (load_Ret _ _ _ Hd2)).
  change (refcnt (with_refcnt (wrap32 (refcnt (with_lock {| locked := false; pid := 0 |} bf) - 1))
                    (with_lock {| locked := false; pid := 0 |} bf)))
    with (wrap32 (refcnt bf - 1)).
  assert (Hrep2 : rep s2 bk).
  { eapply rep_ext; [exact Hn2 | exact Hp2 |]. apply rep_log.
    eapply rep_ext; [exact Hn1 | exact Hp1 | done]. }
  assert (Hpl : forall x, payload_of s2 x =
     if decide (x = Buf j) then released <$> payload_of s x
     else payload_of s x).
  { intros x. rewrite Hpl2, payload_of_log, Hpl1. case_decide; [|done].
    by destruct (payload_of s x). }
  assert (Htr : trace s2 = trace s ++ [ReleaseSleep (Buf j); Acquire (hash_lock h)]).
  { rewrite (stored_trace _ _ St2). simpl. rewrite (stored_trace _ _ St1).
    by rewrite <- ?app_assoc. }
  assert (Hwb : walk_bound s2 = walk_bound s).
  { rewrite (stored_bound _ _ St2), walk_bound_log.
    by rewrite (stored_bound _ _ St1). }
  destruct (wrap32 (refcnt bf - 1) =? 0).
  - destruct (move_to_front_spec s2 bk h l1 j l2 Hrep2 Hh)
      as (s3 & Hrun3 & St3 & Hrep3 & Hpl3).
    rewrite (bind_Ret _ _ _ _ _ Hrun3). unfold release.
    rewrite emit_Ret. eexists. split; [done|]. split; [|split; [|split]].
    + simpl. rewrite (stored_trace _ _ St3), Htr. by rewrite <- ?app_assoc.
    + rewrite walk_bound_log. by rewrite (stored_bound _ _ St3).
    + intros x. by rewrite payload_of_log, Hpl3.
    + by apply rep_log.
  - unfold ret at 1. unfold bind at 1. unfold release.
    rewrite emit_Ret. eexists. split; [done|]. split; [|split; [|split]].
    + simpl. rewrite Htr. by rewrite <- ?app_assoc.
    + by rewrite walk_bound_log.
    + intros x. by rewrite payload_of_log.
    + by apply rep_log.
Qed.

Lemma bpin_spec s ticks p bf :
  deref s p = Some bf ->
  exists s', bpin ticks p s = Ret tt s' /\
    trace s' = trace s ++
      [Acquire (hash_lock (Z.to_nat (hash_val (blockno bf))));
       Release (hash_lock (Z.to_nat (hash_val (blockno bf))))] /\
    (forall x, next_of s' x = next_of s x) /\
    (forall x, prev_of s' x = prev_of s x) /\
    (forall x, payload_of s' x =
       if decide (x = p) then hit_buf ticks <$> payload_of s x
       else payload_of s x).
Proof.
  intros Hb. unfold bpin.
  rewrite (bind_Ret _ _ _ _ _ (load_Ret _ _ _ Hb)). cbv zeta.
  unfold acquire. rewrite (bind_Ret _ _ _ _ _ (emit_Ret _ _)).
  set (s0 := log s [Acquire (hash_lock (Z.to_nat (hash_val (blockno bf))))]).
  destruct (set_payload_of s0 p
              (fun bf => with_refcnt (wrap32 (refcnt bf + 1)) bf)
              (fun bf => with_refcnt (wrap32 (refcnt bf + 1)) bf))
    as (s1 & Hrun1 & St1 & Hn1 & Hp1 & Hpl1);
    [by intros [] | unfold s0; rewrite deref_log; eauto |].
  rewrite (bind_Ret _ _ _ _ _ Hrun1).
  destruct (set_payload_of s1 p (with_lru_timestamp ticks)
              (with_lru_timestamp ticks))
    as (s2 & Hrun2 & St2 & Hn2 & Hp2 & Hpl2);
    [by intros [] |
     apply (stored_valid _ _ St1); unfold s0; rewrite deref_log; eauto |].
  rewrite (bind_Ret _ _ _ _ _ Hrun2).
  unfold release. rewrite emit_Ret. eexists. split; [done|].
  split; [|split; [|split]].
  - simpl. rewrite (stored_trace _ _ St2), (stored_trace _ _ St1). simpl.
    by rewrite <- ?app_assoc.
  - intros x. rewrite next_of_log, Hn2, Hn1. apply next_of_log.
  - intros x. rewrite prev_of_log, Hp2, Hp1. apply prev_of_log.
  - intros x. rewrite payload_of_log, Hpl2, Hpl1.
    change (payload_of s0 x) with (payload_of s x).
    case_decide; [|done]. by destruct (payload_of s x).
Qed.

(** ** The claims about [bget] *)

Lemma seq_split n a i b :
  seq 0 n = a ++ i :: b -> a = seq 0 i /\ (i < n)%nat.
Proof.
  intros E.
  assert (Hi : seq 0 n !! length a = Some i).
  { rewrite E. by rewrite list_lookup_middle. }
  apply lookup_seq in Hi as [Hi Hlt]. simpl in Hi. subst i. split; [|done].
  assert (Ht : take (length a) (seq 0 n) = a).
  { rewrite E. by rewrite take_app_length. }
  rewrite take_seq in Ht.
  replace (length a `min` n)%nat with (length a) in Ht by lia. done.
Qed.

Lemma scan_order_prefix_None s bk i h :
  (forall k, (k < i)%nat -> is_Some (bk !! k)) ->
  find (unused s) (scan_order bk (seq 0 i) h) = None ->
  forall k l x, (k < i)%nat -> k <> h -> bk !! k = Some l -> x ∈ l ->
    unused s x = false.
Proof.
  intros Hbk Hf k l x Hk Hne Hl Hx.
  eapply scan_order_None; [| exact Hf | | exact Hne | exact Hl | exact Hx].
  - intros k' Hk'. apply Hbk. apply elem_of_seq in Hk'. lia.
  - apply elem_of_seq. lia.
Qed.

Lemma payload_of_recycled s s' j d bn :
  is_Some (deref s (Buf j)) ->
  (forall x, payload_of s' x =
     if decide (x = Buf j) then recycled d bn <$> payload_of s x
     else payload_of s x) ->
  exists bf bf', payload_of s (Buf j) = Some bf /\
    payload_of s' (Buf j) = Some bf' /\
    dev bf' = d /\ blockno bf' = bn /\ valid bf' = 0 /\ refcnt bf' = 1 /\
    lock bf' = lock bf /\ lru_timestamp bf' = lru_timestamp bf.
Proof.
  intros [b Hb] Hpl. exists (payload b), (recycled d bn (payload b)).
  rewrite Hpl, decide_True by done. unfold payload_of. rewrite Hb. done.
Qed.

(** C1.  When [bget(dev, blockno)] finds the block neither on the first
    look-up nor on the second, the scan goes through the buckets other
    than the target bucket by rising index, each from its least recently
    used end, never holding two donor locks at once.  The first buffer it
    meets with [refcnt == 0] leaves its bucket and becomes the most
    recently used buffer of the target bucket, with the new device and
    block number, [valid] 0 and [refcnt] 1; [bget] then goes on to
    [acquiresleep] on that buffer. *)
Theorem bget_evicts_first_unused (s : bcache) (bk : list (list nat))
    (lh : list nat) (me ticks d bn : Z) (j : nat) :
  rep s bk -> bk !! Z.to_nat (hash_val bn) = Some lh ->
  find (holds_block s d bn) lh = None ->
  find (unused s) (scan_order bk (seq 0 NUM_BUCKET) (Z.to_nat (hash_val bn)))
    = Some j ->
  exists i l1 l2 s',
    i <> Z.to_nat (hash_val bn) /\ (i < NUM_BUCKET)%nat /\
    bk !! i = Some (l1 ++ j :: l2) /\
    (forall k l x, (k < i)%nat -> k <> Z.to_nat (hash_val bn) ->
       bk !! k = Some l -> x ∈ l -> unused s x = false) /\
    (forall x, x ∈ l2 -> unused s x = false) /\
    unused s j = true /\
    bget me ticks d bn s = (acquiresleep me (Buf j) ;; ret (Buf j)) s' /\
    rep s' (<[Z.to_nat (hash_val bn) := j :: lh]> (<[i := l1 ++ l2]> bk)) /\
    (exists bf bf', payload_of s (Buf j) = Some bf /\
       payload_of s' (Buf j) = Some bf' /\
       dev bf' = d /\ blockno bf' = bn /\ valid bf' = 0 /\ refcnt bf' = 1 /\
       lock bf' = lock bf /\ lru_timestamp bf' = lru_timestamp bf) /\
    (forall x, x <> Buf j -> payload_of s' x = payload_of s x) /\
    trace s' = trace s ++
      [Acquire (hash_lock (Z.to_nat (hash_val bn)));
       Release (hash_lock (Z.to_nat (hash_val bn)));
       Acquire bcache_lock; Acquire (hash_lock (Z.to_nat (hash_val bn)))] ++
      visits (seq 0 i) (Z.to_nat (hash_val bn)) ++
      [Acquire (hash_lock i); Release (hash_lock (Z.to_nat (hash_val bn)));
       Release (hash_lock i); Release bcache_lock] /\
    one_donor_at_a_time (Z.to_nat (hash_val bn))
      ([Acquire (hash_lock (Z.to_nat (hash_val bn)));
        Release (hash_lock (Z.to_nat (hash_val bn)));
        Acquire bcache_lock; Acquire (hash_lock (Z.to_nat (hash_val bn)))] ++
       visits (seq 0 i) (Z.to_nat (hash_val bn)) ++
       [Acquire (hash_lock i); Release (hash_lock (Z.to_nat (hash_val bn)));
        Release (hash_lock i); Release bcache_lock]).
Proof.
  intros Hrep Hh Hmiss Hvict.
  destruct (bget_evict s bk lh me ticks d bn j Hrep Hh Hmiss Hvict)
    as (bs1 & i & bs2 & l1 & l2 & s' & E & Hi & Hl & Hn1 & Hn2 & Hu
        & Hrun & Hrep' & Htr & Hwb & Hpl).
  apply seq_split in E as [-> Hlt].
  exists i, l1, l2, s'. split; [done|]. split; [done|]. split; [done|].
  split.
  { apply scan_order_prefix_None; [|done]. intros k Hk.
    apply (rep_lookup_is_Some s); [done | lia]. }
  split.
  { intros x Hx. rewrite find_None_iff in Hn2. apply Hn2.
    apply list_elem_of_In, in_rev. rewrite rev_involutive.
    by apply list_elem_of_In. }
  split; [done|]. split; [done|]. split; [done|]. split.
  { apply payload_of_recycled; [|done].
    eapply rep_valid_buf; [exact Hrep | exact Hl |].
    apply elem_of_app. right. by left. }
  split.
  { intros x Hx. by rewrite Hpl, decide_False. }
  split; [done|]. by apply one_donor_eviction.
Qed.

(** C2, as the code has it.  [bget] panics exactly when the block is not
    in the target bucket and no bucket other than the target bucket holds
    a buffer with [refcnt == 0].  Buffers of the target bucket itself are
    never looked at for eviction. *)
Theorem bget_panics_iff (s : bcache) (bk : list (list nat)) (lh : list nat)
    (me ticks d bn : Z) :
  rep s bk -> bk !! Z.to_nat (hash_val bn) = Some lh ->
  ((exists msg s', bget me ticks d bn s = Panic msg s') <->
   (find (holds_block s d bn) lh = None /\
    forall i l j, i <> Z.to_nat (hash_val bn) -> bk !! i = Some l -> j ∈ l ->
      unused s j = false)).
Proof.
  intros Hrep Hh.
  assert (Hbs : forall i, i ∈ seq 0 NUM_BUCKET -> is_Some (bk !! i))
    by (intros i Hi; by eapply seq_buckets_is_Some).
  pose proof (scan_order_None s bk (seq 0 NUM_BUCKET)
                (Z.to_nat (hash_val bn)) Hbs) as Hiff.
  destruct (find (holds_block s d bn) lh) as [j|] eqn:Hfind.
  - destruct (bget_hit s bk lh me ticks d bn j Hrep Hh Hfind)
      as (s' & Hrun & _).
    split; [|by intros [? _]]. intros (msg & s2 & Hp). rewrite Hrun in Hp.
    by apply acquiresleep_no_panic in Hp.
  - destruct (find (unused s) (scan_order bk (seq 0 NUM_BUCKET)
                                 (Z.to_nat (hash_val bn)))) as [j|] eqn:Hv.
    + destruct (bget_evict s bk lh me ticks d bn j Hrep Hh Hfind Hv)
        as (? & ? & ? & ? & ? & s' & _ & _ & _ & _ & _ & _ & Hrun & _).
      split.
      * intros (msg & s2 & Hp). rewrite Hrun in Hp.
        by apply acquiresleep_no_panic in Hp.
      * intros [_ Hall]. exfalso. destruct Hiff as [_ Hiff].
        discriminate Hiff. intros i0 l0 y Hi0. by apply Hall.
    + split.
      * intros _. split; [done|]. intros i0 l0 y Hi0 Hl Hy.
        destruct Hiff as [Hiff _]. eapply Hiff; try done.
        apply elem_of_seq. apply lookup_lt_Some in Hl.
        rewrite (proj1 (proj1 Hrep)) in Hl. lia.
      * intros _. rewrite (bget_panic s bk lh me ticks d bn); eauto.
Qed.

Lemma held_from_visits h : forall bs acc,
  (forall k, k ∈ bs -> k <> h -> hash_lock k ∉ acc) ->
  held_from acc (visits bs h) = acc.
Proof.
  induction bs as [|i bs IH]; intros acc Hacc; [done|].
  rewrite visits_cons. destruct (decide (i = h)) as [->|Hne].
  - simpl. apply IH. intros k Hk. apply Hacc. by right.
  - rewrite held_from_app.
    assert (E : held_from acc [Acquire (hash_lock i); Release (hash_lock i)]
                = acc).
    { unfold held_from. simpl.
      rewrite filter_cons_False by (intros X; by apply X).
      induction acc as [|a acc IHa]; [done|].
      rewrite filter_cons_True.
      - f_equal. apply IHa. intros k Hk Hkh Hin. eapply Hacc; eauto.
        by right.
      - intros ->. eapply (Hacc i); [by left | done | by left]. }
    rewrite E. apply IH. intros k Hk. apply Hacc. by right.
Qed.

(** C9, as the code has it.  On the eviction path [bget] has taken the
    global lock, then the lock of the target bucket, then the lock of the
    donor bucket.  It drops the lock of the target bucket first, then the
    lock of the donor bucket, then the global lock, holds no lock after
    that, and only then goes on to [acquiresleep]. *)
Theorem bget_eviction_release_order (s : bcache) (bk : list (list nat))
    (lh : list nat) (me ticks d bn : Z) (j : nat) :
  rep s bk -> bk !! Z.to_nat (hash_val bn) = Some lh ->
  find (holds_block s d bn) lh = None ->
  find (unused s) (scan_order bk (seq 0 NUM_BUCKET) (Z.to_nat (hash_val bn)))
    = Some j ->
  exists i pre s',
    i <> Z.to_nat (hash_val bn) /\
    bget me ticks d bn s = (acquiresleep me (Buf j) ;; ret (Buf j)) s' /\
    trace s' = trace s ++ pre ++
      [Release (hash_lock (Z.to_nat (hash_val bn)));
       Release (hash_lock i); Release bcache_lock] /\
    held pre = [hash_lock i; hash_lock (Z.to_nat (hash_val bn)); bcache_lock] /\
    held (pre ++ [Release (hash_lock (Z.to_nat (hash_val bn)));
                  Release (hash_lock i); Release bcache_lock]) = [].
Proof.
  intros Hrep Hh Hmiss Hvict.
  destruct (bget_evict s bk lh me ticks d bn j Hrep Hh Hmiss Hvict)
    as (bs1 & i & bs2 & l1 & l2 & s' & E & Hi & Hl & Hn1 & Hn2 & Hu
        & Hrun & Hrep' & Htr & Hwb & Hpl).
  set (h := Z.to_nat (hash_val bn)) in *.
  exists i,
    ([Acquire (hash_lock h); Release (hash_lock h);
      Acquire bcache_lock; Acquire (hash_lock h)] ++
     visits bs1 h ++ [Acquire (hash_lock i)]), s'.
  split; [done|]. split; [done|]. split.
  { rewrite Htr. by rewrite <- !app_assoc. }
  assert (Hpre : held ([Acquire (hash_lock h); Release (hash_lock h);
                        Acquire bcache_lock; Acquire (hash_lock h)] ++
                       visits bs1 h ++ [Acquire (hash_lock i)])
                 = [hash_lock i; hash_lock h; bcache_lock]).
  { unfold held. rewrite !held_from_app.
    assert (E0 : held_from [] [Acquire (hash_lock h); Release (hash_lock h);
                               Acquire bcache_lock; Acquire (hash_lock h)]
                 = [hash_lock h; bcache_lock]).
    { unfold held_from. simpl.
      by rewrite filter_cons_False by (intros X; by apply X). }
    rewrite E0, held_from_visits; [done|].
    intros k Hk Hkh [Hin|Hin]%elem_of_cons; [congruence|].
    by apply list_elem_of_singleton in Hin. }
  split; [done|].
  unfold held in *. rewrite held_from_app, Hpre. unfold held_from. simpl.
  rewrite (filter_cons_True _ (hash_lock i)) by congruence.
  rewrite (filter_cons_False _ (hash_lock h)) by (intros X; by apply X).
  rewrite (filter_cons_True _ bcache_lock) by done.
  rewrite filter_nil.
  rewrite (filter_cons_False _ (hash_lock i)) by (intros X; by apply X).
  rewrite (filter_cons_True _ bcache_lock) by done.
  rewrite filter_nil.
  by rewrite (filter_cons_False _ bcache_lock) by (intros X; by apply X).
Qed.


Lemma find_ext_in {A} (P Q : A -> bool) l :
  (forall x, P x = Q x) -> find P l = find Q l.
Proof.
  intros H. induction l as [|a l IH]; simpl; [done|]. by rewrite H, IH.
Qed.


Lemma payload_of_released s s' j bf :
  deref s (Buf j) = Some bf ->
  (forall x, payload_of s' x =
     if decide (x = Buf j) then released <$> payload_of s x
     else payload_of s x) ->
  exists bf', payload_of s' (Buf j) = Some bf' /\
    refcnt bf' = wrap32 (refcnt bf - 1) /\
    lock bf' = {| locked := false; pid := 0 |} /\
    dev bf' = dev bf /\ blockno bf' = blockno bf /\ valid bf' = valid bf /\
    lru_timestamp bf' = lru_timestamp bf.
Proof.
  intros Hb Hpl. exists (released (payload bf)).
  rewrite Hpl, decide_True by done. unfold payload_of. rewrite Hb. done.
Qed.

(** C6.  [bwrite] and [brelse] panic exactly when the caller does not
    hold the sleep lock of the buffer.  When the lock is held, [brelse]
    releases it, takes one off [refcnt], and makes the buffer the most
    recently used one of its bucket exactly when [refcnt] has become 0;
    otherwise the lists stay as they are. *)
Theorem bwrite_brelse_need_lock (s : bcache) (bk : list (list nat))
    (me : Z) (j : nat) (bf : buf) (l1 l2 : list nat) :
  rep s bk -> deref s (Buf j) = Some bf ->
  bk !! Z.to_nat (hash_val (blockno bf)) = Some (l1 ++ j :: l2) ->
  ((exists msg s', bwrite me (Buf j) s = Panic msg s') <->
     holding me (lock bf) = false) /\
  ((exists msg s', brelse me (Buf j) s = Panic msg s') <->
     holding me (lock bf) = false) /\
  (holding me (lock bf) = true ->
     bwrite me (Buf j) s = Ret tt (log s [DiskWrite (Buf j)]) /\
     exists s' bf',
       brelse me (Buf j) s = Ret tt s' /\
       payload_of s' (Buf j) = Some bf' /\
       refcnt bf' = wrap32 (refcnt bf - 1) /\
       lock bf' = {| locked := false; pid := 0 |} /\
       (refcnt bf' = 0 ->
          rep s' (<[Z.to_nat (hash_val (blockno bf)) := j :: l1 ++ l2]> bk)) /\
       (refcnt bf' <> 0 -> rep s' bk) /\
       (forall x, x <> Buf j -> payload_of s' x = payload_of s x) /\
       trace s' = trace s ++
         [ReleaseSleep (Buf j);
          Acquire (hash_lock (Z.to_nat (hash_val (blockno bf))));
          Release (hash_lock (Z.to_nat (hash_val (blockno bf))))]).
Proof.
  intros Hrep Hb Hh.
  pose proof (bwrite_spec me (Buf j) s bf Hb) as Hw.
  destruct (holding me (lock bf)) eqn:Hhold.
  - destruct (brelse_holding s bk me j bf l1 l2 Hrep Hb Hh Hhold)
      as (s' & Hrun & Htr & _ & Hpl & Hrep').
    destruct (payload_of_released s s' j bf Hb Hpl)
      as (bf' & Hbf' & Hrc & Hlk & _).
    split; [|split].
    + split; [|done]. intros (msg & s2 & Hp). by rewrite Hw in Hp.
    + split; [|done]. intros (msg & s2 & Hp). by rewrite Hrun in Hp.
    + intros _. split; [done|]. exists s', bf'.
      split; [done|]. split; [done|]. split; [done|]. split; [done|].
      rewrite Hrc. split; [|split; [|split; [|done]]].
      * intros Hz. apply Z.eqb_eq in Hz. by rewrite Hz in Hrep'.
      * intros Hnz. apply Z.eqb_neq in Hnz. by rewrite Hnz in Hrep'.
      * intros x Hx. by rewrite Hpl, decide_False.
  - split; [|split; [|done]].
    + split; [done|]. intros _. eauto.
    + split; [done|]. intros _. rewrite (brelse_not_holding me _ s bf); eauto.
Qed.

(** ** The claims on example runs *)

Lemma buckets_from_lookup s : forall bk i0 i l,
  buckets_from s i0 bk -> bk !! i = Some l -> bucket s (i0 + i) l.
Proof.
  induction bk as [|l0 bk IH]; intros i0 i l H Hl; [done|].
  destruct H as [H0 H]. destruct i as [|i]; simpl in Hl.
  - injection Hl as <-. by rewrite Nat.add_0_r.
  - rewrite <- Nat.add_succ_comm. by eapply IH.
Qed.

Lemma NoDup_concat_disjoint (bk : list (list nat)) :
  NoDup (concat bk) -> disjoint_buckets bk.
Proof.
  induction bk as [|l0 bk IH]; simpl; intros Hnd.
  - split; intros i; by rewrite ?lookup_nil.
  - apply NoDup_app in Hnd as (Hnd0 & Hdis & Hnd).
    destruct (IH Hnd) as [IH1 IH2].
    assert (Hin : forall k l j, bk !! k = Some l -> j ∈ l -> j ∈ concat bk).
    { intros k l j Hk Hj. apply list_elem_of_In, in_concat.
      exists l. split; apply list_elem_of_In; [|done].
      by eapply list_elem_of_lookup_2. }
    split.
    + intros [|i] l Hl; simpl in Hl; [by injection Hl as <- | eauto].
    + intros [|i] [|k] li lk j Hi Hk Hji Hjk; simpl in *; try done.
      * injection Hi as <-. exfalso. eapply Hdis; eauto.
      * injection Hk as <-. exfalso. eapply Hdis; eauto.
      * f_equal. eauto.
Qed.

Lemma rep_intro s bk :
  length bk = NUM_BUCKET -> buckets_from s 0 bk -> NoDup (concat bk) ->
  rep s bk.
Proof.
  intros Hlen Hb Hnd. split; [|by apply NoDup_concat_disjoint].
  split; [done|]. intros i l Hl.
  apply (buckets_from_lookup s bk 0 i l Hb Hl).
Qed.

Lemma boot_rep : rep boot boot_buckets.
Proof.
  apply rep_intro; [reflexivity | vm_compute; repeat split |].
  apply (bool_decide_unpack _). by vm_compute.
Qed.

Lemma boot_read_rep : rep boot_read boot_read_buckets.
Proof.
  apply rep_intro; [reflexivity | vm_compute; repeat split |].
  apply (bool_decide_unpack _). by vm_compute.
Qed.

Lemma crowded_rep : rep crowded crowded_buckets.
Proof.
  apply rep_intro; [reflexivity | vm_compute; repeat split |].
  apply (bool_decide_unpack _). by vm_compute.
Qed.

Lemma bget_evicts_first_unused_witness :
  rep boot boot_buckets /\
  boot_buckets !! Z.to_nat (hash_val 1) = Some [27; 14; 1]%nat /\
  find (holds_block boot 1 1) [27; 14; 1]%nat = None /\
  find (unused boot)
    (scan_order boot_buckets (seq 0 NUM_BUCKET) (Z.to_nat (hash_val 1)))
    = Some 0%nat /\
  exists i l1 l2 s',
    boot_buckets !! i = Some (l1 ++ 0%nat :: l2) /\
    bget 1 100 1 1 boot = (acquiresleep 1 (Buf 0) ;; ret (Buf 0)) s' /\
    rep s' (<[Z.to_nat (hash_val 1) := [0; 27; 14; 1]%nat]>
              (<[i := l1 ++ l2]> boot_buckets)).
Proof.
  assert (H1 : boot_buckets !! Z.to_nat (hash_val 1) = Some [27; 14; 1]%nat)
    by (vm_compute; reflexivity).
  assert (H2 : find (holds_block boot 1 1) [27; 14; 1]%nat = None)
    by (vm_compute; reflexivity).
  assert (H3 : find (unused boot)
    (scan_order boot_buckets (seq 0 NUM_BUCKET) (Z.to_nat (hash_val 1)))
    = Some 0%nat) by (vm_compute; reflexivity).
  split; [exact boot_rep|]. split; [exact H1|]. split; [exact H2|].
  split; [exact H3|].
  destruct (bget_evicts_first_unused boot boot_buckets [27; 14; 1]%nat
              1 100 1 1 0%nat boot_rep H1 H2 H3)
    as (i & l1 & l2 & s' & _ & _ & Hl & _ & _ & _ & Hrun & Hrep & _).
  exists i, l1, l2, s'. split; [exact Hl|]. split; [exact Hrun | exact Hrep].
Defined.

(** C2 fails as stated: after twenty-seven blocks of bucket 1 have been
    read and released, no buffer of the cache is in use, and reading a
    twenty-eighth block of bucket 1 panics. *)
Lemma bget_panics_with_every_buffer_unused :
  length (bcache_buf crowded) = 30%nat /\
  Forall (fun b => refcnt b = 0) (bcache_buf crowded) /\
  exists s', bget 1 200 1 352 crowded = Panic "bget: no buffers" s'.
Proof.
  split; [by vm_compute|]. split.
  - apply (bool_decide_unpack _). by vm_compute.
  - eexists. vm_compute. reflexivity.
Qed.

Lemma bget_panics_iff_witness :
  rep crowded crowded_buckets /\
  (exists lh, crowded_buckets !! Z.to_nat (hash_val 352) = Some lh /\
     find (holds_block crowded 1 352) lh = None) /\
  (exists msg s', bget 1 200 1 352 crowded = Panic msg s').
Proof.
  assert (H1 : crowded_buckets !! Z.to_nat (hash_val 352)
               = Some (default [] (crowded_buckets !! 1%nat)))
    by (vm_compute; reflexivity).
  pose proof (bget_panics_iff crowded crowded_buckets _ 1 200 1 352
                crowded_rep H1) as [_ Hpanic].
  assert (H2 : find (holds_block crowded 1 352)
                 (default [] (crowded_buckets !! 1%nat)) = None)
    by (vm_compute; reflexivity).
  split; [exact crowded_rep|]. split; [eexists; split; [exact H1 | exact H2]|].
  apply Hpanic. split; [exact H2|].
  intros i l j Hi Hl Hj. exfalso.
  do 13 (destruct i as [|i];
         [first [ by (exfalso; apply Hi; reflexivity)
                | injection Hl as <-; by apply elem_of_nil in Hj ] |]).
  discriminate Hl.
Defined.

(** C9 fails as stated: on the eviction of buffer 0 out of bucket 0 for
    a block of bucket 1, the lock of the target bucket 1 is dropped
    before the lock of the donor bucket 0, which was taken last. *)
Lemma bget_drops_target_lock_first :
  exists s',
    bget 1 100 1 1 boot = Ret (Buf 0) s' /\
    trace s' =
      [Acquire (hash_lock 1); Release (hash_lock 1);
       Acquire bcache_lock; Acquire (hash_lock 1); Acquire (hash_lock 0);
       Release (hash_lock 1); Release (hash_lock 0); Release bcache_lock;
       AcquireSleep (Buf 0)] /\
    drop 5 (trace s') <>
      [Release (hash_lock 0); Release (hash_lock 1); Release bcache_lock;
       AcquireSleep (Buf 0)].
Proof.
  eexists. split; [vm_compute; reflexivity|]. split; [reflexivity|].
  simpl. discriminate.
Qed.

Lemma bget_eviction_release_order_witness :
  rep boot boot_buckets /\
  boot_buckets !! Z.to_nat (hash_val 1) = Some [27; 14; 1]%nat /\
  find (holds_block boot 1 1) [27; 14; 1]%nat = None /\
  find (unused boot)
    (scan_order boot_buckets (seq 0 NUM_BUCKET) (Z.to_nat (hash_val 1)))
    = Some 0%nat /\
  exists i pre s',
    bget 1 100 1 1 boot = (acquiresleep 1 (Buf 0) ;; ret (Buf 0)) s' /\
    trace s' = trace boot ++ pre ++
      [Release (hash_lock (Z.to_nat (hash_val 1)));
       Release (hash_lock i); Release bcache_lock] /\
    held pre = [hash_lock i; hash_lock (Z.to_nat (hash_val 1)); bcache_lock].
Proof.
  assert (H1 : boot_buckets !! Z.to_nat (hash_val 1) = Some [27; 14; 1]%nat)
    by (vm_compute; reflexivity).
  assert (H2 : find (holds_block boot 1 1) [27; 14; 1]%nat = None)
    by (vm_compute; reflexivity).
  assert (H3 : find (unused boot)
    (scan_order boot_buckets (seq 0 NUM_BUCKET) (Z.to_nat (hash_val 1)))
    = Some 0%nat) by (vm_compute; reflexivity).
  split; [exact boot_rep|]. split; [exact H1|]. split; [exact H2|].
  split; [exact H3|].
  destruct (bget_eviction_release_order boot boot_buckets [27; 14; 1]%nat
              1 100 1 1 0%nat boot_rep H1 H2 H3)
    as (i & pre & s' & _ & Hrun & Htr & Hheld & _).
  exists i, pre, s'. split; [exact Hrun|]. split; [exact Htr | exact Hheld].
Defined.



Lemma bwrite_brelse_need_lock_witness :
  rep boot_read boot_read_buckets /\
  deref boot_read (Buf 0) = Some boot_read_buf0 /\
  boot_read_buckets !! Z.to_nat (hash_val (blockno boot_read_buf0))
    = Some ([] ++ 0%nat :: [27; 14; 1]%nat) /\
  holding 1 (lock boot_read_buf0) = true /\
  holding 2 (lock boot_read_buf0) = false /\
  (exists msg s', bwrite 2 (Buf 0) boot_read = Panic msg s') /\
  (exists msg s', brelse 2 (Buf 0) boot_read = Panic msg s') /\
  (exists s' bf',
     brelse 1 (Buf 0) boot_read = Ret tt s' /\
     payload_of s' (Buf 0) = Some bf' /\ refcnt bf' = 0 /\
     rep s' (<[Z.to_nat (hash_val (blockno boot_read_buf0))
               := 0%nat :: [] ++ [27; 14; 1]%nat]> boot_read_buckets)).
Proof.
  assert (Hd : deref boot_read (Buf 0) = Some boot_read_buf0)
    by (vm_compute; reflexivity).
  assert (Hh : boot_read_buckets !! Z.to_nat (hash_val (blockno boot_read_buf0))
               = Some ([] ++ 0%nat :: [27; 14; 1]%nat))
    by (vm_compute; reflexivity).
  assert (H1 : holding 1 (lock boot_read_buf0) = true)
    by (vm_compute; reflexivity).
  assert (H2 : holding 2 (lock boot_read_buf0) = false)
    by (vm_compute; reflexivity).
  split; [exact boot_read_rep|]. split; [exact Hd|]. split; [exact Hh|].
  split; [exact H1|]. split; [exact H2|].
  destruct (bwrite_brelse_need_lock boot_read boot_read_buckets 2 0%nat
              boot_read_buf0 [] [27; 14; 1]%nat boot_read_rep Hd Hh)
    as ([_ Hw] & [_ Hr] & _).
  destruct (bwrite_brelse_need_lock boot_read boot_read_buckets 1 0%nat
              boot_read_buf0 [] [27; 14; 1]%nat boot_read_rep Hd Hh)
    as (_ & _ & Hok).
  split; [|split].
  - exact (Hw H2).
  - exact (Hr H2).
  - destruct (Hok H1) as (_ & s' & bf' & Hrun & Hbf' & Hrc & _ & Hmove & _ & _).
    assert (Hz : refcnt bf' = 0) by (rewrite Hrc; vm_compute; reflexivity).
    exists s', bf'. split; [exact Hrun|]. split; [exact Hbf'|].
    split; [exact Hz|]. exact (Hmove Hz).
Defined.

(** ** Processes side by side *)

Lemma count_insert f l t p q :
  l !! t = Some p ->
  (count f (<[t := q]> l) + (if f p then 1 else 0) =
   count f l + (if f q then 1 else 0))%nat.
Proof.
  revert t. induction l as [|a l IH]; intros t Ht; [done|].
  destruct t as [|t]; simpl in *.
  - injection Ht as ->. lia.
  - specialize (IH t Ht). lia.
Qed.

Lemma count_le_length f l : (count f l <= length l)%nat.
Proof. induction l as [|a l IH]; simpl; [lia|]. destruct (f a); lia. Qed.

Lemma count_lookup_pos f l t p :
  l !! t = Some p -> f p = true -> (1 <= count f l)%nat.
Proof.
  revert t. induction l as [|a l IH]; intros t Ht Hp; [done|].
  destruct t as [|t]; simpl in *.
  - injection Ht as ->. rewrite Hp. lia.
  - specialize (IH t Ht Hp). lia.
Qed.

Lemma count_unique f l t1 t2 p1 p2 :
  l !! t1 = Some p1 -> f p1 = true -> l !! t2 = Some p2 -> f p2 = true ->
  (count f l <= 1)%nat -> t1 = t2.
Proof.
  revert t1 t2. induction l as [|a l IH]; intros t1 t2 H1 Hp1 H2 Hp2 Hc;
    [done|].
  destruct t1 as [|t1], t2 as [|t2]; simpl in *; try done.
  - injection H1 as ->. rewrite Hp1 in Hc.
    pose proof (count_lookup_pos f l t2 p2 H2 Hp2). lia.
  - injection H2 as ->. rewrite Hp2 in Hc.
    pose proof (count_lookup_pos f l t1 p1 H1 Hp1). lia.
  - f_equal. eapply IH; eauto. destruct (f a); lia.
Qed.

Lemma count_none f l :
  Forall (fun p => f p = false) l -> count f l = 0%nat.
Proof. induction 1 as [|a l Ha _ IH]; simpl; [done|]. by rewrite Ha, IH. Qed.

Lemma in_bget_others l :
  Forall (fun p => in_bget p = true) l ->
  count refs l = 0%nat /\ count owns l = 0%nat /\ count past_read l = 0%nat /\
  forall b, Forall (on_buffer b) l.
Proof.
  intros H. repeat split.
  1-3: apply count_none; eapply Forall_impl; [exact H|]; by intros [].
  intros b. eapply Forall_impl; [exact H|]. by intros [].
Qed.

Lemma disk_reads_app a b :
  disk_reads (a ++ b) = (disk_reads a + disk_reads b)%nat.
Proof.
  induction a as [|e a IH]; simpl; [done|]. destruct e; simpl; lia.
Qed.

Lemma disk_reads_visits bs h : disk_reads (visits bs h) = 0%nat.
Proof.
  induction bs as [|i bs IH]; [done|]. rewrite visits_cons, disk_reads_app, IH.
  by destruct (decide (i = h)).
Qed.

Lemma payload_of_deref s p pb :
  payload_of s p = Some pb ->
  exists bf, deref s p = Some bf /\ payload bf = pb.
Proof.
  unfold payload_of. destruct (deref s p) as [bf|]; [|done].
  intros [= <-]. eauto.
Qed.

Lemma holds_block_payload s d bn j :
  holds_block s d bn j =
    match payload_of s (Buf j) with
    | Some b => (dev b =? d) && (blockno b =? bn)
    | None => false
    end.
Proof.
  unfold holds_block, payload_of. simpl.
  by destruct (bcache_buf s !! j).
Qed.

(** A store that keeps the device and the block of every buffer keeps
    what a look-up finds. *)
Lemma find_holds_block_stable s s' d bn l (f : buf -> buf) p :
  (forall b, dev (f b) = dev b /\ blockno (f b) = blockno b) ->
  (forall x, payload_of s' x =
     if decide (x = p) then f <$> payload_of s x else payload_of s x) ->
  find (holds_block s' d bn) l = find (holds_block s d bn) l.
Proof.
  intros Hf Hpl. apply find_ext_in. intros x.
  rewrite !holds_block_payload, Hpl. case_decide; [|done].
  destruct (payload_of s (Buf x)) as [b|]; [|done]. simpl.
  by destruct (Hf b) as [-> ->].
Qed.

Lemma acquiresleep_busy me p s bf :
  deref s p = Some bf -> locked (lock bf) = true ->
  acquiresleep me p s = Sleeping p s.
Proof.
  intros Hb Hl. unfold acquiresleep.
  by rewrite (bind_Ret _ _ _ _ _ (load_Ret _ _ _ Hb)), Hl.
Qed.

Lemma acquiresleep_free me p s bf :
  deref s p = Some bf -> locked (lock bf) = false ->
  exists s', acquiresleep me p s = Ret tt s' /\
    trace s' = trace s ++ [AcquireSleep p] /\
    (forall x, next_of s' x = next_of s x) /\
    (forall x, prev_of s' x = prev_of s x) /\
    (forall x, payload_of s' x =
       if decide (x = p)
       then with_lock {| locked := true; pid := me |} <$> payload_of s x
       else payload_of s x).
Proof.
  intros Hb Hl. unfold acquiresleep.
  rewrite (bind_Ret _ _ _ _ _ (load_Ret _ _ _ Hb)), Hl.
  destruct (set_payload_of s p (with_lock {| locked := true; pid := me |})
              (with_lock {| locked := true; pid := me |}))
    as (s1 & Hrun & St & Hn & Hp & Hpl); [by intros [] | eauto |].
  rewrite (bind_Ret _ _ _ _ _ Hrun), emit_Ret.
  eexists. split; [done|]. split; [|split; [|split]].
  - simpl. by rewrite (stored_trace _ _ St).
  - intros x. by rewrite next_of_log.
  - intros x. by rewrite prev_of_log.
  - intros x. by rewrite payload_of_log.
Qed.

(** The disk is read exactly when [valid] is 0. *)
Lemma bread_fill_spec p s bf :
  deref s p = Some bf ->
  exists s', bread_fill p s = Ret p s' /\
    trace s' = trace s ++ (if valid bf =? 0 then [DiskRead p] else []) /\
    (forall x, next_of s' x = next_of s x) /\
    (forall x, prev_of s' x = prev_of s x) /\
    (forall x, payload_of s' x =
       if decide (x = p)
       then (if valid bf =? 0 then with_valid 1 else id) <$> payload_of s x
       else payload_of s x).
Proof.
  intros Hb. unfold bread_fill.
  rewrite (bind_Ret _ _ _ _ _ (load_Ret _ _ _ Hb)).
  destruct (valid bf =? 0).
  - unfold virtio_disk_rw. rewrite (bind_Ret _ _ _ _ _ (emit_Ret _ _)).
    destruct (set_payload_of (log s [DiskRead p]) p (with_valid 1)
                (with_valid 1))
      as (s1 & Hrun & St & Hn & Hp & Hpl);
      [by intros [] | rewrite deref_log; eauto |].
    rewrite (bind_Ret _ _ _ _ _ Hrun).
    exists s1. split; [done|]. split; [|split; [|split]].
    + by rewrite (stored_trace _ _ St).
    + intros x. rewrite Hn. apply next_of_log.
    + intros x. rewrite Hp. apply prev_of_log.
    + intros x. rewrite Hpl. by rewrite !payload_of_log.
  - exists s. split; [done|]. split; [by rewrite app_nil_r|].
    split; [done|]. split; [done|]. intros x. case_decide; [|done].
    by destruct (payload_of s x).
Qed.

(** [brelse] is its two parts, one after the other. *)
Lemma brelse_pieces me b s :
  brelse me b s = (brelse_unlock me b ;; brelse_put b) s.
Proof.
  unfold brelse, brelse_unlock. rewrite bind_assoc.
  unfold bind at 1. unfold bind at 7.
  destruct (holdingsleep me b s) as [hd s1| | | |]; try done.
  by destruct hd.
Qed.

Lemma brelse_unlock_spec me p s bf :
  deref s p = Some bf -> holding me (lock bf) = true ->
  exists s', brelse_unlock me p s = Ret tt s' /\
    trace s' = trace s ++ [ReleaseSleep p] /\
    (forall x, next_of s' x = next_of s x) /\
    (forall x, prev_of s' x = prev_of s x) /\
    (forall x, payload_of s' x =
       if decide (x = p)
       then with_lock {| locked := false; pid := 0 |} <$> payload_of s x
       else payload_of s x).
Proof.
  intros Hb Hhold. unfold brelse_unlock.
  rewrite (bind_Ret _ _ _ _ _ (holdingsleep_Ret _ _ _ _ Hb)), Hhold.
  cbn [negb]. unfold releasesleep.
  destruct (set_payload_deref s p
              (with_lock {| locked := false; pid := 0 |})
              (with_lock {| locked := false; pid := 0 |}) bf)
    as (s1 & Hrun1 & St1 & Hn1 & Hp1 & Hpl1 & Hd1); [by intros [] | done |].
  rewrite (bind_Ret _ _ _ _ _ Hrun1), emit_Ret.
  eexists. split; [done|]. split; [|split; [|split]].
  - simpl. by rewrite (stored_trace _ _ St1).
  - intros x. by rewrite next_of_log.
  - intros x. by rewrite prev_of_log.
  - intros x. by rewrite payload_of_log.
Qed.

Lemma brelse_put_spec s bk j bf l1 l2 :
  rep s bk -> deref s (Buf j) = Some bf ->
  bk !! Z.to_nat (hash_val (blockno bf)) = Some (l1 ++ j :: l2) ->
  exists s', brelse_put (Buf j) s = Ret tt s' /\
    trace s' = trace s ++
      [Acquire (hash_lock (Z.to_nat (hash_val (blockno bf))));
       Release (hash_lock (Z.to_nat (hash_val (blockno bf))))] /\
    (forall x, payload_of s' x =
       if decide (x = Buf j) then dropped <$> payload_of s x
       else payload_of s x) /\
    rep s' (if wrap32 (refcnt bf - 1) =? 0
            then <[Z.to_nat (hash_val (blockno bf)) := j :: l1 ++ l2]> bk
            else bk).
Proof.
  intros Hrep Hb Hh. unfold brelse_put.
  set (h := Z.to_nat (hash_val (blockno bf))) in *.
  rewrite (bind_Ret _ _ _ _ _ (load_Ret _ _ _ Hb)). fold h. cbv zeta.
  unfold acquire. rewrite (bind_Ret _ _ _ _ _ (emit_Ret _ _)).
  destruct (set_payload_deref (log s [Acquire (hash_lock h)]) (Buf j)
              (fun bf => with_refcnt (wrap32 (refcnt bf - 1)) bf)
              dropped bf)
    as (s2 & Hrun2 & St2 & Hn2 & Hp2 & Hpl2 & Hd2);
    [by intros [] | by rewrite deref_log |].
  rewrite (bind_Ret _ _ _ _ _ Hrun2).
  rewrite (bind_Ret _ _ _ _ _ (load_Ret _ _ _ Hd2)).
  change (refcnt (with_refcnt (wrap32 (refcnt bf - 1)) bf))
    with (wrap32 (refcnt bf - 1)).
  assert (Hrep2 : rep s2 bk).
  { eapply rep_ext; [exact Hn2 | exact Hp2 |]. by apply rep_log. }
  assert (Hpl : forall x, payload_of s2 x =
     if decide (x = Buf j) then dropped <$> payload_of s x
     else payload_of s x).
  { intros x. by rewrite Hpl2, payload_of_log. }
  assert (Htr : trace s2 = trace s ++ [Acquire (hash_lock h)]).
  { by rewrite (stored_trace _ _ St2). }
  destruct (wrap32 (refcnt bf - 1) =? 0).
  - destruct (move_to_front_spec s2 bk h l1 j l2 Hrep2 Hh)
      as (s3 & Hrun3 & St3 & Hrep3 & Hpl3).
    rewrite (bind_Ret _ _ _ _ _ Hrun3). unfold release.
    rewrite emit_Ret. eexists. split; [done|]. split; [|split].
    + simpl. rewrite (stored_trace _ _ St3), Htr. by rewrite <- ?app_assoc.
    + intros x. by rewrite payload_of_log, Hpl3.
    + by apply rep_log.
  - unfold ret at 1. unfold bind at 1. unfold release.
    rewrite emit_Ret. eexists. split; [done|]. split; [|split].
    + simpl. rewrite Htr. by rewrite <- ?app_assoc.
    + intros x. by rewrite payload_of_log.
    + by apply rep_log.
Qed.

Lemma lock_payload b : lock (payload b) = lock b.
Proof. by destruct b. Qed.

Lemma find_holds_true s d bn l j :
  find (holds_block s d bn) l = Some j -> holds_block s d bn j = true.
Proof. intros H. by apply find_some in H as [_ ?]. Qed.

Lemma holds_block_fields s d bn j pb :
  payload_of s (Buf j) = Some pb -> holds_block s d bn j = true ->
  dev pb = d /\ blockno pb = bn.
Proof.
  intros Hpb. rewrite holds_block_payload, Hpb.
  intros [H1 H2]%andb_prop. split; by apply Z.eqb_eq.
Qed.

Section SameBlock.

Variables (s0 : bcache) (bk0 : list (list nat)) (lh0 : list nat).
Variables (d bn : Z) (j n : nat) (bf0 : buf).

Hypothesis rep0 : rep s0 bk0.
Hypothesis bucket0 : bk0 !! Z.to_nat (hash_val bn) = Some lh0.
Hypothesis miss0 : find (holds_block s0 d bn) lh0 = None.
Hypothesis victim0 :
  find (unused s0)
    (scan_order bk0 (seq 0 NUM_BUCKET) (Z.to_nat (hash_val bn))) = Some j.
Hypothesis buf0 : deref s0 (Buf j) = Some bf0.
Hypothesis free0 : locked (lock bf0) = false.
Hypothesis few : Z.of_nat n < 2 ^ 32.

Local Abbreviation h := (Z.to_nat (hash_val bn)).

(** Nobody is past the second look-up, and a process runs the first
    one: a miss. *)
Lemma step_first_miss m t ticks evs :
  length (procs m) = n -> procs m !! t = Some Start ->
  cache m = log s0 evs -> disk_reads evs = 0%nat ->
  Forall (fun p => in_bget p = true) (procs m) ->
  in_step s0 d bn j n (step d bn m (t, ticks)) /\
  procs (step d bn m (t, ticks)) = <[t := Missed]> (procs m).
Proof.
  intros Hlen Ht Hc Hr Hall. unfold step. rewrite Ht, Hc.
  rewrite (bget_cached_miss (log s0 evs) bk0 lh0 ticks d bn);
    [|by apply rep_log | done | done].
  unfold advance. split; [|done].
  split; [simpl; by rewrite length_insert|]. left. simpl.
  eexists. split; [apply log_log|]. split.
  - rewrite disk_reads_app, Hr. done.
  - by apply Forall_insert.
Qed.

(** Nobody is past the second look-up, and a process runs it: the
    eviction. *)
Lemma step_eviction m t ticks evs :
  length (procs m) = n -> procs m !! t = Some Missed ->
  cache m = log s0 evs -> disk_reads evs = 0%nat ->
  Forall (fun p => in_bget p = true) (procs m) ->
  in_step s0 d bn j n (step d bn m (t, ticks)) /\
  procs (step d bn m (t, ticks)) = <[t := Wait (Buf j)]> (procs m).
Proof.
  intros Hlen Ht Hc Hr Hall. unfold step. rewrite Ht, Hc.
  destruct (bget_recycle_steal (log s0 evs) bk0 lh0 ticks d bn j)
    as (bs1 & i & bs2 & l1 & l2 & s' & E & Hi & Hl & Hn1 & Hn2 & Hu
        & Hrun & Hrep' & Htr & Hwb & Hpl);
    [by apply rep_log | done | done | done |].
  rewrite Hrun. unfold advance. split; [|done].
  split; [simpl; by rewrite length_insert|]. right. simpl.
  destruct (in_bget_others _ Hall) as (Hrefs & Howns & Hpast & Hon).
  assert (Hpb : payload_of s' (Buf j) = Some (recycled d bn (payload bf0))).
  { rewrite Hpl, decide_True by done. unfold payload_of.
    rewrite deref_log, buf0. done. }
  exists (<[h := j :: lh0]> (<[i := l1 ++ l2]> bk0)), (j :: lh0),
    (recycled d bn (payload bf0)).
  split.
  - done.
  - apply list_lookup_insert_eq. rewrite length_insert.
    by eapply lookup_lt_Some.
  - simpl. rewrite holds_block_payload, Hpb. simpl.
    by rewrite !Z.eqb_refl.
  - done.
  - apply Forall_insert; [apply Hon | done].
  - pose proof (count_insert refs _ t _ (Wait (Buf j)) Ht) as Hc1.
    simpl in Hc1. simpl. lia.
  - left. pose proof (count_insert owns _ t _ (Wait (Buf j)) Ht) as Hc1.
    simpl in Hc1. split; [lia|]. simpl. by rewrite free0.
  - rewrite Htr. simpl trace. rewrite !disk_reads_app, Hr, disk_reads_visits.
    simpl. lia.
  - intros _. pose proof (count_insert past_read _ t _ (Wait (Buf j)) Ht) as Hc1.
    simpl in Hc1. lia.
Qed.

(** The block is in the cache, and a process finds it, on its first or
    on its second look-up. *)
Lemma step_hit m t ticks p bk lh pb s' :
  length (procs m) = n -> procs m !! t = Some p -> in_bget p = true ->
  settled s0 (cache m) d bn j (procs m) bk lh pb ->
  rep s' bk -> disk_reads (trace s') = disk_reads (trace (cache m)) ->
  (forall x, payload_of s' x =
     if decide (x = Buf j) then hit_buf ticks <$> payload_of (cache m) x
     else payload_of (cache m) x) ->
  in_step s0 d bn j n (advance t (Wait (Buf j)) s' m).
Proof.
  intros Hlen Ht Hp [Hrep Hb Hfound Hpb Hon Hrc Hlock Hreads Hvalid]
    Hrep' Htr Hpl.
  unfold advance. split; [simpl; by rewrite length_insert|]. right. simpl.
  assert (Hr0 : refs p = false) by by destruct p.
  assert (Ho0 : owns p = false) by by destruct p.
  assert (Hp0 : past_read p = false) by by destruct p.
  pose proof (count_insert refs _ t _ (Wait (Buf j)) Ht) as Hc1.
  pose proof (count_insert owns _ t _ (Wait (Buf j)) Ht) as Hc2.
  pose proof (count_insert past_read _ t _ (Wait (Buf j)) Ht) as Hc3.
  rewrite Hr0 in Hc1. rewrite Ho0 in Hc2. rewrite Hp0 in Hc3.
  simpl in Hc1, Hc2, Hc3.
  exists bk, lh, (hit_buf ticks pb). split.
  - done.
  - done.
  - rewrite (find_holds_block_stable (cache m) s' d bn lh (hit_buf ticks)
               (Buf j)); [done | by intros [] | done].
  - rewrite Hpl, decide_True by done. by rewrite Hpb.
  - by apply Forall_insert.
  - simpl. rewrite Hrc.
    pose proof (count_le_length refs (<[t := Wait (Buf j)]> (procs m))) as Hle.
    rewrite length_insert in Hle. rewrite wrap32_id by lia. lia.
  - destruct Hlock as [[Hz Hfree]|(t' & p' & Ht' & Hop & Hone & Hlk)].
    + left. split; [lia | done].
    + right. exists t', p'. split; [|split; [done|split; [lia | done]]].
      rewrite list_lookup_insert_ne; [done|]. intros ->.
      rewrite Ht in Ht'. injection Ht' as <-. congruence.
  - rewrite Htr, Hreads. done.
  - intros Hv. rewrite <- (Hvalid Hv). lia.
Qed.

(** The block is in the cache, and a process gets to
    [acquiresleep]. *)
Lemma step_acquiresleep m t ticks bk lh pb :
  length (procs m) = n -> procs m !! t = Some (Wait (Buf j)) ->
  settled s0 (cache m) d bn j (procs m) bk lh pb ->
  in_step s0 d bn j n (step d bn m (t, ticks)) /\
  (count owns (procs m) = 0%nat ->
   procs (step d bn m (t, ticks)) = <[t := Locked (Buf j)]> (procs m)).
Proof.
  intros Hlen Ht Hst.
  pose proof Hst as [Hrep Hb Hfound Hpb Hon Hrc Hlock Hreads Hvalid].
  destruct (payload_of_deref _ _ _ Hpb) as (bf & Hbf & Epb).
  unfold step. rewrite Ht.
  destruct (locked (lock bf)) eqn:Hlk.
  - rewrite (acquiresleep_busy _ _ _ _ Hbf Hlk). split.
    + split; [done|]. right. by exists bk, lh, pb.
    + intros Hz. destruct Hlock as [[_ Hfree]|(_ & _ & _ & _ & Hone & _)];
        [|lia].
      rewrite <- Epb, lock_payload in Hfree. by rewrite Hfree in Hlk.
  - destruct (acquiresleep_free (pid_of t) _ _ _ Hbf Hlk)
      as (s' & Hrun & Htr & Hn & Hp & Hpl).
    rewrite Hrun. unfold advance. split; [|done].
    split; [simpl; by rewrite length_insert|]. right. simpl.
    pose proof (count_insert refs _ t _ (Locked (Buf j)) Ht) as Hc1.
    pose proof (count_insert owns _ t _ (Locked (Buf j)) Ht) as Hc2.
    pose proof (count_insert past_read _ t _ (Locked (Buf j)) Ht) as Hc3.
    simpl in Hc1, Hc2, Hc3.
    assert (Hz : count owns (procs m) = 0%nat).
    { destruct Hlock as [[Hz _]|(t' & p' & _ & _ & _ & Hl)]; [done|].
      rewrite <- Epb, lock_payload in Hl. by rewrite Hl in Hlk. }
    exists bk, lh, (with_lock {| locked := true; pid := pid_of t |} pb).
    split.
    + by eapply rep_ext.
    + done.
    + rewrite (find_holds_block_stable (cache m) s' d bn lh
                 (with_lock {| locked := true; pid := pid_of t |}) (Buf j));
        [done | by intros [] | done].
    + rewrite Hpl, decide_True by done. by rewrite Hpb.
    + by apply Forall_insert.
    + simpl. rewrite Hrc. f_equal. lia.
    + right. exists t, (Locked (Buf j)).
      split; [|split; [done|split; [lia | done]]].
      apply list_lookup_insert_eq. by eapply lookup_lt_Some.
    + rewrite Htr, disk_reads_app. simpl. rewrite Hreads. lia.
    + intros Hv. rewrite <- (Hvalid Hv). lia.
Qed.

(** The block is in the cache, and a process that has the sleep lock
    gets to line 154: it reads the disk if [valid] is 0. *)
Lemma step_fill m t ticks bk lh pb :
  length (procs m) = n -> procs m !! t = Some (Locked (Buf j)) ->
  settled s0 (cache m) d bn j (procs m) bk lh pb ->
  in_step s0 d bn j n (step d bn m (t, ticks)) /\
  procs (step d bn m (t, ticks)) = <[t := Holding (Buf j)]> (procs m).
Proof.
  intros Hlen Ht Hst.
  pose proof Hst as [Hrep Hb Hfound Hpb Hon Hrc Hlock Hreads Hvalid].
  destruct (payload_of_deref _ _ _ Hpb) as (bf & Hbf & Epb).
  unfold step. rewrite Ht.
  destruct (bread_fill_spec _ _ _ Hbf) as (s' & Hrun & Htr & Hn & Hp & Hpl).
  rewrite Hrun. unfold advance. split; [|done].
  split; [simpl; by rewrite length_insert|]. right. simpl.
  pose proof (count_insert refs _ t _ (Holding (Buf j)) Ht) as Hc1.
  pose proof (count_insert owns _ t _ (Holding (Buf j)) Ht) as Hc2.
  pose proof (count_insert past_read _ t _ (Holding (Buf j)) Ht) as Hc3.
  simpl in Hc1, Hc2, Hc3.
  assert (Ev : valid bf = valid pb) by (rewrite <- Epb; by destruct bf).
  exists bk, lh, ((if valid bf =? 0 then with_valid 1 else id) pb).
  split.
  - by eapply rep_ext.
  - done.
  - rewrite (find_holds_block_stable (cache m) s' d bn lh
               (if valid bf =? 0 then with_valid 1 else id) (Buf j));
      [done | intros []; by destruct (valid bf =? 0) | done].
  - rewrite Hpl, decide_True by done. by rewrite Hpb.
  - by apply Forall_insert.
  - replace (refcnt ((if valid bf =? 0 then with_valid 1 else id) pb))
      with (refcnt pb) by by destruct (valid bf =? 0).
    rewrite Hrc. f_equal. lia.
  - replace (lock ((if valid bf =? 0 then with_valid 1 else id) pb))
      with (lock pb) by by destruct (valid bf =? 0).
    destruct Hlock as [[Hz Hfree]|(t' & p' & Ht' & Hop & Hone & Hlk)].
    + pose proof (count_lookup_pos owns _ _ _ Ht eq_refl). lia.
    + right. destruct (decide (t' = t)) as [->|Hne].
      * exists t, (Holding (Buf j)).
        split; [|split; [done|split; [lia | done]]].
        apply list_lookup_insert_eq. by eapply lookup_lt_Some.
      * exists t', p'. split; [|split; [done|split; [lia | done]]].
        by rewrite list_lookup_insert_ne.
  - rewrite Htr, disk_reads_app, Hreads. rewrite Ev.
    destruct (Z.eqb_spec (valid pb) 0) as [Hv|Hv]; simpl.
    + lia.
    + apply Z.eqb_neq in Hv. rewrite Hv. lia.
  - rewrite Ev. destruct (Z.eqb_spec (valid pb) 0) as [Hv|Hv]; simpl; [done|].
    unfold id. done.
Qed.

(** The block is in the cache, and the process that has the buffer
    gets to [brelse]: it lets go of the sleep lock. *)
Lemma step_unlock m t ticks bk lh pb :
  length (procs m) = n -> procs m !! t = Some (Holding (Buf j)) ->
  settled s0 (cache m) d bn j (procs m) bk lh pb ->
  in_step s0 d bn j n (step d bn m (t, ticks)) /\
  procs (step d bn m (t, ticks)) = <[t := Unlocked (Buf j)]> (procs m).
Proof.
  intros Hlen Ht Hst.
  pose proof Hst as [Hrep Hb Hfound Hpb Hon Hrc Hlock Hreads Hvalid].
  destruct (payload_of_deref _ _ _ Hpb) as (bf & Hbf & Epb).
  unfold step. rewrite Ht.
  pose proof (count_insert refs _ t _ (Unlocked (Buf j)) Ht) as Hc1.
  pose proof (count_insert owns _ t _ (Unlocked (Buf j)) Ht) as Hc2.
  pose proof (count_insert past_read _ t _ (Unlocked (Buf j)) Ht) as Hc3.
  simpl in Hc1, Hc2, Hc3.
  assert (Hone : count owns (procs m) = 1%nat /\
                 lock bf = {| locked := true; pid := pid_of t |}).
  { destruct Hlock as [[Hz _]|(t' & p' & Ht' & Hop & Hone & Hlk)].
    - pose proof (count_lookup_pos owns _ _ _ Ht eq_refl). lia.
    - split; [done|]. rewrite <- Epb, lock_payload in Hlk.
      assert (t' = t); [|by subst t'].
      eapply (count_unique owns); eauto. lia. }
  destruct Hone as [Hone Hlk].
  assert (Hhold : holding (pid_of t) (lock bf) = true).
  { rewrite Hlk. unfold holding. simpl. by rewrite Z.eqb_refl. }
  destruct (brelse_unlock_spec _ _ _ _ Hbf Hhold)
    as (s' & Hrun & Htr & Hn & Hp & Hpl).
  rewrite Hrun. unfold advance. split; [|done].
  split; [simpl; by rewrite length_insert|]. right. simpl.
  exists bk, lh, (with_lock {| locked := false; pid := 0 |} pb).
  split.
  - by eapply rep_ext.
  - done.
  - rewrite (find_holds_block_stable (cache m) s' d bn lh
               (with_lock {| locked := false; pid := 0 |}) (Buf j));
      [done | by intros [] | done].
  - rewrite Hpl, decide_True by done. by rewrite Hpb.
  - by apply Forall_insert.
  - simpl. rewrite Hrc. f_equal. lia.
  - left. split; [lia | done].
  - rewrite Htr, disk_reads_app. simpl. rewrite Hreads. lia.
  - intros Hv. simpl in Hv. specialize (Hvalid Hv).
    pose proof (count_lookup_pos past_read _ _ _ Ht eq_refl). lia.
Qed.

(** The block is in the cache, and a process that has let go of the
    sleep lock gives up its reference. *)
Lemma step_put m t ticks bk lh pb :
  length (procs m) = n -> procs m !! t = Some (Unlocked (Buf j)) ->
  settled s0 (cache m) d bn j (procs m) bk lh pb ->
  in_step s0 d bn j n (step d bn m (t, ticks)) /\
  procs (step d bn m (t, ticks)) = <[t := Done]> (procs m).
Proof.
  intros Hlen Ht Hst.
  pose proof Hst as [Hrep Hb Hfound Hpb Hon Hrc Hlock Hreads Hvalid].
  destruct (payload_of_deref _ _ _ Hpb) as (bf & Hbf & Epb).
  unfold step. rewrite Ht.
  pose proof (count_insert refs _ t _ Done Ht) as Hc1.
  pose proof (count_insert owns _ t _ Done Ht) as Hc2.
  pose proof (count_insert past_read _ t _ Done Ht) as Hc3.
  simpl in Hc1, Hc2, Hc3.
  pose proof (find_holds_true _ _ _ _ _ Hfound) as Hj.
  destruct (holds_block_fields _ _ _ _ _ Hpb Hj) as [Hdev Hbn].
  assert (Ebn : blockno bf = bn) by (rewrite <- Hbn, <- Epb; by destruct bf).
  destruct (find_split _ _ _ Hfound) as (l1 & l2 & -> & _ & _).
  assert (Hb' : bk !! Z.to_nat (hash_val (blockno bf)) = Some (l1 ++ j :: l2))
    by by rewrite Ebn.
  destruct (brelse_put_spec _ _ j bf l1 l2 Hrep Hbf Hb')
    as (s' & Hrun & Htr & Hpl & Hrep').
  rewrite Hrun. unfold advance. split; [|done].
  split; [simpl; by rewrite length_insert|]. right. simpl.
  assert (Hfs : forall l, find (holds_block s' d bn) l
                          = find (holds_block (cache m) d bn) l).
  { intros l. apply (find_holds_block_stable _ _ _ _ _ dropped (Buf j));
      [by intros [] | done]. }
  assert (Hj' : holds_block s' d bn j = true).
  { rewrite <- Hj.
    rewrite !holds_block_payload, Hpl, decide_True by done.
    rewrite Hpb. done. }
  rewrite Ebn in Hrep'.
  assert (Hpos : (1 <= count refs (procs m))%nat)
    by by eapply count_lookup_pos.
  pose proof (count_le_length refs (procs m)) as Hle.
  assert (Erc : refcnt bf = refcnt pb) by (rewrite <- Epb; by destruct bf).
  exists (if wrap32 (refcnt bf - 1) =? 0
          then <[Z.to_nat (hash_val bn) := j :: l1 ++ l2]> bk else bk),
    (if wrap32 (refcnt bf - 1) =? 0 then j :: l1 ++ l2 else l1 ++ j :: l2),
    (dropped pb).
  split.
  - done.
  - destruct (wrap32 (refcnt bf - 1) =? 0); [|done].
    apply list_lookup_insert_eq. by eapply lookup_lt_Some.
  - destruct (wrap32 (refcnt bf - 1) =? 0).
    + simpl. by rewrite Hj'.
    + by rewrite Hfs.
  - rewrite Hpl, decide_True by done. by rewrite Hpb.
  - by apply Forall_insert.
  - simpl. rewrite Hrc. rewrite wrap32_id by lia. lia.
  - change (lock (dropped pb)) with (lock pb).
    destruct Hlock as [[Hz Hfree]|(t' & p' & Ht' & Hop & Hone & Hlk)].
    + left. split; [lia | done].
    + right. exists t', p'. split; [|split; [done|split; [lia | done]]].
      rewrite list_lookup_insert_ne; [done|]. intros ->.
      rewrite Ht in Ht'. injection Ht' as <-. done.
  - rewrite Htr, disk_reads_app. simpl. rewrite Hreads. simpl. lia.
  - intros Hv. simpl in Hv. specialize (Hvalid Hv).
    pose proof (count_lookup_pos past_read _ _ _ Ht eq_refl). lia.
Qed.

(** A process that is not at its end, and that does not wait for a
    sleep lock somebody has, gets further when it runs. *)
Lemma step_spec m t ticks p :
  in_step s0 d bn j n m -> procs m !! t = Some p ->
  in_step s0 d bn j n (step d bn m (t, ticks)) /\
  (p <> Done ->
   (forall b, p = Wait b -> count owns (procs m) = 0%nat) ->
   exists p', procs (step d bn m (t, ticks)) = <[t := p']> (procs m) /\
     (rank p < rank p')%nat).
Proof.
  intros Hinv Ht.
  pose proof Hinv as [Hlen [(evs & Hc & Hr & Hall)|(bk & lh & pb & Hst)]].
  - pose proof (proj1 (Forall_lookup _ _) Hall t p Ht) as Hp.
    destruct p; try done.
    + destruct (step_first_miss m t ticks evs) as [H1 H2]; try done.
      split; [done|]. intros _ _. eexists. split; [done|]. simpl. lia.
    + destruct (step_eviction m t ticks evs) as [H1 H2]; try done.
      split; [done|]. intros _ _. eexists. split; [done|]. simpl. lia.
  - pose proof (proj1 (Forall_lookup _ _) (st_procs _ _ _ _ _ _ _ _ _ Hst)
                  t p Ht) as Hp.
    destruct p as [| |b|b|b|b| |]; simpl in Hp; try subst b; try done.
    + destruct (bget_cached_hit _ _ _ ticks d bn j (st_rep _ _ _ _ _ _ _ _ _ Hst)
                  (st_bucket _ _ _ _ _ _ _ _ _ Hst)
                  (st_found _ _ _ _ _ _ _ _ _ Hst))
        as (s' & Hrun & Hrep' & _ & Htr & Hpl).
      unfold step. rewrite Ht, Hrun. split.
      * eapply (step_hit m t ticks _ bk lh pb s'); eauto.
        rewrite Htr, disk_reads_app. simpl. lia.
      * intros _ _. eexists. split; [done|]. simpl. lia.
    + destruct (bget_recycle_hit _ _ _ ticks d bn j (st_rep _ _ _ _ _ _ _ _ _ Hst)
                  (st_bucket _ _ _ _ _ _ _ _ _ Hst)
                  (st_found _ _ _ _ _ _ _ _ _ Hst))
        as (s' & Hrun & Hrep' & _ & Htr & Hpl).
      unfold step. rewrite Ht, Hrun. split.
      * eapply (step_hit m t ticks _ bk lh pb s'); eauto.
        rewrite Htr, disk_reads_app. simpl. lia.
      * intros _ _. eexists. split; [done|]. simpl. lia.
    + destruct (step_acquiresleep m t ticks bk lh pb) as [H1 H2]; try done.
      split; [done|]. intros _ Hw. eexists. split; [by eauto|]. simpl. lia.
    + destruct (step_fill m t ticks bk lh pb) as [H1 H2]; try done.
      split; [done|]. intros _ _. eexists. split; [done|]. simpl. lia.
    + destruct (step_unlock m t ticks bk lh pb) as [H1 H2]; try done.
      split; [done|]. intros _ _. eexists. split; [done|]. simpl. lia.
    + destruct (step_put m t ticks bk lh pb) as [H1 H2]; try done.
      split; [done|]. intros _ _. eexists. split; [done|]. simpl. lia.
    + split; [|done]. unfold step. by rewrite Ht.
Qed.

(** Every step keeps the system in step. *)
Lemma step_in_step m e :
  in_step s0 d bn j n m -> in_step s0 d bn j n (step d bn m e).
Proof.
  intros Hinv. destruct e as [t ticks].
  destruct (procs m !! t) as [p|] eqn:Ht;
    [|unfold step; by rewrite Ht].
  by destruct (step_spec m t ticks p).
Qed.

Lemma run_in_step sched : forall m,
  in_step s0 d bn j n m -> in_step s0 d bn j n (run d bn sched m).
Proof.
  induction sched as [|e sched IH]; intros m Hinv; [done|].
  simpl. apply IH. by apply step_in_step.
Qed.

Lemma start_in_step :
  in_step s0 d bn j n {| cache := s0; procs := replicate n Start |}.
Proof.
  split; [simpl; by rewrite length_replicate|]. left. exists []. simpl.
  split; [by rewrite log_nil|]. split; [done|]. by apply Forall_replicate.
Qed.

(** What being in step says about the buffers and the disk. *)
Lemma in_step_reads m :
  in_step s0 d bn j n m ->
  Forall (on_buffer (Buf j)) (procs m) /\
  (disk_reads (trace (cache m)) <= disk_reads (trace s0) + 1)%nat /\
  (count past_read (procs m) <> 0%nat ->
   disk_reads (trace (cache m)) = (disk_reads (trace s0) + 1)%nat).
Proof.
  intros [Hlen [(evs & Hc & Hr & Hall)|(bk & lh & pb & Hst)]].
  - destruct (in_bget_others _ Hall) as (_ & _ & Hpast & Hon).
    split; [apply Hon|]. rewrite Hc. simpl. rewrite disk_reads_app, Hr.
    split; [lia | done].
  - destruct Hst as [_ _ _ _ Hon _ _ Hreads Hvalid].
    split; [done|]. rewrite Hreads.
    destruct (Z.eqb_spec (valid pb) 0) as [Hv|Hv]; [|split; [lia|done]].
    split; [lia|]. intros Hne. by specialize (Hvalid Hv).
Qed.

(** A process that runs alone, nobody else having the sleep lock, gets
    to its end in six steps. *)
Lemma run_alone t ticks : forall k m p,
  in_step s0 d bn j n m -> procs m !! t = Some p ->
  (forall t' p', t' <> t -> procs m !! t' = Some p' -> owns p' = false) ->
  (6 <= rank p + k)%nat ->
  in_step s0 d bn j n (run d bn (replicate k (t, ticks)) m) /\
  procs (run d bn (replicate k (t, ticks)) m) = <[t := Done]> (procs m).
Proof.
  induction k as [|k IH]; intros m p Hinv Ht Hoth Hk.
  - simpl. split; [done|]. rewrite list_insert_id; [done|].
    rewrite Ht. f_equal.
    destruct (in_step_reads m Hinv) as (Hon & _).
    pose proof (proj1 (Forall_lookup _ _) Hon t p Ht) as Hp.
    destruct p; simpl in *; try lia; done.
  - change (run d bn (replicate (S k) (t, ticks)) m)
      with (run d bn (replicate k (t, ticks)) (step d bn m (t, ticks))).
    destruct (decide (p = Done)) as [->|Hp].
    + assert (E : step d bn m (t, ticks) = m) by (unfold step; by rewrite Ht).
      rewrite E. apply (IH m Done); try done. simpl. lia.
    + destruct (step_spec m t ticks p Hinv Ht) as [Hinv' Hpc].
      destruct Hpc as (p' & Hpr & Hrk); [done| |].
      { intros b ->. apply count_none. apply Forall_lookup. intros t' p' Ht'.
        destruct (decide (t' = t)) as [->|Hne]; [|by eapply Hoth].
        rewrite Ht in Ht'. by injection Ht' as <-. }
      assert (Hlt : (t < length (procs m))%nat) by by eapply lookup_lt_Some.
      destruct (IH (step d bn m (t, ticks)) p') as [H1 H2]; try done.
      * rewrite Hpr. by apply list_lookup_insert_eq.
      * intros t' q Hne. rewrite Hpr, list_lookup_insert_ne by done.
        by apply Hoth.
      * lia.
      * split; [done|]. rewrite H2, Hpr. apply list_insert_insert_eq.
Qed.

Lemma run_app a b m :
  run d bn (a ++ b) m = run d bn b (run d bn a m).
Proof. apply fold_left_app. Qed.

(** One after the other, the processes all get to their ends. *)
Lemma one_by_one_prefix ticks : forall k, (k <= n)%nat ->
  let m := run d bn (flat_map (fun t => replicate 6 (t, ticks)) (seq 0 k))
             {| cache := s0; procs := replicate n Start |} in
  in_step s0 d bn j n m /\
  procs m = replicate k Done ++ replicate (n - k) Start.
Proof.
  induction k as [|k IH]; intros Hk; cbv zeta.
  - simpl. split; [apply start_in_step|]. by rewrite Nat.sub_0_r.
  - destruct IH as [Hinv Hpr]; [lia|].
    rewrite seq_S, flat_map_app, run_app.
    change (flat_map (fun t => replicate 6 (t, ticks)) [(0 + k)%nat])
      with (replicate 6 (k, ticks) ++ []).
    rewrite app_nil_r.
    set (m := run d bn (flat_map _ (seq 0 k)) _) in *.
    assert (Ht : procs m !! k = Some Start).
    { rewrite Hpr, lookup_app_r by (rewrite length_replicate; lia).
      rewrite length_replicate, Nat.sub_diag.
      replace (n - k)%nat with (S (n - S k)) by lia. done. }
    destruct (run_alone k ticks 6 m Start Hinv Ht) as [H1 H2].
    + intros t' p' _. rewrite Hpr. intros Hl.
      apply list_elem_of_lookup_2, elem_of_app in Hl as [Hl|Hl];
        apply elem_of_replicate in Hl as [-> _]; done.
    + simpl. lia.
    + split; [done|]. rewrite H2, Hpr.
      rewrite insert_app_r_alt by (rewrite length_replicate; lia).
      rewrite length_replicate, Nat.sub_diag.
      rewrite replicate_S_end, <- app_assoc.
      replace (n - k)%nat with (S (n - S k)) by lia. done.
Qed.

End SameBlock.

(** ** Reading the same block side by side *)

(** The pieces a process runs one at a time are, together, the code of
    [b = bread(dev, blockno); brelse(b);]. *)
Lemma read_release_pieces me ticks d bn s :
  read_release me ticks d bn s =
    (r <- bget_cached ticks d bn ;;
     b <- match r with
          | Some b => ret b
          | None => bget_recycle ticks d bn
          end ;;
     acquiresleep me b ;;
     b' <- bread_fill b ;;
     brelse_unlock me b' ;;
     brelse_put b') s.
Proof.
  unfold read_release, bread, bget. unfold bind at 1 2 3 4 5 6.
  unfold bind at 1 2 3 4.
  destruct (bget_cached ticks d bn s) as [[b|] s1| | | |]; try done.
  - unfold ret at 1 2 3.
    destruct (acquiresleep me b s1) as [[] s2| | | |]; try done.
    destruct (bread_fill b s2) as [b' s3| | | |]; try done.
    apply brelse_pieces.
  - destruct (bget_recycle ticks d bn s1) as [b s2| | | |]; try done.
    unfold ret at 1.
    destruct (acquiresleep me b s2) as [[] s3| | | |]; try done.
    destruct (bread_fill b s3) as [b' s4| | | |]; try done.
    apply brelse_pieces.
Qed.

(** C3.  On a miss [bget] takes [bcache.lock] and then the lock of the
    bucket of the block, in this order, and looks the block up in the
    bucket again.  If the block is there by then, the call ends as a hit:
    one reference more, the time stamp set to the clock, the lists as
    they were, nothing evicted.  [bread] reads the disk exactly when
    [valid] of the buffer it got is 0.  So when [n] processes read a
    block that is not in the cache, all at the same time and scheduled in
    any way whatever, every process that has got a buffer has got the
    same one, no process panics, the disk is read at most once, and it
    has been read exactly once as soon as [bread] has returned to any of
    them; and run one after the other, all of them get to the end of
    [brelse].  The pieces a process runs one at a time are, together,
    [b = bread(dev, blockno); brelse(b);]. *)
Theorem same_block_one_disk_read (s0 : bcache) (bk0 : list (list nat))
    (lh0 : list nat) (d bn : Z) (j n : nat) (bf0 : buf) :
  rep s0 bk0 -> bk0 !! Z.to_nat (hash_val bn) = Some lh0 ->
  find (holds_block s0 d bn) lh0 = None ->
  find (unused s0)
    (scan_order bk0 (seq 0 NUM_BUCKET) (Z.to_nat (hash_val bn))) = Some j ->
  deref s0 (Buf j) = Some bf0 -> locked (lock bf0) = false ->
  Z.of_nat n < 2 ^ 32 ->
  (forall me ticks s,
     read_release me ticks d bn s =
       (r <- bget_cached ticks d bn ;;
        b <- match r with
             | Some b => ret b
             | None => bget_recycle ticks d bn
             end ;;
        acquiresleep me b ;;
        b' <- bread_fill b ;;
        brelse_unlock me b' ;;
        brelse_put b') s) /\
  (forall ticks s bk lh,
     rep s bk -> bk !! Z.to_nat (hash_val bn) = Some lh ->
     exists evs,
       trace (state_of (bget_recycle ticks d bn s)) =
         trace s ++ [Acquire bcache_lock;
                     Acquire (hash_lock (Z.to_nat (hash_val bn)))] ++ evs) /\
  (forall ticks s bk lh k,
     rep s bk -> bk !! Z.to_nat (hash_val bn) = Some lh ->
     find (holds_block s d bn) lh = Some k ->
     exists s', bget_recycle ticks d bn s = Ret (Buf k) s' /\
       rep s' bk /\
       trace s' = trace s ++
         [Acquire bcache_lock; Acquire (hash_lock (Z.to_nat (hash_val bn)));
          Release (hash_lock (Z.to_nat (hash_val bn)));
          Release bcache_lock] /\
       (forall x, payload_of s' x =
          if decide (x = Buf k) then hit_buf ticks <$> payload_of s x
          else payload_of s x)) /\
  (forall p s bf,
     deref s p = Some bf ->
     exists s', bread_fill p s = Ret p s' /\
       trace s' = trace s ++ (if valid bf =? 0 then [DiskRead p] else [])) /\
  (forall sched,
     let m := run d bn sched {| cache := s0; procs := replicate n Start |} in
     Forall (on_buffer (Buf j)) (procs m) /\
     (disk_reads (trace (cache m)) <= disk_reads (trace s0) + 1)%nat /\
     (count past_read (procs m) <> 0%nat ->
      disk_reads (trace (cache m)) = (disk_reads (trace s0) + 1)%nat)) /\
  (forall ticks,
     procs (run d bn (one_by_one n ticks)
              {| cache := s0; procs := replicate n Start |})
     = replicate n Done).
Proof.
  intros Hrep Hb Hmiss Hvict Hbuf Hfree Hn.
  split; [intros; apply read_release_pieces|].
  split; [|split; [|split; [|split]]].
  - intros ticks s bk lh Hr Hl.
    destruct (find (holds_block s d bn) lh) as [k|] eqn:Hf.
    + destruct (bget_recycle_hit s bk lh ticks d bn k Hr Hl Hf)
        as (s' & Hrun & _ & _ & Htr & _).
      rewrite Hrun. simpl. rewrite Htr. by eexists.
    + destruct (find (unused s)
                  (scan_order bk (seq 0 NUM_BUCKET) (Z.to_nat (hash_val bn))))
        as [k|] eqn:Hu.
      * destruct (bget_recycle_steal s bk lh ticks d bn k Hr Hl Hf Hu)
          as (bs1 & i & bs2 & l1 & l2 & s' & _ & _ & _ & _ & _ & _
              & Hrun & _ & Htr & _).
        rewrite Hrun. simpl. rewrite Htr. by eexists.
      * rewrite (bget_recycle_panic s bk lh ticks d bn Hr Hl Hf Hu).
        simpl. by eexists.
  - intros ticks s bk lh k Hr Hl Hf.
    destruct (bget_recycle_hit s bk lh ticks d bn k Hr Hl Hf)
      as (s' & Hrun & Hrep' & _ & Htr & Hpl).
    by exists s'.
  - intros p s bf Hd.
    destruct (bread_fill_spec p s bf Hd) as (s' & Hrun & Htr & _).
    by exists s'.
  - intros sched. cbv zeta.
    apply (in_step_reads s0 d bn j n).
    apply (run_in_step s0 bk0 lh0 d bn j n bf0); try done.
    apply start_in_step.
  - intros ticks.
    destruct (one_by_one_prefix s0 bk0 lh0 d bn j n bf0 Hrep Hb Hmiss Hvict
                Hbuf Hfree Hn ticks n) as [_ Hpr]; [lia|].
    unfold one_by_one. rewrite Hpr, Nat.sub_diag. simpl. apply app_nil_r.
Qed.

(** Two processes read block 1 of device 1 on the cache [boot], which
    does not have it: buffer 0 goes to both, and the disk is read
    once. *)
Lemma same_block_one_disk_read_witness :
  rep boot boot_buckets /\
  boot_buckets !! Z.to_nat (hash_val 1) = Some [27; 14; 1]%nat /\
  find (holds_block boot 1 1) [27; 14; 1]%nat = None /\
  find (unused boot)
    (scan_order boot_buckets (seq 0 NUM_BUCKET) (Z.to_nat (hash_val 1)))
    = Some 0%nat /\
  deref boot (Buf 0) = Some boot_buf0 /\
  locked (lock boot_buf0) = false /\
  Z.of_nat 2 < 2 ^ 32 /\
  Forall (on_buffer (Buf 0))
    (procs (run 1 1 two_readers
              {| cache := boot; procs := replicate 2 Start |})) /\
  disk_reads
    (trace (cache (run 1 1 two_readers
                     {| cache := boot; procs := replicate 2 Start |})))
    = (disk_reads (trace boot) + 1)%nat /\
  procs (run 1 1 (one_by_one 2 100)
           {| cache := boot; procs := replicate 2 Start |})
    = replicate 2 Done.
Proof.
  assert (H1 : boot_buckets !! Z.to_nat (hash_val 1) = Some [27; 14; 1]%nat)
    by (vm_compute; reflexivity).
  assert (H2 : find (holds_block boot 1 1) [27; 14; 1]%nat = None)
    by (vm_compute; reflexivity).
  assert (H3 : find (unused boot)
    (scan_order boot_buckets (seq 0 NUM_BUCKET) (Z.to_nat (hash_val 1)))
    = Some 0%nat) by (vm_compute; reflexivity).
  assert (H4 : deref boot (Buf 0) = Some boot_buf0)
    by (vm_compute; reflexivity).
  assert (H5 : locked (lock boot_buf0) = false) by reflexivity.
  assert (H6 : Z.of_nat 2 < 2 ^ 32) by (vm_compute; reflexivity).
  assert (H7 : count past_read
                 (procs (run 1 1 two_readers
                           {| cache := boot; procs := replicate 2 Start |}))
               <> 0%nat) by (vm_compute; discriminate).
  split; [exact boot_rep|]. split; [exact H1|]. split; [exact H2|].
  split; [exact H3|]. split; [exact H4|]. split; [exact H5|].
  split; [exact H6|].
  destruct (same_block_one_disk_read boot boot_buckets [27; 14; 1]%nat
              1 1 0%nat 2%nat boot_buf0 boot_rep H1 H2 H3 H4 H5 H6)
    as (_ & _ & _ & _ & Hany & Hall).
  destruct (Hany two_readers) as (Hon & _ & Hone).
  split; [exact Hon|]. split; [exact (Hone H7) | exact (Hall 100)].
Defined.

(** A process alone on the cache [boot] ends in the state in which
    [b = bread(1, 1); brelse(b);] ends. *)
Lemma alone_is_read_release :
  cache (run 1 1 (one_by_one 1 100)
           {| cache := boot; procs := replicate 1 Start |})
  = state_of (read_release 1 100 1 1 boot).
Proof. vm_compute. reflexivity. Qed.

End BioFacts.

(** * The page allocator: further properties *)

Module KallocMore.
Import Kalloc KallocFacts.

Lemma pages_from_bounds p n q :
  q ∈ pages_from p n -> p <= q < p + Z.of_nat n * PGSIZE.
Proof.
  revert p. induction n as [|n IH]; intros p; simpl.
  - by intros ?%elem_of_nil.
  - intros [->|Hq]%elem_of_cons; unfold PGSIZE in *; [lia|].
    apply IH in Hq. lia.
Qed.

Lemma pages_from_length p n : length (pages_from p n) = n.
Proof. revert p. induction n as [|n IH]; intros p; simpl; [done|]. by rewrite IH. Qed.

Lemma pages_from_snoc p n :
  pages_from p (S n) = pages_from p n ++ [p + Z.of_nat n * PGSIZE].
Proof.
  revert p. induction n as [|n IH]; intros p.
  - simpl. f_equal. lia.
  - change (pages_from p (S (S n)))
      with (p :: pages_from (p + PGSIZE) (S n)).
    rewrite IH. simpl. do 2 f_equal. f_equal. lia.
Qed.

Section Layout.

Variables KERNBASE PHYSTOP end_ : Z.

Local Abbreviation PA2IDX := (Kalloc.PA2IDX KERNBASE).
Local Abbreviation ref_of := (ref_of KERNBASE).
Local Abbreviation kfree := (kfree KERNBASE PHYSTOP end_).
Local Abbreviation kalloc := (kalloc KERNBASE).
Local Abbreviation kalloc_n := (kalloc_n KERNBASE).
Local Abbreviation kfree_n := (kfree_n KERNBASE PHYSTOP end_).
Local Abbreviation increase_ref_counter := (increase_ref_counter KERNBASE).
Local Abbreviation managed := (managed PHYSTOP end_).
Local Abbreviation inv := (inv KERNBASE PHYSTOP end_).
Local Abbreviation page_inv := (page_inv KERNBASE PHYSTOP end_).
Local Abbreviation NUM := (Z.to_nat (NUM_OF_PAGE KERNBASE PHYSTOP)).

Hypothesis KERNBASE_pos : 0 < KERNBASE.
Hypothesis end_above : KERNBASE <= end_.
Hypothesis PHYSTOP_fits : PHYSTOP <= 2 ^ 64.

(** A page that lies whole below [PHYSTOP] has a counter. *)
Lemma whole_page_idx p :
  end_ <= p -> p + PGSIZE <= PHYSTOP -> (Z.to_nat (PA2IDX p) < NUM)%nat.
Proof.
  intros Hlo Hhi. unfold Kalloc.PA2IDX, NUM_OF_PAGE, wrap64, PGSIZE in *.
  rewrite Z.mod_small by lia.
  assert ((p - KERNBASE) / 4096 + 1 <= (PHYSTOP - KERNBASE) / 4096).
  { rewrite <- Z.div_add by lia. apply Z.div_le_mono; lia. }
  assert (0 <= (p - KERNBASE) / 4096) by (apply Z.div_pos; lia).
  lia.
Qed.

(** The loop of [freerange] from an aligned [p] on: it frees the [n]
    whole pages below [PHYSTOP], the lowest first. *)
Lemma freerange_loop_exact (n : nat) : forall p s l,
  p mod PGSIZE = 0 -> end_ <= p ->
  n = Z.to_nat ((PHYSTOP - p) / PGSIZE) ->
  free_pages s l -> (forall q, q ∈ l -> q < p) ->
  ref_counter s = replicate NUM 0 ->
  exists s', freerange_loop KERNBASE PHYSTOP end_ PHYSTOP p s = Ok s' /\
    free_pages s' (rev (pages_from p n) ++ l) /\
    ref_counter s' = replicate NUM 0.
Proof.
  induction n as [|n IH]; intros p s l Ha Hlo Hn Hl Hbelow Hrc;
    rewrite freerange_loop_unfold;
    destruct (decide (p + PGSIZE <= PHYSTOP)) as [Hle|Hgt].
  - exfalso. unfold PGSIZE in *.
    assert (1 <= (PHYSTOP - p) / 4096) by (apply Z.div_le_lower_bound; lia).
    lia.
  - exists s. by split.
  - assert (Hm : managed p) by (split; [done | unfold PGSIZE in *; lia]).
    assert (Hc : ref_of s p = Some 0).
    { unfold Kalloc.ref_of. rewrite Hrc. apply lookup_replicate_2.
      by apply whole_page_idx. }
    rewrite (kfree_push KERNBASE PHYSTOP end_ s p 0 Hm Hc) by done.
    set (s1 := {| freelist := p;
                  ref_counter := <[Z.to_nat (PA2IDX p) := 0]> (ref_counter s);
                  mem := <[p := Run (freelist s) 1]> (mem s) |}).
    destruct (IH (p + PGSIZE) s1 (p :: l)) as (s' & Hrun & Hfree & Hrc').
    + unfold PGSIZE in *. rewrite <- Z.add_mod_idemp_l, Ha by done. done.
    + unfold PGSIZE. lia.
    + unfold PGSIZE in *.
      replace (PHYSTOP - (p + 4096)) with (PHYSTOP - p + (-1) * 4096) by lia.
      rewrite Z.div_add by lia. lia.
    + unfold free_pages, s1. simpl.
      apply chain_cons with (freelist s) 1.
      * by eapply managed_nonzero.
      * apply lookup_insert_eq.
      * apply chain_insert_fresh; [done|]. intros Hin.
        specialize (Hbelow p Hin). lia.
    + intros q [->|Hq]%elem_of_cons; unfold PGSIZE; [lia|].
      specialize (Hbelow q Hq). lia.
    + unfold s1. simpl. rewrite Hrc. apply insert_replicate.
    + exists s'. split; [done|]. split; [|done].
      simpl. by rewrite <- app_assoc.
  - exfalso. unfold PGSIZE in *.
    assert ((PHYSTOP - p) / 4096 <= 0).
    { apply Z.lt_succ_r. apply Z.div_lt_upper_bound; lia. }
    lia.
Qed.

(** X1.  [kinit] returns.  It leaves every counter at 0 and, on the free
    list, the whole pages between the end of the kernel image, rounded
    up to a page, and [PHYSTOP], each once, the page at the highest
    address first. *)
Theorem kinit_free_list :
  exists s, kinit KERNBASE PHYSTOP end_ = Ok s /\
    free_pages s
      (rev (pages_from (PGROUNDUP end_) (initial_pages PHYSTOP end_))) /\
    ref_counter s = replicate NUM 0.
Proof.
  destruct (PGROUNDUP_spec end_) as [Ha [Hlo Hhi]].
  destruct (freerange_loop_exact (initial_pages PHYSTOP end_) (PGROUNDUP end_)
              {| freelist := 0; ref_counter := replicate NUM 0; mem := ∅ |} [])
    as (s & Hrun & Hfree & Hrc); try done.
  - constructor.
  - by intros q ?%elem_of_nil.
  - exists s. rewrite app_nil_r in Hfree. split; [|done].
    unfold kinit, freerange, kmem_bss. simpl.
    by rewrite length_replicate.
Qed.

(** X2.  From a state that satisfies the invariant, [n] calls of
    [kalloc] in a row hand out the first [n] pages of the free list in
    the order of the list, every one a different page with the count 1
    afterwards, and return 0 from the moment the list is used up; no call
    panics. *)
Theorem kalloc_n_hands_out_free_list (s : kmem) (l : list Z) (n : nat) :
  inv s -> free_pages s l ->
  exists s', kalloc_n n s =
               Ok (take n l ++ replicate (n - length l) 0, s') /\
    inv s' /\ free_pages s' (drop n l) /\ NoDup (take n l) /\
    (forall pa, pa ∈ take n l -> ref_of s' pa = Some 1) /\
    (forall q, managed q -> q ∉ take n l -> ref_of s' q = ref_of s q).
Proof.
  revert s l. induction n as [|n IH]; intros s l Hinv Hl.
  - exists s. simpl. rewrite drop_0. repeat split; try done.
    + constructor.
    + by intros pa ?%elem_of_nil.
  - destruct (kalloc_inv KERNBASE PHYSTOP end_ KERNBASE_pos end_above
                PHYSTOP_fits s Hinv)
      as (r & s1 & Hk & Hinv1 & Hz & Hnz).
    simpl. rewrite Hk.
    destruct (decide (r = 0)) as [->|Hr].
    + assert (Hf : freelist s = 0) by by apply Hz.
      pose proof (inv_freelist_nil _ _ _ s Hinv Hf) as Hnil.
      assert (l = []) as -> by (eapply chain_det; eauto).
      assert (s1 = s) as ->.
      { rewrite (kalloc_empty KERNBASE s Hf) in Hk. congruence. }
      destruct (IH s [] Hinv Hnil) as (s' & Hrun & Hinv' & Hfree & _ & _ & Hoth).
      rewrite Hrun. rewrite take_nil, drop_nil in *. simpl in *.
      rewrite Nat.sub_0_r. exists s'. repeat split; try done.
      * constructor.
      * by intros pa ?%elem_of_nil.
    + destruct (Hnz Hr) as (Hm & (l0 & Hl0 & Hl1 & Hnin) & Hc & Hoth).
      assert (l = r :: l0) as -> by (eapply chain_det; eauto).
      destruct (IH s1 l0 Hinv1 Hl1)
        as (s' & Hrun & Hinv' & Hfree & Hnd & Hone & Hoth').
      rewrite Hrun. simpl. exists s'. repeat split; try done.
      * constructor; [|done]. intros Hin. apply Hnin.
        by apply (subseteq_take n l0).
      * intros pa [->|Hin]%elem_of_cons; [|by apply Hone].
        destruct (decide (r ∈ take n l0)) as [Hin|Hout]; [by apply Hone|].
        by rewrite (Hoth' r Hm Hout).
      * intros q Hq Hout. apply not_elem_of_cons in Hout as [Hne Hout].
        rewrite (Hoth' q Hq Hout). by apply Hoth.
Qed.

(** X3.  The free list is a stack: when the last reference to a page is
    given up with [kfree], the next [kalloc] returns this very page, and
    the allocator is back where it was before the two calls, but for the
    content of the page, now the junk of [kalloc]. *)
Theorem kfree_then_kalloc_returns_page (s : kmem) (pa : Z) :
  managed pa -> ref_of s pa = Some 1 ->
  exists s1 s2, kfree s pa = Ok s1 /\ kalloc s1 = Ok (pa, s2) /\
    freelist s2 = freelist s /\ ref_counter s2 = ref_counter s /\
    mem s2 = <[pa := Junk 5]> (mem s).
Proof.
  intros Hm Hc.
  rewrite (kfree_push KERNBASE PHYSTOP end_ s pa 1 Hm Hc) by done.
  eexists. eexists. split; [done|].
  assert (Hlt : (Z.to_nat (PA2IDX pa) < length (ref_counter s))%nat)
    by by eapply lookup_lt_Some.
  erewrite (kalloc_pop KERNBASE _ pa (freelist s) 1 0); simpl.
  - split; [done|]. simpl. split; [done|]. split.
    + rewrite list_insert_insert_eq. by apply list_insert_id.
    + apply insert_insert_eq.
  - done.
  - by eapply managed_nonzero.
  - apply lookup_insert_eq.
  - unfold Kalloc.ref_of. simpl. by apply list_lookup_insert_eq.
Qed.

(** X4.  A page with [c] references takes [c] calls of [kfree] to free:
    each of the first [c - 1] calls only counts down, leaving the free
    list and the memory as they are, and the call number [c] puts the page
    in front of the free list.  The invariant holds all along. *)
Theorem kfree_n_counts_down (n : nat) : forall (s : kmem) (pa c : Z),
  inv s -> managed pa -> ref_of s pa = Some c -> Z.of_nat n <= c ->
  exists s', kfree_n n pa s = Ok s' /\ inv s' /\
    ref_of s' pa = Some (c - Z.of_nat n) /\
    (forall q, managed q -> q <> pa -> ref_of s' q = ref_of s q) /\
    (Z.of_nat n < c ->
       freelist s' = freelist s /\ mem s' = mem s /\ ~ in_freelist s' pa) /\
    (0 < c -> Z.of_nat n = c -> freelist s' = pa /\ in_freelist s' pa).
Proof.
  induction n as [|n IH]; intros s pa c Hinv Hm Hc Hn.
  - exists s. simpl. rewrite Z.sub_0_r. repeat split; try done; try lia.
    intros Hpos. by apply (inv_page_inv _ _ _ s Hinv pa c).
  - destruct (kfree_inv KERNBASE PHYSTOP end_ KERNBASE_pos end_above
                PHYSTOP_fits s pa c Hinv Hm Hc)
      as (s1 & Hk & Hinv1 & Hc1 & Hoth & Hlast & Hmore); [lia|].
    simpl kfree_n. rewrite Hk.
    destruct (IH s1 pa (c - 1) Hinv1 Hm Hc1) as
      (s' & Hrun & Hinv' & Hc' & Hoth' & Hlt & Heq); [lia|].
    exists s'. split; [done|]. split; [done|]. split.
    { rewrite Hc'. f_equal. lia. }
    split.
    { intros q Hq Hne. rewrite Hoth' by done. by apply Hoth. }
    split.
    + intros Hless. destruct Hlt as (Hf & Hmem & Hout); [lia|].
      destruct Hmore as [Hf1 Hmem1]; [lia|].
      split; [congruence|]. split; [congruence | done].
    + intros _ E. destruct n as [|n].
      * simpl in Hrun. injection Hrun as <-.
        destruct Hlast as (Hf & _ & _); [lia|]. split; [done|].
        apply (inv_page_inv _ _ _ s1 Hinv1 pa (c - 1) Hm Hc1). lia.
      * apply Heq; lia.
Qed.

(** X5.  [increase_ref_counter] does not look at the count it raises: on
    a page that is free it returns as always, and leaves a page that is
    on the free list with one reference, which breaks the invariant of
    the allocator. *)
Theorem increase_ref_counter_on_free_page (s : kmem) (pa : Z) :
  inv s -> managed pa -> ref_of s pa = Some 0 ->
  exists s', increase_ref_counter s pa = Ok s' /\
    ref_of s' pa = Some 1 /\ freelist s' = freelist s /\ mem s' = mem s /\
    in_freelist s' pa /\ ~ page_inv s'.
Proof.
  intros Hinv Hm Hc.
  assert (Hin : in_freelist s pa)
    by by apply (inv_page_inv _ _ _ s Hinv pa 0).
  unfold Kalloc.increase_ref_counter. unfold Kalloc.ref_of in Hc. rewrite Hc.
  eexists. split; [done|].
  assert (Hc' : ref_of (set_ref s (PA2IDX pa) (wrap_int (0 + 1))) pa = Some 1)
    by (by apply (ref_of_set_ref_eq KERNBASE s pa _ 0)).
  split; [done|]. split; [done|]. split; [done|]. split; [done|].
  intros Hpi. destruct (Hpi pa 1 Hm Hc') as [_ Hout]. by apply Hout.
Qed.

End Layout.

(** The free list of the small machine after [kinit]. *)
Lemma small_boot_free_pages : free_pages small_boot [small_page7; small_page6].
Proof.
  unfold free_pages.
  apply chain_cons with small_page6 1; [by vm_compute | by vm_compute |].
  apply chain_cons with 0 1; [by vm_compute | by vm_compute |].
  constructor.
Qed.

Lemma kinit_free_list_witness :
  0 < small_KERNBASE /\ small_KERNBASE <= small_end /\
  small_PHYSTOP <= 2 ^ 64 /\
  rev (pages_from (PGROUNDUP small_end)
         (initial_pages small_PHYSTOP small_end))
    = [small_page7; small_page6] /\
  exists s, kinit small_KERNBASE small_PHYSTOP small_end = Ok s /\
    free_pages s
      (rev (pages_from (PGROUNDUP small_end)
              (initial_pages small_PHYSTOP small_end))) /\
    ref_counter s =
      replicate (Z.to_nat (NUM_OF_PAGE small_KERNBASE small_PHYSTOP)) 0.
Proof.
  split; [exact small_KERNBASE_pos|]. split; [exact small_end_above|].
  split; [exact small_PHYSTOP_fits|]. split; [vm_compute; reflexivity|].
  exact (kinit_free_list small_KERNBASE small_PHYSTOP small_end
           small_KERNBASE_pos small_end_above small_PHYSTOP_fits).
Defined.

Lemma kalloc_n_hands_out_free_list_witness :
  inv small_KERNBASE small_PHYSTOP small_end small_boot /\
  free_pages small_boot [small_page7; small_page6] /\
  exists s', kalloc_n small_KERNBASE 3 small_boot =
               Ok (take 3 [small_page7; small_page6] ++
                   replicate (3 - length [small_page7; small_page6]) 0, s') /\
    free_pages s' (drop 3 [small_page7; small_page6]) /\
    (forall pa, pa ∈ take 3 [small_page7; small_page6] ->
       ref_of small_KERNBASE s' pa = Some 1).
Proof.
  split; [exact small_boot_inv|]. split; [exact small_boot_free_pages|].
  destruct (kalloc_n_hands_out_free_list
              small_KERNBASE small_PHYSTOP small_end
              small_KERNBASE_pos small_end_above small_PHYSTOP_fits
              small_boot [small_page7; small_page6] 3%nat
              small_boot_inv small_boot_free_pages)
    as (s' & Hrun & _ & Hfree & _ & Hone & _).
  exists s'. split; [exact Hrun|]. split; [exact Hfree | exact Hone].
Defined.

Lemma kfree_then_kalloc_returns_page_witness :
  managed small_PHYSTOP small_end small_page7 /\
  ref_of small_KERNBASE small_one_allocated small_page7 = Some 1 /\
  exists s1 s2,
    kfree small_KERNBASE small_PHYSTOP small_end
      small_one_allocated small_page7 = Ok s1 /\
    kalloc small_KERNBASE s1 = Ok (small_page7, s2) /\
    freelist s2 = freelist small_one_allocated /\
    ref_counter s2 = ref_counter small_one_allocated /\
    mem s2 = <[small_page7 := Junk 5]> (mem small_one_allocated).
Proof.
  assert (Hc : ref_of small_KERNBASE small_one_allocated small_page7 = Some 1)
    by (vm_compute; reflexivity).
  split; [exact small_page7_managed|]. split; [exact Hc|].
  exact (kfree_then_kalloc_returns_page
           small_KERNBASE small_PHYSTOP small_end
           small_KERNBASE_pos small_end_above
           small_one_allocated small_page7 small_page7_managed Hc).
Defined.

Lemma kfree_n_counts_down_witness :
  exists s,
    increase_ref_counter small_KERNBASE small_one_allocated small_page7
      = Ok s /\
    inv small_KERNBASE small_PHYSTOP small_end s /\
    managed small_PHYSTOP small_end small_page7 /\
    ref_of small_KERNBASE s small_page7 = Some 2 /\
    exists s', kfree_n small_KERNBASE small_PHYSTOP small_end 2 small_page7 s
                 = Ok s' /\
      inv small_KERNBASE small_PHYSTOP small_end s' /\
      ref_of small_KERNBASE s' small_page7 = Some (2 - Z.of_nat 2) /\
      freelist s' = small_page7.
Proof.
  assert (Hc : ref_of small_KERNBASE small_one_allocated small_page7 = Some 1)
    by (vm_compute; reflexivity).
  assert (Hn : Z.of_nat 2 <= 2) by lia.
  assert (Hpos : 0 < 2) by lia.
  assert (He : Z.of_nat 2 = 2) by reflexivity.
  destruct (increase_inv small_KERNBASE small_PHYSTOP small_end
              small_KERNBASE_pos small_end_above small_PHYSTOP_fits
              small_one_allocated small_page7 1
              small_one_allocated_inv small_page7_managed Hc)
    as (s & Hrun & Hinv & Hc2 & _); [lia|].
  change (wrap_int (1 + 1)) with 2 in Hc2.
  exists s. split; [exact Hrun|]. split; [exact Hinv|].
  split; [exact small_page7_managed|]. split; [exact Hc2|].
  destruct (kfree_n_counts_down
              small_KERNBASE small_PHYSTOP small_end
              small_KERNBASE_pos small_end_above small_PHYSTOP_fits
              2%nat s small_page7 2 Hinv small_page7_managed Hc2 Hn)
    as (s' & Hrun' & Hinv' & Hc' & _ & _ & Hlast).
  exists s'. split; [exact Hrun'|]. split; [exact Hinv'|].
  split; [exact Hc'|]. exact (proj1 (Hlast Hpos He)).
Defined.

Lemma increase_ref_counter_on_free_page_witness :
  inv small_KERNBASE small_PHYSTOP small_end small_boot /\
  managed small_PHYSTOP small_end small_page7 /\
  ref_of small_KERNBASE small_boot small_page7 = Some 0 /\
  exists s', increase_ref_counter small_KERNBASE small_boot small_page7
               = Ok s' /\
    ref_of small_KERNBASE s' small_page7 = Some 1 /\
    in_freelist s' small_page7 /\
    ~ page_inv small_KERNBASE small_PHYSTOP small_end s'.
Proof.
  assert (Hc : ref_of small_KERNBASE small_boot small_page7 = Some 0)
    by (vm_compute; reflexivity).
  split; [exact small_boot_inv|].
  split; [exact small_page7_managed|]. split; [exact Hc|].
  destruct (increase_ref_counter_on_free_page
              small_KERNBASE small_PHYSTOP small_end
              small_boot small_page7 small_boot_inv small_page7_managed Hc)
    as (s' & Hrun & Hc' & _ & _ & Hin & Hbad).
  exists s'. split; [exact Hrun|]. split; [exact Hc'|].
  split; [exact Hin | exact Hbad].
Defined.

End KallocMore.

(** * The buffer cache: further properties *)

Module BioMore.
Import Bio BioFacts.

(** ** [binit] *)

Lemma binit_heads_spec (bs : list nat) : forall s,
  (forall i, i ∈ bs -> is_Some (deref s (Head i))) ->
  exists s', binit_heads bs s = Ret tt s' /\ stored s s' /\
    (forall i, i ∈ bs -> next_of s' (Head i) = Some (Head i) /\
                         prev_of s' (Head i) = Some (Head i)) /\
    (forall x, (forall i, i ∈ bs -> x <> Head i) ->
       next_of s' x = next_of s x /\ prev_of s' x = prev_of s x) /\
    (forall x, payload_of s' x = payload_of s x).
Proof.
  induction bs as [|i bs IH]; intros s Hv.
  - exists s. split; [done|]. split; [apply stored_refl|].
    split; [by intros i ?%elem_of_nil|]. by split.
  - simpl.
    destruct (set_prev_spec s (Head i) (Head i)) as (s1 & H1 & St1 & Hn1 & Hp1 & Hd1);
      [apply Hv; by left|].
    rewrite (bind_Ret _ _ _ _ _ H1).
    destruct (set_next_spec s1 (Head i) (Head i)) as (s2 & H2 & St2 & Hn2 & Hp2 & Hd2);
      [apply (stored_valid _ _ St1), Hv; by left|].
    rewrite (bind_Ret _ _ _ _ _ H2).
    destruct (IH s2) as (s' & Hrun & St & Hin & Hout & Hpl).
    { intros k Hk. apply (stored_valid _ _ St2), (stored_valid _ _ St1), Hv.
      by right. }
    exists s'. split; [done|]. split; [eauto using stored_trans|].
    split; [|split].
    + intros k Hk. destruct (decide (k ∈ bs)) as [Hkb|Hkb]; [by apply Hin|].
      apply elem_of_cons in Hk as [->|Hk]; [|done].
      destruct (Hout (Head i)) as [E1 E2].
      { intros k Hk [= ->]. done. }
      rewrite E1, E2, Hn2, Hp2, Hp1. by rewrite !upd_eq.
    + intros x Hx. destruct (Hout x) as [E1 E2].
      { intros k Hk. apply Hx. by right. }
      assert (x <> Head i) by (apply Hx; by left).
      rewrite E1, E2, Hn2, Hp2, Hp1. rewrite !upd_ne by done.
      by rewrite Hn1.
    + intros x. by rewrite Hpl, Hd2, Hd1.
Qed.

(** One round of the second loop of [binit]: the buffer goes in front of
    the list of [head[h]], its sleep lock is initialised and its time
    stamp set. *)
Lemma binit_buf_spec s bk h l j ticks (k : M unit) :
  rep s bk -> (forall i lk, bk !! i = Some lk -> j ∉ lk) ->
  bk !! h = Some l -> is_Some (deref s (Buf j)) ->
  exists s',
    (n <- head_next h ;; modify (Buf j) (with_next n) ;;
     modify (Buf j) (with_prev (Head h)) ;;
     initsleeplock (Buf j) ;;
     n <- head_next h ;; modify n (with_prev (Buf j)) ;;
     modify (Head h) (with_next (Buf j)) ;;
     modify (Buf j) (with_lru_timestamp ticks) ;;
     k) s = k s' /\
    stored s s' /\ rep s' (<[h := j :: l]> bk) /\
    (forall x, payload_of s' x =
       if decide (x = Buf j)
       then (fun b => with_lru_timestamp ticks
                        (with_lock {| locked := false; pid := 0 |} b))
              <$> payload_of s x
       else payload_of s x).
Proof.
  intros [Hr Hd] Hfresh Hh Hj.
  destruct (rings_push _ _ _ _ _ _ Hr Hd Hfresh Hh) as [Hr' HF].
  set (F := hdp l (Head h)) in *.
  assert (HFj : F <> Buf j).
  { unfold F. destruct (hdp_in (Head h) l) as [->|(a & Ha & ->)]; [done|].
    intros [= ->]. by eapply Hfresh. }
  assert (HFv : is_Some (deref s F)).
  { unfold F. destruct (hdp_in (Head h) l) as [->|(a & Ha & ->)].
    - by eapply next_of_is_Some.
    - destruct Hr as [_ Hr]. destruct (Hr _ _ Hh) as [Hc _].
      destruct (chain_next_valid _ _ _ _ _ Hc Ha) as [n Hn].
      by eapply next_of_is_Some. }
  rewrite (bind_Ret _ _ _ _ _ (head_next_Ret _ _ _ HF)).
  destruct (set_next_spec s (Buf j) F Hj) as (s1 & H1 & St1 & Hn1 & Hp1 & Hd1).
  rewrite (bind_Ret _ _ _ _ _ H1).
  destruct (set_prev_spec s1 (Buf j) (Head h))
    as (s2 & H2 & St2 & Hn2 & Hp2 & Hd2);
    [by apply (stored_valid _ _ St1)|].
  rewrite (bind_Ret _ _ _ _ _ H2).
  destruct (set_payload_of s2 (Buf j)
              (with_lock {| locked := false; pid := 0 |})
              (with_lock {| locked := false; pid := 0 |}))
    as (s3 & H3 & St3 & Hn3 & Hp3 & Hd3);
    [by intros [] | by apply (stored_valid _ _ St2), (stored_valid _ _ St1)|].
  unfold initsleeplock. rewrite (bind_Ret _ _ _ _ _ H3).
  assert (HF3 : next_of s3 (Head h) = Some F).
  { rewrite Hn3, Hn2, Hn1. by rewrite upd_ne. }
  rewrite (bind_Ret _ _ _ _ _ (head_next_Ret _ _ _ HF3)).
  destruct (set_prev_spec s3 F (Buf j)) as (s4 & H4 & St4 & Hn4 & Hp4 & Hd4).
  { by apply (stored_valid _ _ St3), (stored_valid _ _ St2),
      (stored_valid _ _ St1). }
  rewrite (bind_Ret _ _ _ _ _ H4).
  destruct (set_next_spec s4 (Head h) (Buf j))
    as (s5 & H5 & St5 & Hn5 & Hp5 & Hd5).
  { apply (stored_valid _ _ St4), (stored_valid _ _ St3),
      (stored_valid _ _ St2), (stored_valid _ _ St1).
    by eapply next_of_is_Some. }
  rewrite (bind_Ret _ _ _ _ _ H5).
  destruct (set_payload_of s5 (Buf j) (with_lru_timestamp ticks)
              (with_lru_timestamp ticks))
    as (s6 & H6 & St6 & Hn6 & Hp6 & Hd6).
  { by intros []. }
  { by apply (stored_valid _ _ St5), (stored_valid _ _ St4),
      (stored_valid _ _ St3), (stored_valid _ _ St2), (stored_valid _ _ St1). }
  rewrite (bind_Ret _ _ _ _ _ H6).
  exists s6. split; [done|].
  split; [eauto 10 using stored_trans|]. split.
  - split; [|by eapply disjoint_push].
    eapply rings_ext; [| |exact Hr'].
    + intros x. rewrite Hn6, Hn5. destruct (decide (x = Head h)) as [->|Hx].
      * by rewrite !upd_eq.
      * rewrite !(upd_ne _ (Head h)) by done. by rewrite Hn4, Hn3, Hn2, Hn1.
    + intros x. rewrite Hp6, Hp5, Hp4. destruct (decide (x = F)) as [->|Hx].
      * by rewrite !upd_eq.
      * rewrite !(upd_ne _ F) by done. rewrite Hp3, Hp2. unfold upd.
        by rewrite Hp1.
  - intros x. rewrite Hd6, Hd5, Hd4, Hd3, Hd2, Hd1.
    case_decide; [|done]. by destruct (payload_of s x).
Qed.

Lemma elem_of_rev {A} (x : A) l : x ∈ rev l <-> x ∈ l.
Proof. rewrite !list_elem_of_In. symmetry. apply in_rev. Qed.

Lemma lookup_binit_buckets k i :
  (i < NUM_BUCKET)%nat ->
  binit_buckets k !! i =
    Some (rev (filter (fun j => (j mod NUM_BUCKET)%nat = i) (seq 0 k))).
Proof.
  intros Hi. unfold binit_buckets.
  rewrite list_lookup_fmap, lookup_seq_lt by done. done.
Qed.

Lemma binit_buckets_length k : length (binit_buckets k) = NUM_BUCKET.
Proof. unfold binit_buckets. by rewrite length_fmap, length_seq. Qed.

Lemma binit_buckets_below k i l j :
  binit_buckets k !! i = Some l -> j ∈ l ->
  (j < k)%nat /\ (j mod NUM_BUCKET)%nat = i.
Proof.
  intros Hl Hj.
  assert (Hi : (i < NUM_BUCKET)%nat).
  { rewrite <- (binit_buckets_length k). by eapply lookup_lt_Some. }
  rewrite lookup_binit_buckets in Hl by done.
  assert (El : l = rev (filter (fun j => (j mod NUM_BUCKET)%nat = i) (seq 0 k)))
    by congruence.
  subst l. rewrite elem_of_rev in Hj.
  apply list_elem_of_filter in Hj as [Hm Hj].
  apply elem_of_seq in Hj. split; [lia | done].
Qed.

Lemma binit_buckets_S k l :
  binit_buckets k !! (k mod NUM_BUCKET)%nat = Some l ->
  binit_buckets (S k) = <[(k mod NUM_BUCKET)%nat := k :: l]> (binit_buckets k).
Proof.
  intros Hl. apply list_eq. intros i.
  destruct (decide (i < NUM_BUCKET)%nat) as [Hi|Hi].
  - rewrite lookup_binit_buckets by done.
    rewrite seq_S, filter_app, rev_app_distr.
    change (0 + k)%nat with k.
    destruct (decide (i = k mod NUM_BUCKET)%nat) as [->|Hne].
    + rewrite list_lookup_insert_eq by (by rewrite binit_buckets_length).
      rewrite lookup_binit_buckets in Hl by done.
      rewrite filter_cons_True by done.
      assert (El : l = rev (filter (fun j => (j mod NUM_BUCKET)%nat
                                             = (k mod NUM_BUCKET)%nat)
                              (seq 0 k))) by congruence.
      by rewrite El, filter_nil.
    + rewrite list_lookup_insert_ne by done.
      rewrite lookup_binit_buckets by done.
      rewrite filter_cons_False by congruence. by rewrite filter_nil.
  - rewrite !lookup_ge_None_2; [done| |];
      rewrite ?length_insert, binit_buckets_length; lia.
Qed.

(** The second loop of [binit] from buffer [k] on. *)
Lemma binit_bufs_spec ticks nbuf : forall m k s,
  (k + m = nbuf)%nat -> rep s (binit_buckets k) ->
  (forall j, (j < nbuf)%nat -> is_Some (deref s (Buf j))) ->
  (forall j, (j < k)%nat -> payload_of s (Buf j) = Some (fresh_buf ticks)) ->
  (forall j, (k <= j < nbuf)%nat ->
     payload_of s (Buf j) = Some (payload zero_buf)) ->
  exists s', binit_bufs (seq k m) (k mod NUM_BUCKET)%nat ticks s = Ret tt s' /\
    stored s s' /\ rep s' (binit_buckets nbuf) /\
    (forall j, (j < nbuf)%nat -> payload_of s' (Buf j) = Some (fresh_buf ticks)).
Proof.
  induction m as [|m IH]; intros k s Hk Hrep Hv Hdone Htodo.
  - exists s. replace nbuf with k by lia. split; [done|].
    split; [apply stored_refl|]. by split.
  - assert (Hlt : (k mod NUM_BUCKET < NUM_BUCKET)%nat)
      by (apply Nat.mod_upper_bound; done).
    destruct (rep_lookup_is_Some s _ _ Hrep Hlt) as [l Hl].
    destruct (binit_buf_spec s (binit_buckets k) (k mod NUM_BUCKET)%nat l k
                ticks
                (binit_bufs (seq (S k) m) (S k mod NUM_BUCKET)%nat ticks)
                Hrep)
      as (s1 & Hrun & St & Hrep1 & Hpl); [|done| |].
    { intros i lk Hlk Hin.
      destruct (binit_buckets_below _ _ _ _ Hlk Hin). lia. }
    { apply Hv. lia. }
    rewrite <- binit_buckets_S in Hrep1 by done.
    destruct (IH (S k) s1) as (s' & Hrun' & St' & Hrep' & Hpl'); try done.
    + lia.
    + intros j Hj. apply (stored_valid _ _ St). by apply Hv.
    + intros j Hj. rewrite Hpl. case_decide as E.
      * injection E as ->. rewrite Htodo by lia. done.
      * apply Hdone. assert (j <> k) by congruence. lia.
    + intros j Hj. rewrite Hpl, decide_False by (intros [= ->]; lia).
      apply Htodo. lia.
    + exists s'. split; [|split; [eauto using stored_trans | by split]].
      rewrite <- Hrun', <- Hrun.
      replace (S k mod NUM_BUCKET)%nat
        with ((k mod NUM_BUCKET + 1) mod NUM_BUCKET)%nat; [done|].
      rewrite Nat.Div0.add_mod_idemp_l. f_equal. lia.
Qed.

(** X6.  [binit] returns on a cache of any number of buffers.  It leaves
    the cache well formed: buffer [j] is in bucket [j mod 13], a later
    buffer in front of an earlier one, every list is circular and doubly
    linked, and every buffer is without holder, not valid, its sleep lock
    free and its time stamp the value of the clock.  It takes no lock
    and reads no disk. *)
Theorem binit_spec (nbuf : nat) (ticks : Z) :
  exists s, binit nbuf ticks (bcache_bss nbuf) = Ret tt s /\
    well_formed s (binit_buckets nbuf) /\
    (forall i l j, binit_buckets nbuf !! i = Some l ->
       (j ∈ l <-> (j < nbuf)%nat /\ (j mod NUM_BUCKET)%nat = i)) /\
    (forall j, (j < nbuf)%nat ->
       payload_of s (Buf j) = Some (fresh_buf ticks)) /\
    trace s = [].
Proof.
  unfold binit.
  destruct (binit_heads_spec (seq 0 NUM_BUCKET) (bcache_bss nbuf))
    as (s0 & Hrun0 & St0 & Hin & Hout & Hpl0).
  { intros i Hi%elem_of_seq. unfold deref, bcache_bss. cbn [bcache_head].
    rewrite lookup_replicate_2 by lia. eauto. }
  rewrite (bind_Ret _ _ _ _ _ Hrun0).
  assert (Hbuf : forall j, (j < nbuf)%nat ->
            deref (bcache_bss nbuf) (Buf j) = Some zero_buf).
  { intros j Hj. simpl. by apply lookup_replicate_2. }
  destruct (binit_bufs_spec ticks nbuf nbuf 0%nat s0)
    as (s & Hrun & St & Hrep & Hpl); try done.
  - split; [split; [apply binit_buckets_length|] | split].
    + intros i l Hl.
      assert (Hi : (i < NUM_BUCKET)%nat).
      { rewrite <- (binit_buckets_length 0). by eapply lookup_lt_Some. }
      rewrite lookup_binit_buckets in Hl by done.
      assert (l = []) as -> by (simpl in Hl; congruence).
      destruct (Hin i) as [Hn Hp]; [apply elem_of_seq; lia|].
      by split.
    + intros i l Hl.
      assert (Hi : (i < NUM_BUCKET)%nat).
      { rewrite <- (binit_buckets_length 0). by eapply lookup_lt_Some. }
      rewrite lookup_binit_buckets in Hl by done.
      assert (l = []) as -> by (simpl in Hl; congruence).
      constructor.
    + intros i k li lk j Hli Hlk Hj.
      destruct (binit_buckets_below _ _ _ _ Hli Hj). lia.
  - intros j Hj. apply (stored_valid _ _ St0). rewrite Hbuf by done. eauto.
  - intros j Hj. lia.
  - intros j Hj. rewrite Hpl0. unfold payload_of. rewrite Hbuf by lia. done.
  - assert (Hmem : forall i l j, binit_buckets nbuf !! i = Some l ->
              (j ∈ l <-> (j < nbuf)%nat /\ (j mod NUM_BUCKET)%nat = i));
      [|exists s; split; [done|]; split; [|split; [done|split; [done|]]]].
    + intros i l j Hl. split; [by apply binit_buckets_below|].
      intros [Hj Hm].
      assert (Hi : (i < NUM_BUCKET)%nat)
        by (subst i; apply Nat.mod_upper_bound; done).
      rewrite lookup_binit_buckets in Hl by done.
      assert (El : l = rev (filter (fun j => (j mod NUM_BUCKET)%nat = i)
                              (seq 0 nbuf))) by congruence.
      subst l. apply elem_of_rev, list_elem_of_filter. split; [done|].
      apply elem_of_seq. lia.
    + split; [done| |].
      * intros j Hj.
        apply (stored_valid _ _ St), (stored_valid _ _ St0) in Hj.
        simpl in Hj. apply lookup_lt_is_Some in Hj.
        rewrite length_replicate in Hj.
        assert (Hi : (j mod NUM_BUCKET < NUM_BUCKET)%nat)
          by (apply Nat.mod_upper_bound; done).
        eexists _, _. split; [by apply lookup_binit_buckets|].
        apply elem_of_rev, list_elem_of_filter. split; [done|].
        apply elem_of_seq. lia.
      * intros i l j b Hl Hj Hb Hlive. exfalso.
        destruct (binit_buckets_below _ _ _ _ Hl Hj) as [Hlt _].
        rewrite (Hpl j Hlt) in Hb. injection Hb as <-. done.
    + by rewrite (stored_trace _ _ St), (stored_trace _ _ St0).
Qed.


(** ** What [bget] and [bread] end in *)

Lemma changed_at_trans s s1 s2 p f g :
  changed_at s s1 p f -> changed_at s1 s2 p g ->
  changed_at s s2 p (fun b => g (f b)).
Proof.
  intros H1 H2 x. rewrite H2, H1. case_decide; [|done].
  by destruct (payload_of s x).
Qed.

Lemma changed_at_valid s s' p f x :
  changed_at s s' p f -> is_Some (deref s' x) <-> is_Some (deref s x).
Proof.
  intros H. specialize (H x). unfold payload_of in H.
  destruct (deref s' x), (deref s x); simpl in H; try case_decide;
    simpl in H; try done; split; eauto.
Qed.

Lemma changed_at_other s s' p f x :
  changed_at s s' p f -> x <> p -> payload_of s' x = payload_of s x.
Proof. intros H Hx. by rewrite H, decide_False. Qed.

Lemma changed_at_same s s' p f b :
  changed_at s s' p f -> payload_of s p = Some b ->
  payload_of s' p = Some (f b).
Proof. intros H Hb. by rewrite H, decide_True, Hb. Qed.

Lemma changed_at_ext s s' p f g :
  (forall b, f b = g b) -> changed_at s s' p f -> changed_at s s' p g.
Proof.
  intros E H x. rewrite H. case_decide; [|done].
  destruct (payload_of s x); simpl; [|done]. by rewrite E.
Qed.

(** [acquiresleep(&b->lock); return b;] *)
Lemma acquiresleep_final me p s pb :
  payload_of s p = Some pb ->
  if locked (lock pb)
  then (acquiresleep me p ;; ret p) s = Sleeping p s
  else exists s', (acquiresleep me p ;; ret p) s = Ret p s' /\
         trace s' = trace s ++ [AcquireSleep p] /\
         (forall x, next_of s' x = next_of s x) /\
         (forall x, prev_of s' x = prev_of s x) /\
         changed_at s s' p (locked_by me).
Proof.
  intros Hpb. destruct (payload_of_deref _ _ _ Hpb) as (bf & Hbf & <-).
  rewrite lock_payload. destruct (locked (lock bf)) eqn:Hl.
  - unfold bind. by rewrite (acquiresleep_busy _ _ _ _ Hbf Hl).
  - destruct (acquiresleep_free me _ _ _ Hbf Hl)
      as (s' & Hrun & Htr & Hn & Hp & Hpl).
    exists s'. by rewrite (bind_Ret _ _ _ _ _ Hrun).
Qed.

(** [bget] when the block is in the cache. *)
Lemma bget_hit_final s bk lh me ticks d bn j pb :
  rep s bk -> bk !! Z.to_nat (hash_val bn) = Some lh ->
  find (holds_block s d bn) lh = Some j ->
  payload_of s (Buf j) = Some pb ->
  exists s', rep s' bk /\
    if locked (lock pb)
    then bget me ticks d bn s = Sleeping (Buf j) s' /\
         trace s' = trace s ++
           [Acquire (hash_lock (Z.to_nat (hash_val bn)));
            Release (hash_lock (Z.to_nat (hash_val bn)))] /\
         changed_at s s' (Buf j) (hit_buf ticks)
    else bget me ticks d bn s = Ret (Buf j) s' /\
         trace s' = trace s ++
           [Acquire (hash_lock (Z.to_nat (hash_val bn)));
            Release (hash_lock (Z.to_nat (hash_val bn)));
            AcquireSleep (Buf j)] /\
         changed_at s s' (Buf j) (fun b => locked_by me (hit_buf ticks b)).
Proof.
  intros Hrep Hh Hfind Hpb.
  destruct (bget_hit s bk lh me ticks d bn j Hrep Hh Hfind)
    as (s1 & Hrun & Hrep1 & _ & Htr1 & Hpl1).
  pose proof (changed_at_same _ _ _ _ _ Hpl1 Hpb) as Hpb1.
  pose proof (acquiresleep_final me (Buf j) s1 _ Hpb1) as Hacq.
  change (lock (hit_buf ticks pb)) with (lock pb) in Hacq.
  destruct (locked (lock pb)).
  - exists s1. split; [done|]. by rewrite Hrun.
  - destruct Hacq as (s' & Hret & Htr & Hn & Hp & Hpl).
    exists s'. split; [by eapply rep_ext|]. rewrite Hrun. split; [done|].
    split; [by rewrite Htr, Htr1, <- app_assoc|].
    by eapply changed_at_trans.
Qed.

(** [bget] when the block is not in the cache and a buffer can be
    had. *)
Lemma bget_evict_final s bk lh me ticks d bn j pb :
  rep s bk -> bk !! Z.to_nat (hash_val bn) = Some lh ->
  find (holds_block s d bn) lh = None ->
  find (unused s) (scan_order bk (seq 0 NUM_BUCKET) (Z.to_nat (hash_val bn)))
    = Some j ->
  payload_of s (Buf j) = Some pb ->
  exists i l1 l2 evs s',
    i <> Z.to_nat (hash_val bn) /\ bk !! i = Some (l1 ++ j :: l2) /\
    refcnt pb = 0 /\
    rep s' (<[Z.to_nat (hash_val bn) := j :: lh]> (<[i := l1 ++ l2]> bk)) /\
    held evs = [] /\ disk_reads evs = 0%nat /\
    if locked (lock pb)
    then bget me ticks d bn s = Sleeping (Buf j) s' /\
         trace s' = trace s ++ evs /\
         changed_at s s' (Buf j) (recycled d bn)
    else bget me ticks d bn s = Ret (Buf j) s' /\
         trace s' = trace s ++ evs ++ [AcquireSleep (Buf j)] /\
         changed_at s s' (Buf j) (fun b => locked_by me (recycled d bn b)).
Proof.
  intros Hrep Hh Hfind Hvict Hpb.
  destruct (bget_evict s bk lh me ticks d bn j Hrep Hh Hfind Hvict)
    as (bs1 & i & bs2 & l1 & l2 & s1 & E & Hi & Hl & Hn1 & Hn2 & Hu
        & Hrun & Hrep1 & Htr1 & _ & Hpl1).
  set (h := Z.to_nat (hash_val bn)) in *.
  pose proof (changed_at_same _ _ _ _ _ Hpl1 Hpb) as Hpb1.
  pose proof (acquiresleep_final me (Buf j) s1 _ Hpb1) as Hacq.
  change (lock (recycled d bn pb)) with (lock pb) in Hacq.
  exists i, l1, l2,
    ([Acquire (hash_lock h); Release (hash_lock h);
      Acquire bcache_lock; Acquire (hash_lock h)] ++
     visits bs1 h ++
     [Acquire (hash_lock i); Release (hash_lock h);
      Release (hash_lock i); Release bcache_lock]).
  assert (Hrc : refcnt pb = 0).
  { unfold unused in Hu. unfold payload_of in Hpb. simpl in Hpb.
    destruct (bcache_buf s !! j) as [bf|]; [|done].
    injection Hpb as <-. by apply Z.eqb_eq in Hu. }
  assert (Hheld : held ([Acquire (hash_lock h); Release (hash_lock h);
      Acquire bcache_lock; Acquire (hash_lock h)] ++
     visits bs1 h ++
     [Acquire (hash_lock i); Release (hash_lock h);
      Release (hash_lock i); Release bcache_lock]) = []).
  { unfold held. rewrite !held_from_app.
    assert (E0 : held_from [] [Acquire (hash_lock h); Release (hash_lock h);
                               Acquire bcache_lock; Acquire (hash_lock h)]
                 = [hash_lock h; bcache_lock]).
    { unfold held_from. simpl.
      by rewrite filter_cons_False by (intros X; by apply X). }
    rewrite E0, held_from_visits.
    - unfold held_from. simpl.
      repeat first
        [ rewrite filter_cons_True by (intros [= ?]; done)
        | rewrite filter_cons_False by (intros X; by apply X)
        | rewrite filter_nil ].
      done.
    - intros k Hk Hkh [Hin|Hin]%elem_of_cons; [congruence|].
      by apply list_elem_of_singleton in Hin. }
  assert (Hreads : disk_reads ([Acquire (hash_lock h); Release (hash_lock h);
      Acquire bcache_lock; Acquire (hash_lock h)] ++
     visits bs1 h ++
     [Acquire (hash_lock i); Release (hash_lock h);
      Release (hash_lock i); Release bcache_lock]) = 0%nat).
  { by rewrite !disk_reads_app, disk_reads_visits. }
  destruct (locked (lock pb)).
  - exists s1. repeat (split; [done|]). rewrite Hrun. split; [done|].
    split; [|done]. by rewrite Htr1.
  - destruct Hacq as (s' & Hret & Htr & Hn & Hp & Hpl).
    exists s'. repeat (split; [done|]). split; [by eapply rep_ext|].
    split; [done|]. split; [done|]. rewrite Hrun. split; [done|]. split.
    + rewrite Htr, Htr1. by rewrite <- !app_assoc.
    + by eapply changed_at_trans.
Qed.

(** Lines 154-157 of [bread]. *)
Lemma bread_fill_final p s pb :
  payload_of s p = Some pb ->
  exists s', bread_fill p s = Ret p s' /\
    trace s' = trace s ++ (if valid pb =? 0 then [DiskRead p] else []) /\
    (forall x, next_of s' x = next_of s x) /\
    (forall x, prev_of s' x = prev_of s x) /\
    changed_at s s' p filled.
Proof.
  intros Hpb. destruct (payload_of_deref _ _ _ Hpb) as (bf & Hbf & <-).
  destruct (bread_fill_spec p s bf Hbf) as (s' & Hrun & Htr & Hn & Hp & Hpl).
  exists s'. split; [done|]. split; [done|]. split; [done|]. split; [done|].
  intros x. rewrite Hpl. case_decide as E; [subst x|done].
  rewrite Hpb. simpl. unfold filled.
  change (valid (payload bf)) with (valid bf). by destruct (valid bf =? 0).
Qed.

(** [bread] when [bget] settles on buffer [j]; [f] is what [bget] makes
    of the buffer up to [acquiresleep]. *)
Lemma bread_final s bk lh me ticks d bn j pb :
  rep s bk -> bk !! Z.to_nat (hash_val bn) = Some lh ->
  bget_choice s bk d bn = Some j -> payload_of s (Buf j) = Some pb ->
  exists (f : buf -> buf) bk' evs s',
    (find (holds_block s d bn) lh = Some j /\ f = hit_buf ticks /\ bk' = bk
     \/
     find (holds_block s d bn) lh = None /\ f = recycled d bn /\
     refcnt pb = 0 /\
     exists i l1 l2, i <> Z.to_nat (hash_val bn) /\
       bk !! i = Some (l1 ++ j :: l2) /\
       bk' = <[Z.to_nat (hash_val bn) := j :: lh]> (<[i := l1 ++ l2]> bk)) /\
    rep s' bk' /\ held evs = [] /\ disk_reads evs = 0%nat /\
    if locked (lock pb)
    then bread me ticks d bn s = Sleeping (Buf j) s' /\
         trace s' = trace s ++ evs /\
         changed_at s s' (Buf j) f
    else bread me ticks d bn s = Ret (Buf j) s' /\
         trace s' = trace s ++ evs ++ [AcquireSleep (Buf j)] ++
                    (if valid (f pb) =? 0 then [DiskRead (Buf j)] else []) /\
         changed_at s s' (Buf j) (fun b => filled (locked_by me (f b))).
Proof.
  intros Hrep Hh Hch Hpb. unfold bget_choice in Hch. rewrite Hh in Hch.
  simpl in Hch. unfold bread.
  destruct (find (holds_block s d bn) lh) as [j'|] eqn:Hfind.
  - injection Hch as ->.
    destruct (bget_hit_final s bk lh me ticks d bn j pb Hrep Hh Hfind Hpb)
      as (s1 & Hrep1 & Hcase).
    exists (hit_buf ticks), bk,
      [Acquire (hash_lock (Z.to_nat (hash_val bn)));
       Release (hash_lock (Z.to_nat (hash_val bn)))].
    assert (Hheld : held [Acquire (hash_lock (Z.to_nat (hash_val bn)));
                         Release (hash_lock (Z.to_nat (hash_val bn)))] = []).
    { unfold held, held_from. simpl.
      by rewrite filter_cons_False by (intros X; by apply X). }
    destruct (locked (lock pb)).
    + destruct Hcase as (Hrun & Htr & Hpl). exists s1.
      split; [by left|]. split; [done|]. split; [done|]. split; [done|].
      unfold bind. by rewrite Hrun.
    + destruct Hcase as (Hrun & Htr & Hpl).
      pose proof (changed_at_same _ _ _ _ _ Hpl Hpb) as Hpb1.
      destruct (bread_fill_final (Buf j) s1 _ Hpb1)
        as (s' & Hfill & Htr' & Hn & Hp & Hpl').
      exists s'. split; [by left|]. split; [by eapply rep_ext|].
      split; [done|]. split; [done|].
      rewrite (bind_Ret _ _ _ _ _ Hrun). split; [done|]. split.
      * rewrite Htr', Htr. simpl. by rewrite <- !app_assoc.
      * eapply changed_at_ext; [|by eapply changed_at_trans]. done.
  - destruct (bget_evict_final s bk lh me ticks d bn j pb Hrep Hh Hfind Hch Hpb)
      as (i & l1 & l2 & evs & s1 & Hi & Hl & Hrc & Hrep1 & Hheld & Hreads
          & Hcase).
    exists (recycled d bn),
      (<[Z.to_nat (hash_val bn) := j :: lh]> (<[i := l1 ++ l2]> bk)), evs.
    destruct (locked (lock pb)).
    + destruct Hcase as (Hrun & Htr & Hpl). exists s1.
      split; [right; eauto 10|]. split; [done|]. split; [done|].
      split; [done|]. unfold bind. by rewrite Hrun.
    + destruct Hcase as (Hrun & Htr & Hpl).
      pose proof (changed_at_same _ _ _ _ _ Hpl Hpb) as Hpb1.
      destruct (bread_fill_final (Buf j) s1 _ Hpb1)
        as (s' & Hfill & Htr' & Hn & Hp & Hpl').
      exists s'. split; [right; eauto 10|]. split; [by eapply rep_ext|].
      split; [done|]. split; [done|].
      rewrite (bind_Ret _ _ _ _ _ Hrun). split; [done|]. split.
      * rewrite Htr', Htr. simpl. by rewrite <- !app_assoc.
      * eapply changed_at_ext; [|by eapply changed_at_trans]. done.
Qed.

Lemma bget_choice_in s bk lh d bn j :
  rep s bk -> bk !! Z.to_nat (hash_val bn) = Some lh ->
  bget_choice s bk d bn = Some j ->
  exists i l, bk !! i = Some l /\ j ∈ l.
Proof.
  intros Hrep Hh Hch. unfold bget_choice in Hch. rewrite Hh in Hch.
  change (default [] (Some lh)) with lh in Hch.
  destruct (find (holds_block s d bn) lh) as [j'|] eqn:Hfind.
  - injection Hch as ->. exists (Z.to_nat (hash_val bn)), lh. split; [done|].
    destruct (find_split _ _ _ Hfind) as (a & b & -> & _).
    apply elem_of_app. right. by left.
  - apply find_some in Hch as [Hin _].
    unfold scan_order in Hin. apply in_flat_map in Hin as (i & _ & Hin).
    destruct (decide (i = Z.to_nat (hash_val bn))); [done|].
    apply list_elem_of_In in Hin. rewrite elem_of_rev in Hin.
    destruct (bk !! i) as [l|] eqn:Hl; [|by apply elem_of_nil in Hin].
    by exists i, l.
Qed.

Lemma bread_panic s bk lh me ticks d bn :
  rep s bk -> bk !! Z.to_nat (hash_val bn) = Some lh ->
  bget_choice s bk d bn = None ->
  bread me ticks d bn s =
    Panic "bget: no buffers"
      (log s ([Acquire (hash_lock (Z.to_nat (hash_val bn)));
               Release (hash_lock (Z.to_nat (hash_val bn)));
               Acquire bcache_lock;
               Acquire (hash_lock (Z.to_nat (hash_val bn)))] ++
              visits (seq 0 NUM_BUCKET) (Z.to_nat (hash_val bn)))).
Proof.
  intros Hrep Hh Hch. unfold bget_choice in Hch. rewrite Hh in Hch.
  change (default [] (Some lh)) with lh in Hch.
  destruct (find (holds_block s d bn) lh) as [j'|] eqn:Hfind; [done|].
  unfold bread, bind.
  by rewrite (bget_panic s bk lh me ticks d bn Hrep Hh Hfind Hch).
Qed.

Lemma filled_valid b : valid (filled b) <> 0.
Proof.
  unfold filled. destruct (Z.eqb_spec (valid b) 0) as [E|E]; [simpl; lia|done].
Qed.

(** X7.  What [bread] ends in on a cache with well formed lists.  It
    settles on one buffer: the buffer of the bucket that holds the block,
    or else the first buffer without holder of the other buckets.  When
    there is none, it panics with the buffers as they were.  When the
    sleep lock of that buffer is taken, by the caller or by anybody, the
    caller goes to sleep.  Otherwise [bread] returns the buffer: it holds
    the block, is valid, is locked by the caller and has one holder more;
    no other buffer has changed.  [bread] never follows a pointer that
    points nowhere and never loops. *)
Theorem bread_outcome (s : bcache) (bk : list (list nat))
    (me ticks d bn : Z) :
  rep s bk ->
  match bget_choice s bk d bn with
  | None =>
      exists s', bread me ticks d bn s = Panic "bget: no buffers" s' /\
        forall x, payload_of s' x = payload_of s x
  | Some j =>
      exists pb, payload_of s (Buf j) = Some pb /\
        if locked (lock pb)
        then exists s', bread me ticks d bn s = Sleeping (Buf j) s' /\
               forall x, x <> Buf j -> payload_of s' x = payload_of s x
        else exists s' pb',
               bread me ticks d bn s = Ret (Buf j) s' /\
               payload_of s' (Buf j) = Some pb' /\
               dev pb' = d /\ blockno pb' = bn /\ valid pb' <> 0 /\
               lock pb' = {| locked := true; pid := me |} /\
               refcnt pb' = wrap32 (refcnt pb + 1) /\
               forall x, x <> Buf j -> payload_of s' x = payload_of s x
  end.
Proof.
  intros Hrep.
  destruct (rep_lookup_is_Some s bk _ Hrep (hash_val_bucket bn)) as [lh Hh].
  destruct (bget_choice s bk d bn) as [j|] eqn:Hch.
  - destruct (bget_choice_in s bk lh d bn j Hrep Hh Hch) as (i & l & Hl & Hj).
    destruct (rep_valid_buf s bk i l j Hrep Hl Hj) as [bf Hbf].
    assert (Hpb : payload_of s (Buf j) = Some (payload bf))
      by (unfold payload_of; by rewrite Hbf).
    exists (payload bf). split; [done|].
    destruct (bread_final s bk lh me ticks d bn j _ Hrep Hh Hch Hpb)
      as (f & bk' & evs & s' & Hway & Hrep' & _ & _ & Hcase).
    destruct (locked (lock (payload bf))).
    + destruct Hcase as (Hrun & _ & Hpl). exists s'. split; [done|].
      intros x Hx. by eapply changed_at_other.
    + destruct Hcase as (Hrun & _ & Hpl).
      exists s', (filled (locked_by me (f (payload bf)))).
      split; [done|]. split; [exact (changed_at_same _ _ _ _ _ Hpl Hpb)|].
      assert (Hkey : dev (f (payload bf)) = d /\ blockno (f (payload bf)) = bn
                     /\ refcnt (f (payload bf))
                        = wrap32 (refcnt (payload bf) + 1)).
      { destruct Hway as [(Hfind & -> & _)|(_ & -> & Hrc & _)].
        - pose proof (find_holds_true _ _ _ _ _ Hfind) as Hj'.
          destruct (holds_block_fields _ _ _ _ _ Hpb Hj') as [Hd Hb].
          by repeat split.
        - split; [done|]. split; [done|]. rewrite Hrc. reflexivity. }
      destruct Hkey as (Hd & Hb & Hrc).
      assert (E : forall b, dev (filled (locked_by me b)) = dev b /\
                            blockno (filled (locked_by me b)) = blockno b /\
                            lock (filled (locked_by me b))
                              = {| locked := true; pid := me |} /\
                            refcnt (filled (locked_by me b)) = refcnt b).
      { intros b. unfold filled. by destruct (valid (locked_by me b) =? 0). }
      destruct (E (f (payload bf))) as (E1 & E2 & E3 & E4).
      split; [congruence|]. split; [congruence|].
      split; [apply filled_valid|]. split; [done|]. split; [congruence|].
      intros x Hx. by eapply changed_at_other.
  - rewrite (bread_panic s bk lh me ticks d bn Hrep Hh Hch).
    eexists. split; [done|]. intros x. apply payload_of_log.
Qed.

(** X8.  [bread] never takes a buffer away from its holders: whatever
    the call ends in, a buffer that had a holder before it still is a
    buffer of the same block of the same device, and still valid when it
    was. *)
Theorem bread_keeps_buffers_in_use (s : bcache) (bk : list (list nat))
    (me ticks d bn : Z) (x : nat) (pb : buf) :
  rep s bk -> payload_of s (Buf x) = Some pb -> refcnt pb <> 0 ->
  exists pb',
    payload_of (state_of (bread me ticks d bn s)) (Buf x) = Some pb' /\
    dev pb' = dev pb /\ blockno pb' = blockno pb /\
    (valid pb <> 0 -> valid pb' = valid pb).
Proof.
  intros Hrep Hx Hrc.
  destruct (rep_lookup_is_Some s bk _ Hrep (hash_val_bucket bn)) as [lh Hh].
  destruct (bget_choice s bk d bn) as [j|] eqn:Hch.
  - destruct (bget_choice_in s bk lh d bn j Hrep Hh Hch) as (i & l & Hl & Hj).
    destruct (rep_valid_buf s bk i l j Hrep Hl Hj) as [bf Hbf].
    assert (Hpb : payload_of s (Buf j) = Some (payload bf))
      by (unfold payload_of; by rewrite Hbf).
    destruct (bread_final s bk lh me ticks d bn j _ Hrep Hh Hch Hpb)
      as (f & bk' & evs & s' & Hway & Hrep' & _ & _ & Hcase).
    assert (Hf : x = j -> f = hit_buf ticks).
    { intros ->. destruct Hway as [(_ & -> & _)|(_ & _ & Hz & _)]; [done|].
      congruence. }
    destruct (locked (lock (payload bf))).
    + destruct Hcase as (-> & _ & Hpl). simpl.
      destruct (decide (x = j)) as [E|E].
      * rewrite (Hf E) in Hpl. subst x.
        rewrite (changed_at_same _ _ _ _ _ Hpl Hx). eexists.
        split; [done|]. done.
      * rewrite (changed_at_other _ _ _ _ _ Hpl) by congruence.
        by exists pb.
    + destruct Hcase as (-> & _ & Hpl). simpl.
      destruct (decide (x = j)) as [E|E].
      * rewrite (Hf E) in Hpl. subst x.
        rewrite (changed_at_same _ _ _ _ _ Hpl Hx). eexists.
        split; [done|]. unfold filled.
        change (valid (locked_by me (hit_buf ticks pb))) with (valid pb).
        destruct (Z.eqb_spec (valid pb) 0); by repeat split.
      * rewrite (changed_at_other _ _ _ _ _ Hpl) by congruence.
        by exists pb.
  - rewrite (bread_panic s bk lh me ticks d bn Hrep Hh Hch). simpl.
    exists pb. by rewrite payload_of_log.
Qed.

(** ** Live buffers stay where a look-up finds them *)

Lemma find_remove {A} (P : A -> bool) l1 j l2 x :
  find P (l1 ++ j :: l2) = Some x -> x <> j -> find P (l1 ++ l2) = Some x.
Proof.
  rewrite !find_app. destruct (find P l1); [done|]. simpl.
  destruct (P j); [congruence | done].
Qed.

Lemma find_skip {A} (P : A -> bool) l1 j l2 :
  P j = false -> find P (l1 ++ j :: l2) = find P (l1 ++ l2).
Proof. intros Hj. rewrite !find_app. simpl. by rewrite Hj. Qed.

Lemma find_ext_on {A} (P Q : A -> bool) l :
  (forall x, x ∈ l -> P x = Q x) -> find P l = find Q l.
Proof.
  induction l as [|a l IH]; intros H; [done|]. simpl.
  rewrite (H a) by by left. destruct (Q a); [done|].
  apply IH. intros x Hx. apply H. by right.
Qed.

Lemma holds_block_other s s' p f d bn x :
  changed_at s s' p f -> Buf x <> p ->
  holds_block s' d bn x = holds_block s d bn x.
Proof.
  intros H Hx. by rewrite !holds_block_payload, (changed_at_other _ _ _ _ _ H).
Qed.

Lemma holds_block_key s d bn j b :
  payload_of s (Buf j) = Some b ->
  holds_block s d bn j = (dev b =? d) && (blockno b =? bn).
Proof. intros Hb. by rewrite holds_block_payload, Hb. Qed.

Lemma holds_block_own s j b :
  payload_of s (Buf j) = Some b ->
  holds_block s (dev b) (blockno b) j = true.
Proof.
  intros Hb. rewrite (holds_block_key _ _ _ _ _ Hb). by rewrite !Z.eqb_refl.
Qed.

(** A buffer that the look-up of its own block finds is not the buffer
    of any block the look-up of which finds another buffer. *)
Lemma found_differ s l x j b kd kb :
  find (holds_block s kd kb) l = Some x ->
  payload_of s (Buf j) = Some b ->
  find (holds_block s (dev b) (blockno b)) l = Some j ->
  x <> j ->
  holds_block s kd kb j = false.
Proof.
  intros Hx Hb Hj Hne. destruct (holds_block s kd kb j) eqn:E; [|done].
  exfalso. rewrite (holds_block_key _ _ _ _ _ Hb) in E.
  apply andb_prop in E as [E1 E2]. apply Z.eqb_eq in E1, E2.
  rewrite E1, E2 in Hj. congruence.
Qed.

(** How to show that the live buffers are in place after a call that
    has changed buffer [j] only. *)
Lemma coherent_intro s s' bk bk' j f :
  coherent s bk -> changed_at s s' (Buf j) f ->
  (forall i' l' x, bk' !! i' = Some l' -> x ∈ l' -> x <> j ->
     exists l, bk !! i' = Some l /\ x ∈ l /\
       forall kd kb, find (holds_block s kd kb) l = Some x ->
                     find (holds_block s' kd kb) l' = Some x) ->
  (forall i' l' b, bk' !! i' = Some l' -> j ∈ l' ->
     payload_of s (Buf j) = Some b -> live (f b) = true ->
     i' = Z.to_nat (hash_val (blockno (f b))) /\
     find (holds_block s' (dev (f b)) (blockno (f b))) l' = Some j) ->
  coherent s' bk'.
Proof.
  intros Hcoh Hpl Hoth Hown i' l' x b' Hl' Hx Hb' Hlive.
  destruct (decide (x = j)) as [->|Hne].
  - rewrite Hpl, decide_True in Hb' by done.
    destruct (payload_of s (Buf j)) as [b|] eqn:Hb; [|done].
    injection Hb' as <-. by eapply Hown.
  - rewrite (changed_at_other _ _ _ _ _ Hpl) in Hb' by congruence.
    destruct (Hoth i' l' x Hl' Hx Hne) as (l & Hl & Hxl & Hfind).
    destruct (Hcoh i' l x b' Hl Hxl Hb' Hlive) as [Hi Hf].
    split; [done|]. by apply Hfind.
Qed.

(** A call that leaves the lists alone and the block of buffer [j]. *)
Lemma coherent_keep s s' bk j f :
  coherent s bk -> changed_at s s' (Buf j) f ->
  (forall b, dev (f b) = dev b /\ blockno (f b) = blockno b) ->
  (forall i l b, bk !! i = Some l -> j ∈ l ->
     payload_of s (Buf j) = Some b -> live (f b) = true ->
     live b = true \/
     i = Z.to_nat (hash_val (blockno b)) /\
     find (holds_block s (dev b) (blockno b)) l = Some j) ->
  coherent s' bk.
Proof.
  intros Hcoh Hpl Hkey Hside.
  assert (Hst : forall kd kb l, find (holds_block s' kd kb) l
                                = find (holds_block s kd kb) l).
  { intros kd kb l.
    by apply (find_holds_block_stable s s' kd kb l f (Buf j)). }
  eapply coherent_intro; [done | done | |].
  - intros i' l' x Hl' Hx Hne. exists l'. split; [done|]. split; [done|].
    intros kd kb Hf. by rewrite Hst.
  - intros i' l' b Hl' Hj Hb Hlive.
    destruct (Hkey b) as [-> ->]. rewrite Hst.
    destruct (Hside i' l' b Hl' Hj Hb Hlive) as [Hlb|H]; [|done].
    by apply (Hcoh i' l' j b).
Qed.

Lemma rep_same_bucket s bk i k li lk j :
  rep s bk -> bk !! i = Some li -> bk !! k = Some lk ->
  j ∈ li -> j ∈ lk -> i = k.
Proof. intros [_ [_ Hd]]. apply Hd. Qed.

(** [brelse] when it moves the buffer to the front of its bucket. *)
Lemma coherent_front s s' bk h l1 j l2 f b :
  rep s bk -> coherent s bk -> bk !! h = Some (l1 ++ j :: l2) ->
  changed_at s s' (Buf j) f ->
  (forall b, dev (f b) = dev b /\ blockno (f b) = blockno b) ->
  payload_of s (Buf j) = Some b -> live b = true ->
  coherent s' (<[h := j :: l1 ++ l2]> bk).
Proof.
  intros Hrep Hcoh Hh Hpl Hkey Hb Hlive.
  assert (Hjh : j ∈ l1 ++ j :: l2) by (apply elem_of_app; right; by left).
  destruct (Hcoh h _ j b Hh Hjh Hb Hlive) as [Hhash Hfj].
  assert (Hlt : (h < length bk)%nat) by by eapply lookup_lt_Some.
  assert (Hst : forall kd kb l, find (holds_block s' kd kb) l
                                = find (holds_block s kd kb) l).
  { intros kd kb l.
    by apply (find_holds_block_stable s s' kd kb l f (Buf j)). }
  eapply coherent_intro; [done | done | |].
  - intros i' l' x Hl' Hx Hne.
    destruct (decide (i' = h)) as [->|Hi].
    + rewrite list_lookup_insert_eq in Hl' by done. injection Hl' as <-.
      exists (l1 ++ j :: l2). split; [done|]. split.
      { apply elem_of_cons in Hx as [->|Hx]; [done|].
        apply elem_of_app in Hx as [Hx|Hx]; apply elem_of_app;
          [by left | right; by right]. }
      intros kd kb Hf.
      pose proof (found_differ _ _ _ _ _ _ _ Hf Hb Hfj Hne) as Hno.
      rewrite Hst. simpl. rewrite Hno. by rewrite <- (find_skip _ l1 j l2).
    + rewrite list_lookup_insert_ne in Hl' by done.
      exists l'. split; [done|]. split; [done|]. intros kd kb Hf.
      by rewrite Hst.
  - intros i' l' b0 Hl' Hj Hb0 Hlive'.
    assert (b0 = b) as -> by congruence.
    destruct (Hkey b) as [Ed Eb]. rewrite Ed, Eb.
    destruct (decide (i' = h)) as [->|Hi].
    + rewrite list_lookup_insert_eq in Hl' by done. injection Hl' as <-.
      split; [done|]. simpl.
      rewrite (holds_block_key s' _ _ j (f b)); [|by eapply changed_at_same].
      by rewrite Ed, Eb, !Z.eqb_refl.
    + rewrite list_lookup_insert_ne in Hl' by done. exfalso. apply Hi.
      by eapply (rep_same_bucket s bk i' h l' _ j).
Qed.

(** [bget] when it takes buffer [j] out of bucket [i] for a block of
    bucket [h]. *)
Lemma coherent_evict s s' bk h lh i l1 j l2 f d bn :
  rep s bk -> coherent s bk -> i <> h ->
  bk !! i = Some (l1 ++ j :: l2) -> bk !! h = Some lh ->
  h = Z.to_nat (hash_val bn) ->
  find (holds_block s d bn) lh = None ->
  changed_at s s' (Buf j) f ->
  (forall b, dev (f b) = d /\ blockno (f b) = bn) ->
  coherent s' (<[h := j :: lh]> (<[i := l1 ++ l2]> bk)).
Proof.
  intros Hrep Hcoh Hih Hi Hh Hhash Hmiss Hpl Hkey.
  assert (Hji : j ∈ l1 ++ j :: l2) by (apply elem_of_app; right; by left).
  destruct (rep_valid_buf s bk i _ j Hrep Hi Hji) as [bf Hbf].
  assert (Hb : payload_of s (Buf j) = Some (payload bf))
    by (unfold payload_of; by rewrite Hbf).
  assert (Hlth : (h < length bk)%nat) by by eapply lookup_lt_Some.
  assert (Hlti : (i < length bk)%nat) by by eapply lookup_lt_Some.
  assert (Hnd : NoDup (l1 ++ j :: l2)) by (destruct Hrep as [_ [Hn _]]; eauto).
  assert (Hj12 : j ∉ l1 ++ l2).
  { apply NoDup_app in Hnd as (_ & H12 & Hnd2).
    apply NoDup_cons in Hnd2 as [Hj2 _].
    intros [H|H]%elem_of_app; [by eapply H12; [done | by left] | done]. }
  assert (Hjh : j ∉ lh).
  { intros H. apply Hih. by eapply (rep_same_bucket s bk i h _ lh j). }
  assert (Hst : forall kd kb l, j ∉ l ->
            find (holds_block s' kd kb) l = find (holds_block s kd kb) l).
  { intros kd kb l Hl. apply find_ext_on. intros x Hx.
    apply (holds_block_other s s' (Buf j) f); [done|].
    intros [= ->]. done. }
  assert (Hown : holds_block s' d bn j = true).
  { rewrite (holds_block_key s' _ _ j (f (payload bf)));
      [|by eapply changed_at_same].
    destruct (Hkey (payload bf)) as [-> ->]. by rewrite !Z.eqb_refl. }
  eapply coherent_intro; [done | done | |].
  - intros i' l' x Hl' Hx Hne.
    destruct (decide (i' = h)) as [->|Hi'].
    + rewrite list_lookup_insert_eq in Hl' by (by rewrite length_insert).
      injection Hl' as <-. exists lh. split; [done|].
      apply elem_of_cons in Hx as [->|Hx]; [done|]. split; [done|].
      intros kd kb Hf. simpl.
      assert (Hno : holds_block s' kd kb j = false).
      { destruct (holds_block s' kd kb j) eqn:E; [|done]. exfalso.
        rewrite (holds_block_key s' _ _ j (f (payload bf))) in E;
          [|by eapply changed_at_same].
        destruct (Hkey (payload bf)) as [Ed Eb]. rewrite Ed, Eb in E.
        apply andb_prop in E as [E1 E2]. apply Z.eqb_eq in E1, E2.
        subst kd kb. congruence. }
      rewrite Hno. by rewrite Hst.
    + rewrite list_lookup_insert_ne in Hl' by done.
      destruct (decide (i' = i)) as [->|Hi''].
      * rewrite list_lookup_insert_eq in Hl' by done. injection Hl' as <-.
        exists (l1 ++ j :: l2). split; [done|]. split.
        { apply elem_of_app in Hx as [Hx|Hx]; apply elem_of_app;
            [by left | right; by right]. }
        intros kd kb Hf. rewrite Hst by done. by eapply find_remove.
      * rewrite list_lookup_insert_ne in Hl' by done.
        exists l'. split; [done|]. split; [done|]. intros kd kb Hf.
        rewrite Hst; [done|]. intros Hj. apply Hi''.
        by eapply (rep_same_bucket s bk i' i l' _ j).
  - intros i' l' b0 Hl' Hj Hb0 Hlive'.
    destruct (Hkey b0) as [-> ->].
    destruct (decide (i' = h)) as [->|Hi'].
    + rewrite list_lookup_insert_eq in Hl' by (by rewrite length_insert).
      injection Hl' as <-. split; [done|]. simpl. by rewrite Hown.
    + rewrite list_lookup_insert_ne in Hl' by done. exfalso.
      destruct (decide (i' = i)) as [->|Hi''].
      * rewrite list_lookup_insert_eq in Hl' by done. injection Hl' as <-.
        done.
      * rewrite list_lookup_insert_ne in Hl' by done. apply Hi''.
        by eapply (rep_same_bucket s bk i' i l' _ j).
Qed.

(** Every buffer is in a list, before and after. *)
Lemma all_listed_evict (bk : list (list nat)) h lh i l1 j l2 x :
  i <> h -> bk !! i = Some (l1 ++ j :: l2) -> bk !! h = Some lh ->
  (exists k l, bk !! k = Some l /\ x ∈ l) ->
  exists k l, <[h := j :: lh]> (<[i := l1 ++ l2]> bk) !! k = Some l /\ x ∈ l.
Proof.
  intros Hih Hi Hh (k & l & Hl & Hx).
  assert (Hlth : (h < length bk)%nat) by by eapply lookup_lt_Some.
  assert (Hlti : (i < length bk)%nat) by by eapply lookup_lt_Some.
  destruct (decide (x = j)) as [->|Hne].
  { exists h, (j :: lh). split; [|by left].
    apply list_lookup_insert_eq. by rewrite length_insert. }
  destruct (decide (k = h)) as [->|Hk].
  - exists h, (j :: lh). split.
    + apply list_lookup_insert_eq. by rewrite length_insert.
    + right. congruence.
  - destruct (decide (k = i)) as [->|Hk'].
    + exists i, (l1 ++ l2). split.
      * rewrite list_lookup_insert_ne by done. by apply list_lookup_insert_eq.
      * assert (l = l1 ++ j :: l2) as -> by congruence.
        apply elem_of_app in Hx as [Hx|Hx]; apply elem_of_app; [by left|].
        apply elem_of_cons in Hx as [->|Hx]; [done | by right].
    + exists k, l. split; [|done]. by rewrite !list_lookup_insert_ne.
Qed.

Lemma all_listed_front (bk : list (list nat)) h l1 j l2 x :
  bk !! h = Some (l1 ++ j :: l2) ->
  (exists k l, bk !! k = Some l /\ x ∈ l) ->
  exists k l, <[h := j :: l1 ++ l2]> bk !! k = Some l /\ x ∈ l.
Proof.
  intros Hh (k & l & Hl & Hx).
  assert (Hlth : (h < length bk)%nat) by by eapply lookup_lt_Some.
  destruct (decide (k = h)) as [->|Hk].
  - exists h, (j :: l1 ++ l2). split; [by apply list_lookup_insert_eq|].
    assert (l = l1 ++ j :: l2) as -> by congruence.
    apply elem_of_app in Hx as [Hx|Hx].
    + right. apply elem_of_app. by left.
    + apply elem_of_cons in Hx as [->|Hx]; [by left|].
      right. apply elem_of_app. by right.
  - exists k, l. split; [|done]. by rewrite list_lookup_insert_ne.
Qed.

(** ** A well formed cache stays well formed *)

Lemma well_formed_log s bk evs : well_formed s bk -> well_formed (log s evs) bk.
Proof.
  intros [Hrep Hall Hcoh]. split.
  - by apply rep_log.
  - intros j. rewrite deref_log. apply Hall.
  - intros i l j b Hl Hj. rewrite payload_of_log. intros Hb Hlive.
    destruct (Hcoh i l j b Hl Hj Hb Hlive) as [Hi Hf]. split; [done|].
    rewrite <- Hf. apply find_ext_in. intros x. apply holds_block_log.
Qed.

Lemma hit_buf_key ticks b :
  dev (hit_buf ticks b) = dev b /\ blockno (hit_buf ticks b) = blockno b.
Proof. done. Qed.

Lemma filled_fields b :
  dev (filled b) = dev b /\ blockno (filled b) = blockno b /\
  lock (filled b) = lock b /\ refcnt (filled b) = refcnt b.
Proof. unfold filled. by destruct (valid b =? 0). Qed.

(** X9.  [bread] keeps the cache well formed, whatever it ends in: the
    thirteen lists stay circular and doubly linked, every buffer stays in
    exactly one of them, and every live buffer stays in the bucket of its
    block, the first buffer of that block there. *)
Theorem bread_keeps_well_formed (s : bcache) (bk : list (list nat))
    (me ticks d bn : Z) :
  well_formed s bk ->
  exists bk', well_formed (state_of (bread me ticks d bn s)) bk'.
Proof.
  intros Hwf. pose proof Hwf as [Hrep Hall Hcoh].
  destruct (rep_lookup_is_Some s bk _ Hrep (hash_val_bucket bn)) as [lh Hh].
  destruct (bget_choice s bk d bn) as [j|] eqn:Hch.
  - destruct (bget_choice_in s bk lh d bn j Hrep Hh Hch) as (i & l & Hl & Hj).
    destruct (rep_valid_buf s bk i l j Hrep Hl Hj) as [bf Hbf].
    assert (Hpb : payload_of s (Buf j) = Some (payload bf))
      by (unfold payload_of; by rewrite Hbf).
    destruct (bread_final s bk lh me ticks d bn j _ Hrep Hh Hch Hpb)
      as (f & bk' & evs & s' & Hway & Hrep' & _ & _ & Hcase).
    assert (Hs : exists g, state_of (bread me ticks d bn s) = s' /\
              changed_at s s' (Buf j) g /\
              forall b, dev (g b) = dev (f b) /\ blockno (g b) = blockno (f b)).
    { destruct (locked (lock (payload bf))).
      - destruct Hcase as (-> & _ & Hpl). by exists f.
      - destruct Hcase as (-> & _ & Hpl). eexists. split; [done|].
        split; [exact Hpl|]. intros b. simpl.
        by destruct (filled_fields (locked_by me (f b))) as (-> & -> & _). }
    destruct Hs as (g & -> & Hpl & Hg). exists bk'. split; [done| |].
    + intros x Hx. apply (changed_at_valid _ _ _ _ _ Hpl) in Hx.
      destruct Hway as [(_ & _ & ->)|(_ & _ & _ & i0 & l1 & l2 & Hi0 & Hl0 & ->)];
        [by apply Hall|].
      apply all_listed_evict; auto.
    + destruct Hway as [(Hfind & -> & ->)
                       |(Hmiss & -> & _ & i0 & l1 & l2 & Hi0 & Hl0 & ->)].
      * eapply coherent_keep; [done | exact Hpl | |].
        { intros b. destruct (Hg b) as [-> ->]. done. }
        intros i' l' b Hl' Hj' Hb _. right.
        assert (b = payload bf) as -> by congruence.
        destruct (find_split _ _ _ Hfind) as (a & c & -> & _).
        assert (i' = Z.to_nat (hash_val bn)) as ->.
        { eapply (rep_same_bucket s bk); eauto.
          apply elem_of_app. right. by left. }
        assert (l' = a ++ j :: c) as -> by congruence.
        pose proof (find_holds_true _ _ _ _ _ Hfind) as Hj0.
        destruct (holds_block_fields _ _ _ _ _ Hpb Hj0) as [-> ->]. done.
      * eapply (coherent_evict s s' bk _ lh i0 l1 j l2 g d bn); eauto.
  - rewrite (bread_panic s bk lh me ticks d bn Hrep Hh Hch). simpl.
    exists bk. by apply well_formed_log.
Qed.

Lemma brelse_fault me j s :
  deref s (Buf j) = None -> brelse me (Buf j) s = Fault.
Proof.
  intros Hd. unfold brelse, holdingsleep, bind, load. by rewrite Hd.
Qed.

(** X10.  [brelse] keeps the cache well formed. *)
Theorem brelse_keeps_well_formed (s s' : bcache) (bk : list (list nat))
    (me : Z) (j : nat) :
  well_formed s bk -> brelse me (Buf j) s = Ret tt s' ->
  exists bk', well_formed s' bk'.
Proof.
  intros [Hrep Hall Hcoh] Hrun.
  destruct (deref s (Buf j)) as [bf|] eqn:Hbf;
    [|by rewrite brelse_fault in Hrun].
  destruct (holding me (lock bf)) eqn:Hhold;
    [|by rewrite (brelse_not_holding me _ s bf) in Hrun].
  assert (Hpb : payload_of s (Buf j) = Some (payload bf))
    by (unfold payload_of; by rewrite Hbf).
  assert (Hlive : live (payload bf) = true).
  { unfold holding in Hhold. apply andb_prop in Hhold as [Hl _].
    unfold live. rewrite lock_payload, Hl. by rewrite !orb_true_r. }
  destruct (Hall j) as (i & l & Hl & Hj); [eauto|].
  destruct (Hcoh i l j _ Hl Hj Hpb Hlive) as [Hi _].
  change (blockno (payload bf)) with (blockno bf) in Hi. subst i.
  apply list_elem_of_split in Hj as (l1 & l2 & ->).
  destruct (brelse_holding s bk me j bf l1 l2 Hrep Hbf Hl Hhold)
    as (s1 & Hrun1 & _ & _ & Hpl & Hrep1).
  assert (s1 = s') as -> by congruence.
  destruct (wrap32 (refcnt bf - 1) =? 0).
  - eexists. split; [exact Hrep1| |].
    + intros x Hx. apply (changed_at_valid _ _ _ _ _ Hpl) in Hx.
      apply all_listed_front; auto.
    + eapply coherent_front; eauto.
  - exists bk. split; [done| |].
    + intros x Hx. apply (changed_at_valid _ _ _ _ _ Hpl) in Hx. auto.
    + eapply coherent_keep; [done | exact Hpl | by intros [] |].
      intros i' l' b Hl' Hj' Hb _. left. congruence.
Qed.

Lemma bunpin_spec s p bf :
  deref s p = Some bf ->
  exists s', bunpin p s = Ret tt s' /\
    trace s' = trace s ++
      [Acquire (hash_lock (Z.to_nat (hash_val (blockno bf))));
       Release (hash_lock (Z.to_nat (hash_val (blockno bf))))] /\
    (forall x, next_of s' x = next_of s x) /\
    (forall x, prev_of s' x = prev_of s x) /\
    changed_at s s' p dropped.
Proof.
  intros Hb. unfold bunpin.
  rewrite (bind_Ret _ _ _ _ _ (load_Ret _ _ _ Hb)). cbv zeta.
  unfold acquire. rewrite (bind_Ret _ _ _ _ _ (emit_Ret _ _)).
  set (s0 := log s [Acquire (hash_lock (Z.to_nat (hash_val (blockno bf))))]).
  destruct (set_payload_of s0 p
              (fun bf => with_refcnt (wrap32 (refcnt bf - 1)) bf) dropped)
    as (s1 & Hrun1 & St1 & Hn1 & Hp1 & Hpl1);
    [by intros [] | unfold s0; rewrite deref_log; eauto |].
  rewrite (bind_Ret _ _ _ _ _ Hrun1).
  unfold release. rewrite emit_Ret. eexists. split; [done|].
  split; [|split; [|split]].
  - simpl. rewrite (stored_trace _ _ St1). simpl. by rewrite <- ?app_assoc.
  - intros x. rewrite next_of_log, Hn1. apply next_of_log.
  - intros x. rewrite prev_of_log, Hp1. apply prev_of_log.
  - intros x. rewrite payload_of_log, Hpl1. done.
Qed.

(** X11.  [bpin] and [bunpin] return on every buffer there is and
    change that buffer only: [bpin] counts one holder more and sets the
    time stamp, [bunpin] counts one holder less.  A [bwrite] that
    returns changes no buffer.  On a live buffer of a well formed cache
    [bpin] and [bunpin], and [bwrite] on any buffer, keep the cache well
    formed with the lists as they are. *)
Theorem pin_unpin_write_keep_well_formed (s : bcache) (j : nat) (b : buf) :
  payload_of s (Buf j) = Some b ->
  (forall ticks, exists s',
     bpin ticks (Buf j) s = Ret tt s' /\
     changed_at s s' (Buf j) (hit_buf ticks) /\
     forall bk, well_formed s bk -> live b = true -> well_formed s' bk) /\
  (exists s',
     bunpin (Buf j) s = Ret tt s' /\
     changed_at s s' (Buf j) dropped /\
     forall bk, well_formed s bk -> live b = true -> well_formed s' bk) /\
  (forall me s', bwrite me (Buf j) s = Ret tt s' ->
     (forall x, payload_of s' x = payload_of s x) /\
     forall bk, well_formed s bk -> well_formed s' bk).
Proof.
  intros Hb.
  destruct (payload_of_deref _ _ _ Hb) as (bf & Hbf & <-).
  split; [|split].
  - intros ticks.
    destruct (bpin_spec s ticks (Buf j) bf Hbf) as (s' & Hrun & _ & Hn & Hp & Hpl).
    exists s'. split; [done|]. split; [done|].
    intros bk [Hrep Hall Hcoh] Hlive. split.
    + by eapply rep_ext.
    + intros x Hx. apply (changed_at_valid _ _ _ _ _ Hpl) in Hx. auto.
    + eapply coherent_keep; [done | exact Hpl | by intros [] |].
      intros i' l' b Hl' Hj' Hb' _. left. congruence.
  - destruct (bunpin_spec s (Buf j) bf Hbf) as (s' & Hrun & _ & Hn & Hp & Hpl).
    exists s'. split; [done|]. split; [done|].
    intros bk [Hrep Hall Hcoh] Hlive. split.
    + by eapply rep_ext.
    + intros x Hx. apply (changed_at_valid _ _ _ _ _ Hpl) in Hx. auto.
    + eapply coherent_keep; [done | exact Hpl | by intros [] |].
      intros i' l' b Hl' Hj' Hb' _. left. congruence.
  - intros me s' Hrun. rewrite (bwrite_spec me _ s bf Hbf) in Hrun.
    destruct (holding me (lock bf)); [|done]. injection Hrun as <-.
    split; [intros x; apply payload_of_log|].
    intros bk Hwf. by apply well_formed_log.
Qed.

(** X12.  In a well formed cache no block has two live buffers, and
    [bread] of the block of a live buffer ends on that buffer: it
    returns the buffer, or goes to sleep on its lock when the lock is
    taken.  It does not panic and recycles no buffer: the lists stay as
    they are and no other buffer changes. *)
Theorem bread_of_live_block_hits (s : bcache) (bk : list (list nat))
    (me ticks : Z) (x : nat) (bx : buf) :
  well_formed s bk ->
  payload_of s (Buf x) = Some bx -> live bx = true ->
  (forall y by_, payload_of s (Buf y) = Some by_ -> live by_ = true ->
     dev by_ = dev bx -> blockno by_ = blockno bx -> y = x) /\
  exists s',
    (if locked (lock bx)
     then bread me ticks (dev bx) (blockno bx) s = Sleeping (Buf x) s'
     else bread me ticks (dev bx) (blockno bx) s = Ret (Buf x) s') /\
    rep s' bk /\
    forall p, p <> Buf x -> payload_of s' p = payload_of s p.
Proof.
  intros [Hrep Hall Hcoh] Hx Hlx.
  destruct (payload_of_deref _ _ _ Hx) as (bfx & Hbfx & _).
  destruct (Hall x) as (i & l & Hl & Hxl); [eauto|].
  destruct (Hcoh i l x bx Hl Hxl Hx Hlx) as [-> Hfx]. split.
  - intros y by_ Hy Hly Ed Eb.
    destruct (payload_of_deref _ _ _ Hy) as (bfy & Hbfy & _).
    destruct (Hall y) as (k & l' & Hl' & Hyl); [eauto|].
    destruct (Hcoh k l' y by_ Hl' Hyl Hy Hly) as [-> Hfy].
    rewrite Ed, Eb in *. congruence.
  - assert (Hch : bget_choice s bk (dev bx) (blockno bx) = Some x).
    { unfold bget_choice. rewrite Hl. simpl default. by rewrite Hfx. }
    destruct (bread_final s bk l me ticks (dev bx) (blockno bx) x bx
                Hrep Hl Hch Hx)
      as (f & bk' & evs & s' & Hway & Hrep' & _ & _ & Hcase).
    destruct Hway as [(_ & _ & ->)|(Hnone & _)]; [|congruence].
    exists s'. destruct (locked (lock bx)).
    + destruct Hcase as (Hrun & _ & Hpl). split; [done|]. split; [done|].
      intros p Hp. by eapply changed_at_other.
    + destruct Hcase as (Hrun & _ & Hpl). split; [done|]. split; [done|].
      intros p Hp. by eapply changed_at_other.
Qed.

(** ** Reading a block again *)

Lemma bread_ret_inv s bk me ticks d bn b s1 :
  rep s bk -> bread me ticks d bn s = Ret b s1 ->
  exists lh j pb f bk' evs,
    bk !! Z.to_nat (hash_val bn) = Some lh /\ b = Buf j /\
    bget_choice s bk d bn = Some j /\
    payload_of s (Buf j) = Some pb /\ locked (lock pb) = false /\
    (find (holds_block s d bn) lh = Some j /\ f = hit_buf ticks /\ bk' = bk
     \/
     find (holds_block s d bn) lh = None /\ f = recycled d bn /\
     refcnt pb = 0 /\
     exists i l1 l2, i <> Z.to_nat (hash_val bn) /\
       bk !! i = Some (l1 ++ j :: l2) /\
       bk' = <[Z.to_nat (hash_val bn) := j :: lh]> (<[i := l1 ++ l2]> bk)) /\
    rep s1 bk' /\ held evs = [] /\ disk_reads evs = 0%nat /\
    trace s1 = trace s ++ evs ++ [AcquireSleep (Buf j)] ++
               (if valid (f pb) =? 0 then [DiskRead (Buf j)] else []) /\
    changed_at s s1 (Buf j) (fun b => filled (locked_by me (f b))).
Proof.
  intros Hrep Hrun.
  destruct (rep_lookup_is_Some s bk _ Hrep (hash_val_bucket bn)) as [lh Hh].
  destruct (bget_choice s bk d bn) as [j|] eqn:Hch;
    [|by rewrite (bread_panic s bk lh me ticks d bn Hrep Hh Hch) in Hrun].
  destruct (bget_choice_in s bk lh d bn j Hrep Hh Hch) as (i & l & Hl & Hj).
  destruct (rep_valid_buf s bk i l j Hrep Hl Hj) as [bf Hbf].
  assert (Hpb : payload_of s (Buf j) = Some (payload bf))
    by (unfold payload_of; by rewrite Hbf).
  destruct (bread_final s bk lh me ticks d bn j _ Hrep Hh Hch Hpb)
    as (f & bk' & evs & s' & Hway & Hrep' & Hheld & Hreads & Hcase).
  destruct (locked (lock (payload bf))) eqn:Hlk.
  - destruct Hcase as (Hs & _). congruence.
  - destruct Hcase as (Hr & Htr & Hpl).
    assert (b = Buf j /\ s1 = s') as [-> ->] by (split; congruence).
    exists lh, j, (payload bf), f, bk', evs. by repeat (split; [done|]).
Qed.

(** X13.  The cache caches: after [bread] has returned a buffer and the
    caller has released it with [brelse], the next [bread] of the same
    block, by whatever process, returns the same buffer and does not
    read the disk.  [brelse] returns on every buffer [bread] has
    returned. *)
Theorem second_bread_reads_no_disk (s s1 : bcache) (bk : list (list nat))
    (me ticks d bn : Z) (b : ptr) :
  rep s bk -> bread me ticks d bn s = Ret b s1 ->
  exists s2, brelse me b s1 = Ret tt s2 /\
    forall me' ticks', exists s3,
      bread me' ticks' d bn s2 = Ret b s3 /\
      disk_reads (trace s3) = disk_reads (trace s2).
Proof.
  intros Hrep Hrun.
  destruct (bread_ret_inv s bk me ticks d bn b s1 Hrep Hrun)
    as (lh & j & pb & f & bk' & evs & Hh & -> & Hch & Hpb & Hfree & Hway
        & Hrep1 & _ & _ & _ & Hpl).
  set (h := Z.to_nat (hash_val bn)) in *.
  set (g := fun b => filled (locked_by me (f b))) in *.
  pose proof (changed_at_same _ _ _ _ _ Hpl Hpb) as Hpb1.
  destruct (payload_of_deref _ _ _ Hpb1) as (bf1 & Hbf1 & Epb1).
  assert (Hkey : dev (f pb) = d /\ blockno (f pb) = bn).
  { destruct Hway as [(Hfind & -> & _)|(_ & -> & _)]; [|done].
    pose proof (find_holds_true _ _ _ _ _ Hfind) as Hj'.
    by destruct (holds_block_fields _ _ _ _ _ Hpb Hj'). }
  destruct (filled_fields (locked_by me (f pb))) as (Ed & Eb & El & Er).
  assert (Hgd : dev (g pb) = d) by (unfold g; rewrite Ed; apply Hkey).
  assert (Hgb : blockno (g pb) = bn) by (unfold g; rewrite Eb; apply Hkey).
  assert (Hgl : lock (g pb) = {| locked := true; pid := me |})
    by (unfold g; by rewrite El).
  assert (Hbn : blockno bf1 = bn).
  { change (blockno bf1) with (blockno (payload bf1)). by rewrite Epb1. }
  assert (Hhold : holding me (lock bf1) = true).
  { rewrite <- lock_payload, Epb1, Hgl. unfold holding.
    simpl. by rewrite Z.eqb_refl. }
  assert (Hown1 : holds_block s1 d bn j = true).
  { rewrite (holds_block_key _ _ _ _ _ Hpb1), Hgd, Hgb.
    by rewrite !Z.eqb_refl. }
  assert (Hlist : exists l1 l2, bk' !! h = Some (l1 ++ j :: l2) /\
            find (holds_block s1 d bn) (l1 ++ j :: l2) = Some j).
  { destruct Hway as [(Hfind & Ef & ->)
                     |(Hmiss & Ef & _ & i0 & l1 & l2 & Hi0 & Hl0 & ->)].
    - destruct (find_split _ _ _ Hfind) as (a & c & E & _).
      exists a, c. split; [congruence|]. rewrite <- E.
      rewrite (find_holds_block_stable s s1 d bn lh g (Buf j)); [done| |done].
      intros b0. unfold g. rewrite Ef.
      by destruct (filled_fields (locked_by me (hit_buf ticks b0)))
        as (-> & -> & _).
    - exists [], lh. split.
      + apply list_lookup_insert_eq. rewrite length_insert.
        by eapply lookup_lt_Some.
      + simpl. by rewrite Hown1. }
  destruct Hlist as (l1 & l2 & Hl & Hfind1).
  assert (Hl' : bk' !! Z.to_nat (hash_val (blockno bf1)) = Some (l1 ++ j :: l2))
    by by rewrite Hbn.
  destruct (brelse_holding s1 bk' me j bf1 l1 l2 Hrep1 Hbf1 Hl' Hhold)
    as (s2 & Hrun2 & _ & _ & Hpl2 & Hrep2).
  exists s2. split; [done|]. intros me' ticks'.
  rewrite Hbn in Hrep2. fold h in Hrep2.
  pose proof (changed_at_same _ _ _ _ _ Hpl2 Hpb1) as Hpb2.
  assert (Hst : forall l, find (holds_block s2 d bn) l
                          = find (holds_block s1 d bn) l).
  { intros l. apply (find_holds_block_stable _ _ _ _ _ released (Buf j));
      [by intros [] | done]. }
  assert (Hown2 : holds_block s2 d bn j = true).
  { pose proof (Hst [j]) as E. simpl in E. rewrite Hown1 in E.
    by destruct (holds_block s2 d bn j). }
  assert (Hlen : (h < length bk')%nat) by by eapply lookup_lt_Some.
  assert (Hbk2 : exists bk2 lh2, rep s2 bk2 /\ bk2 !! h = Some lh2 /\
            find (holds_block s2 d bn) lh2 = Some j).
  { destruct (wrap32 (refcnt bf1 - 1) =? 0).
    - eexists _, _. split; [exact Hrep2|].
      split; [by apply list_lookup_insert_eq|]. simpl. by rewrite Hown2.
    - exists bk', (l1 ++ j :: l2). split; [done|]. split; [done|].
      by rewrite Hst. }
  destruct Hbk2 as (bk2 & lh2 & Hrep2' & Hh2 & Hfind2).
  assert (Hch2 : bget_choice s2 bk2 d bn = Some j).
  { unfold bget_choice. fold h. rewrite Hh2. simpl. by rewrite Hfind2. }
  destruct (bread_final s2 bk2 lh2 me' ticks' d bn j _ Hrep2' Hh2 Hch2 Hpb2)
    as (f2 & bk3 & evs2 & s3 & Hway2 & _ & _ & Hreads2 & Hcase2).
  change (locked (lock (released (g pb)))) with false in Hcase2.
  cbv iota in Hcase2. destruct Hcase2 as (Hrun3 & Htr3 & _).
  exists s3. split; [done|]. rewrite Htr3, !disk_reads_app, Hreads2.
  assert (f2 = hit_buf ticks') as ->.
  { destruct Hway2 as [(_ & -> & _)|(Hnone & _)]; [done|]. congruence. }
  change (valid (hit_buf ticks' (released (g pb)))) with (valid (g pb)).
  pose proof (filled_valid (locked_by me (f pb))) as Hv.
  fold (g pb) in Hv. apply Z.eqb_neq in Hv. rewrite Hv. simpl. lia.
Qed.

(** X14.  [bpin] and then [bunpin] put the count of holders back where it
    was; what is left of the two calls is the time stamp of [bpin].  In
    between the buffer has a holder. *)
Theorem bpin_bunpin_round_trip (s : bcache) (ticks : Z) (j : nat)
    (bf : buf) :
  deref s (Buf j) = Some bf -> 0 <= refcnt bf < 2 ^ 32 - 1 ->
  exists s1 s2 b1,
    bpin ticks (Buf j) s = Ret tt s1 /\
    payload_of s1 (Buf j) = Some b1 /\ refcnt b1 = refcnt bf + 1 /\
    bunpin (Buf j) s1 = Ret tt s2 /\
    changed_at s s2 (Buf j) (with_lru_timestamp ticks) /\
    (forall x, next_of s2 x = next_of s x) /\
    (forall x, prev_of s2 x = prev_of s x).
Proof.
  intros Hbf Hrc.
  assert (Hpb : payload_of s (Buf j) = Some (payload bf))
    by (unfold payload_of; by rewrite Hbf).
  destruct (bpin_spec s ticks (Buf j) bf Hbf)
    as (s1 & Hrun1 & _ & Hn1 & Hp1 & Hpl1).
  pose proof (changed_at_same _ _ _ _ _ Hpl1 Hpb) as Hpb1.
  destruct (payload_of_deref _ _ _ Hpb1) as (bf1 & Hbf1 & _).
  destruct (bunpin_spec s1 (Buf j) bf1 Hbf1)
    as (s2 & Hrun2 & _ & Hn2 & Hp2 & Hpl2).
  exists s1, s2, (hit_buf ticks (payload bf)).
  split; [done|]. split; [done|]. split.
  { simpl. apply wrap32_id. lia. }
  split; [done|]. split; [|split].
  - intros x. rewrite Hpl2, Hpl1. case_decide as E; [subst x|done].
    rewrite Hpb. simpl. f_equal. unfold dropped, hit_buf. simpl.
    rewrite (wrap32_id (refcnt bf + 1)) by lia.
    replace (refcnt bf + 1 - 1) with (refcnt bf) by lia.
    rewrite wrap32_id by lia. by destruct bf.
  - intros x. by rewrite Hn2, Hn1.
  - intros x. by rewrite Hp2, Hp1.
Qed.

(** ** The spin locks *)

Lemma held_pair h : held [Acquire (hash_lock h); Release (hash_lock h)] = [].
Proof.
  unfold held, held_from. simpl.
  by rewrite filter_cons_False by (intros X; by apply X).
Qed.

Lemma load_fault p s : deref s p = None -> load p s = Fault.
Proof. intros H. unfold load. by rewrite H. Qed.

(** X15.  No call comes back with a spin lock in its hands.  [bread]
    that returns or goes to sleep, [brelse], [bpin] and [bunpin] have
    released every spin lock they have taken.  Only the panic of [bget]
    happens with locks held: the lock of the bucket of the block and
    [bcache.lock]. *)
Theorem spin_locks_balanced (s : bcache) (bk : list (list nat))
    (me ticks d bn : Z) :
  well_formed s bk ->
  match bread me ticks d bn s with
  | Ret _ s' | Sleeping _ s' =>
      exists evs, trace s' = trace s ++ evs /\ held evs = []
  | Panic _ s' =>
      exists evs, trace s' = trace s ++ evs /\
        held evs = [hash_lock (Z.to_nat (hash_val bn)); bcache_lock]
  | Fault | Diverge => False
  end /\
  (forall j s', brelse me (Buf j) s = Ret tt s' ->
     exists evs, trace s' = trace s ++ evs /\ held evs = []) /\
  (forall j s', bpin ticks (Buf j) s = Ret tt s' ->
     exists evs, trace s' = trace s ++ evs /\ held evs = []) /\
  (forall j s', bunpin (Buf j) s = Ret tt s' ->
     exists evs, trace s' = trace s ++ evs /\ held evs = []).
Proof.
  intros [Hrep Hall Hcoh]. split; [|split; [|split]].
  - destruct (rep_lookup_is_Some s bk _ Hrep (hash_val_bucket bn)) as [lh Hh].
    destruct (bget_choice s bk d bn) as [j|] eqn:Hch.
    + destruct (bget_choice_in s bk lh d bn j Hrep Hh Hch)
        as (i & l & Hl & Hj).
      destruct (rep_valid_buf s bk i l j Hrep Hl Hj) as [bf Hbf].
      assert (Hpb : payload_of s (Buf j) = Some (payload bf))
        by (unfold payload_of; by rewrite Hbf).
      destruct (bread_final s bk lh me ticks d bn j _ Hrep Hh Hch Hpb)
        as (f & bk' & evs & s' & _ & _ & Hheld & _ & Hcase).
      destruct (locked (lock (payload bf))).
      * destruct Hcase as (-> & Htr & _). by exists evs.
      * destruct Hcase as (-> & Htr & _). eexists. split; [exact Htr|].
        unfold held. rewrite held_from_app. fold (held evs). rewrite Hheld.
        by destruct (valid (f (payload bf)) =? 0).
    + rewrite (bread_panic s bk lh me ticks d bn Hrep Hh Hch).
      eexists. split; [done|]. unfold held. rewrite held_from_app.
      set (h := Z.to_nat (hash_val bn)).
      assert (E0 : held_from [] [Acquire (hash_lock h); Release (hash_lock h);
                                 Acquire bcache_lock; Acquire (hash_lock h)]
                   = [hash_lock h; bcache_lock]).
      { unfold held_from. simpl.
        by rewrite filter_cons_False by (intros X; by apply X). }
      rewrite E0. apply held_from_visits.
      intros k Hk Hkh [Hin|Hin]%elem_of_cons; [congruence|].
      by apply list_elem_of_singleton in Hin.
  - intros j s' Hrun.
    destruct (deref s (Buf j)) as [bf|] eqn:Hbf;
      [|by rewrite brelse_fault in Hrun].
    destruct (holding me (lock bf)) eqn:Hhold;
      [|by rewrite (brelse_not_holding me _ s bf) in Hrun].
    assert (Hpb : payload_of s (Buf j) = Some (payload bf))
      by (unfold payload_of; by rewrite Hbf).
    assert (Hlive : live (payload bf) = true).
    { unfold holding in Hhold. apply andb_prop in Hhold as [Hl _].
      unfold live. rewrite lock_payload, Hl. by rewrite !orb_true_r. }
    destruct (Hall j) as (i & l & Hl & Hj); [eauto|].
    destruct (Hcoh i l j _ Hl Hj Hpb Hlive) as [Hi _].
    change (blockno (payload bf)) with (blockno bf) in Hi. subst i.
    apply list_elem_of_split in Hj as (l1 & l2 & ->).
    destruct (brelse_holding s bk me j bf l1 l2 Hrep Hbf Hl Hhold)
      as (s1 & Hrun1 & Htr & _).
    assert (s1 = s') as -> by congruence.
    eexists. split; [exact Htr|].
    change (held (ReleaseSleep (Buf j) ::
                  [Acquire (hash_lock (Z.to_nat (hash_val (blockno bf))));
                   Release (hash_lock (Z.to_nat (hash_val (blockno bf))))]))
      with (held [Acquire (hash_lock (Z.to_nat (hash_val (blockno bf))));
                  Release (hash_lock (Z.to_nat (hash_val (blockno bf))))]).
    apply held_pair.
  - intros j s' Hrun.
    destruct (deref s (Buf j)) as [bf|] eqn:Hbf.
    + destruct (bpin_spec s ticks (Buf j) bf Hbf) as (s1 & Hrun1 & Htr & _).
      assert (s1 = s') as -> by congruence.
      eexists. split; [exact Htr | apply held_pair].
    + unfold bpin, bind in Hrun. by rewrite (load_fault _ _ Hbf) in Hrun.
  - intros j s' Hrun.
    destruct (deref s (Buf j)) as [bf|] eqn:Hbf.
    + destruct (bunpin_spec s (Buf j) bf Hbf) as (s1 & Hrun1 & Htr & _).
      assert (s1 = s') as -> by congruence.
      eexists. split; [exact Htr | apply held_pair].
    + unfold bunpin, bind in Hrun. by rewrite (load_fault _ _ Hbf) in Hrun.
Qed.

Lemma deref_Buf s j : deref s (Buf j) = bcache_buf s !! j.
Proof. done. Qed.

(** ** The disk *)

(** X16.  A call of [bread] that returns has read the disk at most once:
    not at all when the block was in the cache and its buffer valid, and
    once otherwise, when the buffer was not valid or was taken from
    another block. *)
Theorem bread_reads_disk_at_most_once (s s' : bcache) (bk : list (list nat))
    (me ticks d bn : Z) (b : ptr) :
  rep s bk -> bread me ticks d bn s = Ret b s' ->
  exists j pb,
    b = Buf j /\ payload_of s (Buf j) = Some pb /\
    disk_reads (trace s') =
      (disk_reads (trace s) +
       if bool_decide (find (holds_block s d bn)
                         (default [] (bk !! Z.to_nat (hash_val bn))) = Some j)
          && negb (valid pb =? 0)%Z
       then 0 else 1)%nat.
Proof.
  intros Hrep Hrun.
  destruct (bread_ret_inv s bk me ticks d bn b s' Hrep Hrun)
    as (lh & j & pb & f & bk' & evs & Hh & -> & Hch & Hpb & Hfree & Hway
        & Hrep1 & Hheld & Hreads & Htr & Hpl).
  exists j, pb. split; [done|]. split; [done|].
  rewrite Htr, !disk_reads_app, Hreads, Hh. simpl default.
  destruct Hway as [(Hfind & -> & _)|(Hmiss & -> & _)].
  - rewrite bool_decide_true by done.
    change (valid (hit_buf ticks pb)) with (valid pb).
    by destruct (valid pb =? 0).
  - rewrite bool_decide_false by congruence. done.
Qed.

(** ** The eviction that follows a release *)

Lemma unused_same_payload s s' x :
  payload_of s' (Buf x) = payload_of s (Buf x) -> unused s x = unused s' x.
Proof.
  unfold payload_of, unused. rewrite !deref_Buf.
  destruct (bcache_buf s' !! x) as [b1|], (bcache_buf s !! x) as [b0|];
    intros H; try done.
  apply (f_equal (fmap (M := option) refcnt)) in H.
  destruct b0, b1. simpl in *. by injection H as ->.
Qed.

(** X17.  The [bread] that comes right after a [brelse] does not
    recycle the buffer just released.  When [brelse] has released a
    buffer for good, the buffer is at the front of its bucket; a [bread]
    run on the state [brelse] has left, while the bucket has another
    buffer without holder, returns the released buffer only for the block
    the buffer already holds.  Later calls reorder the bucket, and this
    says nothing about them. *)
Theorem released_buffer_not_recycled_next (s : bcache) (bk : list (list nat))
    (me : Z) (j : nat) (bf : buf) (l1 l2 : list nat) :
  rep s bk -> deref s (Buf j) = Some bf ->
  bk !! Z.to_nat (hash_val (blockno bf)) = Some (l1 ++ j :: l2) ->
  holding me (lock bf) = true -> refcnt bf = 1 ->
  exists s',
    brelse me (Buf j) s = Ret tt s' /\
    rep s' (<[Z.to_nat (hash_val (blockno bf)) := j :: l1 ++ l2]> bk) /\
    forall x you ticks d bn s'',
      x ∈ l1 ++ l2 -> unused s x = true ->
      bread you ticks d bn s' = Ret (Buf j) s'' ->
      d = dev bf /\ bn = blockno bf.
Proof.
  intros Hrep Hbf Hl Hhold Hrc.
  destruct (brelse_holding s bk me j bf l1 l2 Hrep Hbf Hl Hhold)
    as (s' & Hrun & _ & _ & Hpl & Hrep').
  rewrite Hrc in Hrep'. change (wrap32 (1 - 1) =? 0) with true in Hrep'.
  cbv iota in Hrep'.
  set (h := Z.to_nat (hash_val (blockno bf))) in *.
  set (bk' := <[h := j :: l1 ++ l2]> bk) in *.
  exists s'. split; [done|]. split; [done|].
  intros x you ticks d bn s'' Hx Hux Hread.
  assert (Hlt : (h < length bk)%nat) by by eapply lookup_lt_Some.
  assert (Hh' : bk' !! h = Some (j :: l1 ++ l2))
    by by apply list_lookup_insert_eq.
  assert (Hpj : payload_of s' (Buf j) = Some (released (payload bf))).
  { rewrite (changed_at_same s s' (Buf j) released (payload bf) Hpl); [done|].
    unfold payload_of. by rewrite Hbf. }
  destruct (bread_ret_inv s' bk' you ticks d bn _ s'' Hrep' Hread)
    as (lh & j' & pb & f & bk2 & evs & Hlh & [= <-] & Hch & _ & _ & Hway & _).
  destruct Hway as [(Hfind & _)|(Hfind & _ & _ & i & a & c & Hi & Hli & _)].
  - apply find_some in Hfind as [_ Hkey].
    rewrite (holds_block_key _ _ _ _ _ Hpj) in Hkey.
    apply andb_prop in Hkey as [Hd Hb].
    apply Z.eqb_eq in Hd, Hb. split; symmetry; [exact Hd | exact Hb].
  - exfalso.
    unfold bget_choice in Hch. rewrite Hlh in Hch.
    simpl default in Hch. rewrite Hfind in Hch.
    destruct (bget_evict s' bk' lh you 0 d bn j Hrep' Hlh Hfind Hch)
      as (bs1 & i' & bs2 & a' & c' & s2 & _ & _ & Hli' & _ & Hnone & _).
    assert (i' = h) as ->.
    { eapply (rep_same_bucket s' bk' i' h); eauto.
      - apply elem_of_app. right. by left.
      - by left. }
    assert (E : a' ++ j :: c' = [] ++ j :: (l1 ++ l2)) by (simpl; congruence).
    assert (Hnd : NoDup (a' ++ j :: c'))
      by (destruct Hrep' as [_ [Hn _]]; eauto).
    destruct a' as [|a0 a'].
    + simpl in E. injection E as ->.
      assert (Hxu : unused s' x = true).
      { assert (Hne : x <> j).
        { intros ->. simpl in Hnd. by apply NoDup_cons in Hnd as [Hnin _]. }
        rewrite <- Hux. symmetry. apply unused_same_payload.
        by apply (changed_at_other _ _ _ _ (Buf x) Hpl); congruence. }
      apply (proj1 (find_None_iff _ _)) with (x := x) in Hnone;
        [congruence|]. by apply elem_of_rev.
    + simpl in E. injection E as -> E. simpl in Hnd.
      apply NoDup_cons in Hnd as [Hnin _]. apply Hnin.
      apply elem_of_app. right. by left.
Qed.

(** ** The caches of the examples *)

(** A cache of thirteen short lists at hand is well formed: checked
    buffer by buffer. *)
Ltac check_coherent :=
  intros i l j b Hl Hj Hb Hlive;
  do 13 (destruct i as [|i];
         [injection Hl as <-;
          repeat (apply elem_of_cons in Hj as [->|Hj];
                  [vm_compute in Hb; injection Hb as <-;
                   first [ discriminate Hlive
                         | split; vm_compute; reflexivity ] |]);
          apply elem_of_nil in Hj; destruct Hj |]);
  discriminate Hl.

Lemma boot_well_formed : well_formed boot boot_buckets.
Proof.
  split; [exact boot_rep | |].
  - intros j [bf Hbf]. rewrite deref_Buf in Hbf.
    pose proof (lookup_lt_Some _ _ _ Hbf) as Hlt.
    assert (E : length (bcache_buf boot) = 30%nat) by (vm_compute; reflexivity).
    rewrite E in Hlt. clear E Hbf.
    exists (j mod 13)%nat, (default [] (boot_buckets !! (j mod 13)%nat)).
    do 30 (destruct j as [|j];
           [split; [vm_compute; reflexivity
                   |apply (bool_decide_unpack _); vm_compute; exact I] |]).
    lia.
  - check_coherent.
Qed.

Lemma boot_read_well_formed : well_formed boot_read boot_read_buckets.
Proof.
  split; [exact boot_read_rep | |].
  - intros j [bf Hbf]. rewrite deref_Buf in Hbf.
    pose proof (lookup_lt_Some _ _ _ Hbf) as Hlt.
    assert (E : length (bcache_buf boot_read) = 30%nat)
      by (vm_compute; reflexivity).
    rewrite E in Hlt. clear E Hbf.
    exists (if decide (j = 0%nat) then 1%nat else (j mod 13)%nat),
      (default [] (boot_read_buckets
                     !! (if decide (j = 0%nat) then 1%nat else (j mod 13)%nat))).
    do 30 (destruct j as [|j];
           [split; [vm_compute; reflexivity
                   |apply (bool_decide_unpack _); vm_compute; exact I] |]).
    lia.
  - check_coherent.
Qed.

Lemma boot_read_eq : bread 1 100 1 1 boot = Ret (Buf 0) boot_read.
Proof. vm_compute. reflexivity. Qed.

Lemma boot_read_payload0 :
  payload_of boot_read (Buf 0) = Some (payload boot_read_buf0).
Proof. vm_compute. reflexivity. Qed.

Lemma bread_outcome_witness :
  rep boot boot_buckets /\
  bget_choice boot boot_buckets 1 1 = Some 0%nat /\
  exists pb, payload_of boot (Buf 0) = Some pb /\
    if locked (lock pb)
    then exists s', bread 1 100 1 1 boot = Sleeping (Buf 0) s' /\
           forall x, x <> Buf 0 -> payload_of s' x = payload_of boot x
    else exists s' pb',
           bread 1 100 1 1 boot = Ret (Buf 0) s' /\
           payload_of s' (Buf 0) = Some pb' /\
           dev pb' = 1 /\ blockno pb' = 1 /\ valid pb' <> 0 /\
           lock pb' = {| locked := true; pid := 1 |} /\
           refcnt pb' = wrap32 (refcnt pb + 1) /\
           forall x, x <> Buf 0 -> payload_of s' x = payload_of boot x.
Proof.
  assert (Hch : bget_choice boot boot_buckets 1 1 = Some 0%nat)
    by (vm_compute; reflexivity).
  split; [exact boot_rep|]. split; [exact Hch|].
  pose proof (bread_outcome boot boot_buckets 1 100 1 1 boot_rep) as H.
  rewrite Hch in H. exact H.
Defined.

Lemma bread_keeps_buffers_in_use_witness :
  rep boot_read boot_read_buckets /\
  payload_of boot_read (Buf 0) = Some (payload boot_read_buf0) /\
  refcnt (payload boot_read_buf0) <> 0 /\
  exists pb',
    payload_of (state_of (bread 2 101 1 14 boot_read)) (Buf 0) = Some pb' /\
    dev pb' = dev (payload boot_read_buf0) /\
    blockno pb' = blockno (payload boot_read_buf0) /\
    (valid (payload boot_read_buf0) <> 0 ->
     valid pb' = valid (payload boot_read_buf0)).
Proof.
  assert (Hrc : refcnt (payload boot_read_buf0) <> 0) by (vm_compute; discriminate).
  split; [exact boot_read_rep|]. split; [exact boot_read_payload0|].
  split; [exact Hrc|].
  exact (bread_keeps_buffers_in_use boot_read boot_read_buckets 2 101 1 14
           0%nat (payload boot_read_buf0) boot_read_rep boot_read_payload0 Hrc).
Defined.

Lemma bread_keeps_well_formed_witness :
  well_formed boot boot_buckets /\
  exists bk', well_formed (state_of (bread 1 100 1 1 boot)) bk'.
Proof.
  split; [exact boot_well_formed|].
  exact (bread_keeps_well_formed boot boot_buckets 1 100 1 1 boot_well_formed).
Defined.

Lemma brelse_keeps_well_formed_witness :
  well_formed boot_read boot_read_buckets /\
  exists s', brelse 1 (Buf 0) boot_read = Ret tt s' /\
    exists bk', well_formed s' bk'.
Proof.
  split; [exact boot_read_well_formed|].
  assert (Hrun : exists s', brelse 1 (Buf 0) boot_read = Ret tt s')
    by (eexists; vm_compute; reflexivity).
  destruct Hrun as [s' Hrun]. exists s'. split; [exact Hrun|].
  exact (brelse_keeps_well_formed boot_read s' boot_read_buckets 1 0%nat
           boot_read_well_formed Hrun).
Defined.

Lemma pin_unpin_write_keep_well_formed_witness :
  payload_of boot_read (Buf 0) = Some (payload boot_read_buf0) /\
  well_formed boot_read boot_read_buckets /\
  live (payload boot_read_buf0) = true /\
  (exists s', bpin 102 (Buf 0) boot_read = Ret tt s' /\
     changed_at boot_read s' (Buf 0) (hit_buf 102) /\
     well_formed s' boot_read_buckets) /\
  (exists s', bunpin (Buf 0) boot_read = Ret tt s' /\
     changed_at boot_read s' (Buf 0) dropped /\
     well_formed s' boot_read_buckets).
Proof.
  assert (Hlive : live (payload boot_read_buf0) = true) by reflexivity.
  split; [exact boot_read_payload0|]. split; [exact boot_read_well_formed|].
  split; [exact Hlive|].
  destruct (pin_unpin_write_keep_well_formed boot_read
              0%nat (payload boot_read_buf0) boot_read_payload0)
    as (Hpin & Hunpin & _).
  split.
  - destruct (Hpin 102) as (s' & Hrun & Hpl & Hwf). exists s'.
    split; [exact Hrun|]. split; [exact Hpl|].
    exact (Hwf boot_read_buckets boot_read_well_formed Hlive).
  - destruct Hunpin as (s' & Hrun & Hpl & Hwf). exists s'.
    split; [exact Hrun|]. split; [exact Hpl|].
    exact (Hwf boot_read_buckets boot_read_well_formed Hlive).
Defined.

Lemma bread_of_live_block_hits_witness :
  well_formed boot_read boot_read_buckets /\
  payload_of boot_read (Buf 0) = Some (payload boot_read_buf0) /\
  live (payload boot_read_buf0) = true /\
  exists s',
    (if locked (lock (payload boot_read_buf0))
     then bread 2 103 (dev (payload boot_read_buf0))
            (blockno (payload boot_read_buf0)) boot_read
          = Sleeping (Buf 0) s'
     else bread 2 103 (dev (payload boot_read_buf0))
            (blockno (payload boot_read_buf0)) boot_read
          = Ret (Buf 0) s') /\
    rep s' boot_read_buckets.
Proof.
  assert (Hlive : live (payload boot_read_buf0) = true) by reflexivity.
  split; [exact boot_read_well_formed|]. split; [exact boot_read_payload0|].
  split; [exact Hlive|].
  destruct (bread_of_live_block_hits boot_read boot_read_buckets 2 103
              0%nat (payload boot_read_buf0) boot_read_well_formed
              boot_read_payload0 Hlive) as (_ & s' & Hrun & Hrep & _).
  exists s'. split; [exact Hrun | exact Hrep].
Defined.

Lemma second_bread_reads_no_disk_witness :
  rep boot boot_buckets /\
  bread 1 100 1 1 boot = Ret (Buf 0) boot_read /\
  exists s2, brelse 1 (Buf 0) boot_read = Ret tt s2 /\
    exists s3, bread 2 103 1 1 s2 = Ret (Buf 0) s3 /\
      disk_reads (trace s3) = disk_reads (trace s2).
Proof.
  split; [exact boot_rep|]. split; [exact boot_read_eq|].
  destruct (second_bread_reads_no_disk boot boot_read boot_buckets
              1 100 1 1 (Buf 0) boot_rep boot_read_eq) as (s2 & Hrun & Hnext).
  exists s2. split; [exact Hrun|]. exact (Hnext 2 103).
Defined.

Lemma bpin_bunpin_round_trip_witness :
  deref boot (Buf 0) = Some boot_buf0 /\
  0 <= refcnt boot_buf0 < 2 ^ 32 - 1 /\
  exists s1 s2 b1,
    bpin 102 (Buf 0) boot = Ret tt s1 /\
    payload_of s1 (Buf 0) = Some b1 /\ refcnt b1 = refcnt boot_buf0 + 1 /\
    bunpin (Buf 0) s1 = Ret tt s2 /\
    changed_at boot s2 (Buf 0) (with_lru_timestamp 102).
Proof.
  assert (Hd : deref boot (Buf 0) = Some boot_buf0) by (vm_compute; reflexivity).
  assert (Hrc : 0 <= refcnt boot_buf0 < 2 ^ 32 - 1) by (vm_compute; split; congruence).
  split; [exact Hd|]. split; [exact Hrc|].
  destruct (bpin_bunpin_round_trip boot 102 0%nat boot_buf0 Hd Hrc)
    as (s1 & s2 & b1 & H1 & H2 & H3 & H4 & H5 & _).
  exists s1, s2, b1. split; [exact H1|]. split; [exact H2|].
  split; [exact H3|]. split; [exact H4 | exact H5].
Defined.

Lemma spin_locks_balanced_witness :
  well_formed boot boot_buckets /\
  bread 1 100 1 1 boot = Ret (Buf 0) boot_read /\
  exists evs, trace boot_read = trace boot ++ evs /\ held evs = [].
Proof.
  split; [exact boot_well_formed|]. split; [exact boot_read_eq|].
  pose proof (spin_locks_balanced boot boot_buckets 1 100 1 1
                boot_well_formed) as [H _].
  rewrite boot_read_eq in H. exact H.
Defined.

Lemma bread_reads_disk_at_most_once_witness :
  rep boot boot_buckets /\
  bread 1 100 1 1 boot = Ret (Buf 0) boot_read /\
  exists j pb,
    Buf 0 = Buf j /\ payload_of boot (Buf j) = Some pb /\
    disk_reads (trace boot_read) =
      (disk_reads (trace boot) +
       if bool_decide (find (holds_block boot 1 1)
                         (default [] (boot_buckets !! Z.to_nat (hash_val 1)))
                       = Some j)
          && negb (valid pb =? 0)%Z
       then 0 else 1)%nat.
Proof.
  split; [exact boot_rep|]. split; [exact boot_read_eq|].
  exact (bread_reads_disk_at_most_once boot boot_read boot_buckets
           1 100 1 1 (Buf 0) boot_rep boot_read_eq).
Defined.

Lemma released_buffer_not_recycled_next_witness :
  rep boot_read boot_read_buckets /\
  deref boot_read (Buf 0) = Some boot_read_buf0 /\
  boot_read_buckets !! Z.to_nat (hash_val (blockno boot_read_buf0))
    = Some ([] ++ 0 :: [27; 14; 1])%nat /\
  holding 1 (lock boot_read_buf0) = true /\ refcnt boot_read_buf0 = 1 /\
  exists s',
    brelse 1 (Buf 0) boot_read = Ret tt s' /\
    forall x you ticks d bn s'',
      x ∈ ([] ++ [27; 14; 1])%nat -> unused boot_read x = true ->
      bread you ticks d bn s' = Ret (Buf 0) s'' ->
      d = dev boot_read_buf0 /\ bn = blockno boot_read_buf0.
Proof.
  assert (Hd : deref boot_read (Buf 0) = Some boot_read_buf0)
    by (vm_compute; reflexivity).
  assert (Hl : boot_read_buckets
                 !! Z.to_nat (hash_val (blockno boot_read_buf0))
               = Some ([] ++ 0 :: [27; 14; 1])%nat) by reflexivity.
  assert (Hh : holding 1 (lock boot_read_buf0) = true) by reflexivity.
  assert (Hrc : refcnt boot_read_buf0 = 1) by reflexivity.
  split; [exact boot_read_rep|]. split; [exact Hd|]. split; [exact Hl|].
  split; [exact Hh|]. split; [exact Hrc|].
  destruct (released_buffer_not_recycled_next boot_read boot_read_buckets 1
              0%nat boot_read_buf0 [] [27; 14; 1]%nat boot_read_rep Hd Hl
              Hh Hrc) as (s' & Hrun & _ & Hlast).
  exists s'. split; [exact Hrun | exact Hlast].
Defined.

End BioMore.
